(** * UE4Workspace/object/socket.py: sockets between the tool and the engine

    A shallow embedding of the socket operators of [socket.py]: the attach
    availability check, the copy operator that serialises the sockets of an
    armature into the engine's clipboard text, the [SocketObject] record
    builder and the paste operator that parses that text back into scene
    objects.

    Conventions of the embedding.
    - A Python [str] is a [string] whose characters are the code points
      0..255; the string methods below follow CPython on those code points.
    - A Python [float] is a binary64 [float] of the kernel.  [float(str)] and
      the formatting of a float are builtins that the file takes as an
      interface ([PyFloatText]); so are the matrix routines of [mathutils]
      ([Mathutils]).
    - An exception is a value [Raise e]; every operator returns the scene it
      leaves behind together with its result or the exception it raised.
    - Scene objects are referred to by their position in the store
      [objects], which stands for the identity of the object: two references
      are the same object ([is]) when the positions agree.  A new object is
      put last in the store under the name it was asked for; the order in
      which the host lists its objects and the suffix it gives a name that
      is taken are not part of the embedding. *)

From Stdlib Require Import Ascii Floats.
From stdpp Require Import gmap strings list fin_maps pretty.

(** ** Python's string methods *)

Module PyStr.

Definition code (c : ascii) : nat := nat_of_ascii c.

(** [str.isspace] on one character (code points below 256). *)
Definition isspace (c : ascii) : bool :=
  let n := code c in
  ((9 <=? n) && (n <=? 13)) || ((28 <=? n) && (n <=? 32))
  || (n =? 133) || (n =? 160).

(** The line boundaries of [str.splitlines] (code points below 256). *)
Definition is_linebreak (c : ascii) : bool :=
  let n := code c in
  ((10 <=? n) && (n <=? 13)) || ((28 <=? n) && (n <=? 30)) || (n =? 133).

Fixpoint member (chars : string) (c : ascii) : bool :=
  match chars with
  | String c' chars' => Ascii.eqb c c' || member chars' c
  | EmptyString => false
  end.

Fixpoint lstrip_with (p : ascii -> bool) (s : string) : string :=
  match s with
  | String c s' => if p c then lstrip_with p s' else s
  | EmptyString => EmptyString
  end.

Definition rstrip_with (p : ascii -> bool) (s : string) : string :=
  String.rev (lstrip_with p (String.rev s)).

(** [s.strip()] *)
Definition strip (s : string) : string :=
  rstrip_with isspace (lstrip_with isspace s).

(** [s.strip(chars)] *)
Definition strip_chars (chars s : string) : string :=
  rstrip_with (member chars) (lstrip_with (member chars) s).

(** [s.startswith(p)] *)
Definition startswith (s p : string) : bool := String.prefix p s.

(** [sub in s] *)
Fixpoint contains (sub s : string) : bool :=
  String.prefix sub s
  || match s with
     | String _ s' => contains sub s'
     | EmptyString => false
     end.

(** [s.splitlines()]: a carriage return followed by a line feed is one
    boundary, and no empty last line is produced. *)
Fixpoint splitlines (s : string) : list string :=
  match s with
  | EmptyString => []
  | String c s' =>
      if is_linebreak c then
        "" :: match s' with
              | String c' s'' =>
                  if Ascii.eqb c "013" && Ascii.eqb c' "010"
                  then splitlines s'' else splitlines s'
              | EmptyString => []
              end
      else match splitlines s' with
           | l :: ls => String c l :: ls
           | [] => [String c ""]
           end
  end.

(** [s.split(sep)] for a one-character separator. *)
Fixpoint split (sep : ascii) (s : string) : list string :=
  match s with
  | EmptyString => [""]
  | String c s' =>
      if Ascii.eqb c sep then "" :: split sep s'
      else match split sep s' with
           | l :: ls => String c l :: ls
           | [] => [String c ""]
           end
  end.

(** [s.split(sep, 1)]: cut at the first separator, if there is one. *)
Fixpoint split1 (sep : ascii) (s : string) : list string :=
  match s with
  | EmptyString => [""]
  | String c s' =>
      if Ascii.eqb c sep then [""; s']
      else match split1 sep s' with
           | l :: ls => String c l :: ls
           | [] => [String c ""]
           end
  end.

(** [str(n)] for a natural number. *)
Definition of_nat (n : nat) : string := pretty n.

End PyStr.


(** ** Exceptions and results *)

Inductive exn : Set :=
  | ValueError | IndexError | KeyError | TypeError | AttributeError.

Inductive Result (A : Type) : Type :=
  | Ok (a : A)
  | Raise (e : exn).
Arguments Ok {A} a.
Arguments Raise {A} e.

#[global] Instance Result_ret : MRet Result := @Ok.
#[global] Instance Result_bind : MBind Result := fun A B f r =>
  match r with
  | Ok a => f a
  | Raise e => Raise e
  end.

Definition raised {A} (r : Result A) : bool :=
  match r with Raise _ => true | Ok _ => false end.

(** [d[key]] on a dict. *)
Definition getitem {V} (d : gmap string V) (key : string) : Result V :=
  match d !! key with
  | Some v => Ok v
  | None => Raise KeyError
  end.

(** ** Floats *)

(** The text side of Python's floats: [float(s)], which raises [ValueError]
    ([None]) on a string that is no number, and the text [format] and [repr]
    give a float. *)
Class PyFloatText := {
  py_float : string -> option float;
  py_repr : float -> string }.

Module math.
Definition pi : float := 0x1.921fb54442d18p+1%float.
Definition degrees (x : float) : float := (x * (180 / pi))%float.
Definition radians (x : float) : float := (x * (pi / 180))%float.
End math.

(** ** mathutils *)

Module Vector.
Record t : Set := mk { x : float; y : float; z : float }.
Definition sub (a b : t) : t :=
  mk (x a - x b)%float (y a - y b)%float (z a - z b)%float.
End Vector.

(** The matrix routines of [mathutils] the operators call.  [inverted]
    raises [ValueError] ([None]) on a matrix that has no inverse. *)
Class Mathutils := {
  Matrix : Type;
  Quaternion : Type;
  Identity : Matrix;
  matmul : Matrix -> Matrix -> Matrix;
  inverted : Matrix -> option Matrix;
  decompose : Matrix -> Vector.t * Quaternion * Vector.t;
  to_euler_XYZ : Quaternion -> Vector.t;
  Translation : Vector.t -> Matrix;
  Euler_XYZ_to_matrix_4x4 : Vector.t -> Matrix }.

Infix "@" := matmul (at level 40, left associativity).

Definition inverted_or_raise `{Mathutils} (m : Matrix) : Result Matrix :=
  match inverted m with
  | Some i => Ok i
  | None => Raise ValueError
  end.

(** ** The scene graph of the host *)

Module PoseBone.
Record t `{Mathutils} : Type := mk {
  name : string;
  matrix : Matrix;
  head : Vector.t;
  tail : Vector.t }.
Arguments mk {_} _ _ _ _.
End PoseBone.

(** A scene object.  [parent] and [attach_to] refer to other objects by their
    position in [bpy.data.objects]; [pose] is [None] unless the object is an
    armature. *)
Module Object.
Record t `{Mathutils} : Type := mk {
  name : string;
  type : string;
  is_socket : bool;
  show_name : bool;
  matrix_world : Matrix;
  scale : Vector.t;
  empty_display_type : string;
  empty_display_size : float;
  parent : option nat;
  parent_type : string;
  parent_bone : string;
  matrix_parent_inverse : Matrix;
  pose : option (list PoseBone.t);
  attach_to : option nat;
  is_attach_to_object : bool }.
Arguments mk {_} _ _ _ _ _ _ _ _ _ _ _ _ _ _ _.

Section Setters.
Context `{Mathutils}.

(** [bpy.data.objects.new(name=n, object_data=None)]: an empty with the
    defaults of the host and of [register]. *)
Definition new (n : string) : t :=
  mk n "EMPTY" false false Identity (Vector.mk 1 1 1) "PLAIN_AXES" 1%float
     None "OBJECT" "" Identity None None false.

Definition set_is_socket (v : bool) (o : t) : t :=
  let 'mk a b _ d e f g h i j k l m n p := o in
  mk a b v d e f g h i j k l m n p.
Definition set_show_name (v : bool) (o : t) : t :=
  let 'mk a b c _ e f g h i j k l m n p := o in
  mk a b c v e f g h i j k l m n p.
Definition set_matrix_world (v : Matrix) (o : t) : t :=
  let 'mk a b c d _ f g h i j k l m n p := o in
  mk a b c d v f g h i j k l m n p.
Definition set_scale (v : Vector.t) (o : t) : t :=
  let 'mk a b c d e _ g h i j k l m n p := o in
  mk a b c d e v g h i j k l m n p.
Definition set_empty_display_type (v : string) (o : t) : t :=
  let 'mk a b c d e f _ h i j k l m n p := o in
  mk a b c d e f v h i j k l m n p.
Definition set_empty_display_size (v : float) (o : t) : t :=
  let 'mk a b c d e f g _ i j k l m n p := o in
  mk a b c d e f g v i j k l m n p.
Definition set_parent (v : option nat) (o : t) : t :=
  let 'mk a b c d e f g h _ j k l m n p := o in
  mk a b c d e f g h v j k l m n p.
Definition set_parent_type (v : string) (o : t) : t :=
  let 'mk a b c d e f g h i _ k l m n p := o in
  mk a b c d e f g h i v k l m n p.
Definition set_parent_bone (v : string) (o : t) : t :=
  let 'mk a b c d e f g h i j _ l m n p := o in
  mk a b c d e f g h i j v l m n p.
Definition set_matrix_parent_inverse (v : Matrix) (o : t) : t :=
  let 'mk a b c d e f g h i j k _ m n p := o in
  mk a b c d e f g h i j k v m n p.

Definition set_scale_x (v : float) (o : t) : t :=
  set_scale (Vector.mk v (Vector.y (scale o)) (Vector.z (scale o))) o.
Definition set_scale_y (v : float) (o : t) : t :=
  set_scale (Vector.mk (Vector.x (scale o)) v (Vector.z (scale o))) o.
Definition set_scale_z (v : float) (o : t) : t :=
  set_scale (Vector.mk (Vector.x (scale o)) (Vector.y (scale o)) v) o.
End Setters.
End Object.

(** What the operators read and write: the objects and collections of
    [bpy.data], the children of the scene's collection, the clipboard of the
    window manager, and the class attribute [SocketObject._temp_dict], which
    lives as long as the module does. *)
Record BlendData `{Mathutils} : Type := mkBlendData {
  objects : list Object.t;
  collections : gmap string (list nat);
  scene_collection_children : list string;
  clipboard : string;
  _temp_dict : gmap string string }.
Arguments mkBlendData {_} _ _ _ _ _.

Record Context : Set := mkContext {
  active_object : option nat;
  mode : string }.

Section Store.
Context `{Mathutils}.

Definition set_objects (v : list Object.t) (b : BlendData) : BlendData :=
  mkBlendData v (collections b) (scene_collection_children b)
    (clipboard b) (_temp_dict b).
Definition set_collections (v : gmap string (list nat)) (b : BlendData)
  : BlendData :=
  mkBlendData (objects b) v (scene_collection_children b)
    (clipboard b) (_temp_dict b).
Definition set_scene_collection_children (v : list string) (b : BlendData)
  : BlendData :=
  mkBlendData (objects b) (collections b) v (clipboard b) (_temp_dict b).
Definition set_clipboard (v : string) (b : BlendData) : BlendData :=
  mkBlendData (objects b) (collections b) (scene_collection_children b)
    v (_temp_dict b).
Definition set_temp_dict (v : gmap string string) (b : BlendData)
  : BlendData :=
  mkBlendData (objects b) (collections b) (scene_collection_children b)
    (clipboard b) v.

(** The object a reference stands for. *)
Definition deref (b : BlendData) (r : option nat) : option Object.t :=
  r ≫= fun i => objects b !! i.

(** [obj.some_attribute = v] on the object at position [i]. *)
Definition assign (i : nat) (f : Object.t -> Object.t) (b : BlendData)
  : BlendData :=
  set_objects (alter f i (objects b)) b.

(** [pose.bones.get(name)] *)
Fixpoint bones_get (bones : list PoseBone.t) (n : string)
  : option PoseBone.t :=
  match bones with
  | [] => None
  | pb :: bones' =>
      if String.eqb (PoseBone.name pb) n then Some pb else bones_get bones' n
  end.
End Store.

(** ** The attach operator's availability check *)

(** [OP_AttachObject.poll] *)
Definition OP_AttachObject_poll `{Mathutils} (b : BlendData) (context : Context)
  : bool :=
  match deref b (active_object context) with
  | None => false
  | Some active =>
      match Object.attach_to active with
      | None => false
      | Some target =>
          negb (bool_decide
                  (deref b (Some target) ≫= Object.parent
                   = active_object context))
      end
  end.

(** ** The record builder [SocketObject] *)

Module SocketObject.
Record t : Type := mk {
  SocketName : string;
  BoneName : string;
  RelativeLocation : gmap string float;
  RelativeRotation : gmap string float;
  RelativeScale : gmap string float }.
End SocketObject.

(** The literal [_temp_dict] of the class body. *)
Definition temp_dict_initial : gmap string string :=
  <["SocketName" := "Socket"]>
    (<["BoneName" := "Bone"]>
       (<["RelativeLocation" := "X=0.0,Y=0.0,Z=0.0"]>
          (<["RelativeRotation" := "Pitch=0.0,Yaw=0.0,Roll=0.0"]>
             (<["RelativeScale" := "X=1.0,Y=1.0,Z=1.0"]> ∅)))).

Section Builder.
Context `{PyFloatText}.

(** The dict comprehension of [serialize]: every comma-separated part is
    stripped and cut at its first [=]; a part without one cannot be
    unpacked, and [float] refuses what is no number. *)
Fixpoint components (parts : list string) (acc : gmap string float)
  : Result (gmap string float) :=
  match parts with
  | [] => Ok acc
  | temp_string :: parts' =>
      match PyStr.split1 "=" (PyStr.strip temp_string) with
      | [key; val] =>
          match py_float val with
          | Some v => components parts' (<[key := v]> acc)
          | None => Raise ValueError
          end
      | _ => Raise ValueError
      end
  end.

Definition serialize (temp : gmap string string) (key : string)
  : Result (gmap string float) :=
  s ← getitem temp key;
  components (PyStr.split "," s) ∅.

(** [d[key] *= -1] *)
Definition negate_item (d : gmap string float) (key : string)
  : Result (gmap string float) :=
  v ← getitem d key;
  Ok (<[key := (v * -1)%float]> d).

(** [update_transform]: the three compound fields, in the order of the
    source, then the sign changes. *)
Definition update_transform (temp : gmap string string)
  : Result (gmap string float * gmap string float * gmap string float) :=
  location ← serialize temp "RelativeLocation";
  rotation ← serialize temp "RelativeRotation";
  scale ← serialize temp "RelativeScale";
  location ← negate_item location "Y";
  rotation ← negate_item rotation "Pitch";
  rotation ← negate_item rotation "Yaw";
  Ok (location, rotation, scale).

(** [SocketObject] called with the items of [bone] as keyword arguments
    ([__init__]).  The keyword [self] collides with the first
    parameter of [__init__]; otherwise [bone] is merged into the class's
    [_temp_dict], and the merged dict is returned whether or not the rest
    of [__init__] raises. *)
Definition SocketObject_init (temp bone : gmap string string)
  : gmap string string * Result SocketObject.t :=
  match bone !! "self" with
  | Some _ => (temp, Raise TypeError)
  | None =>
      let temp' := bone ∪ temp in
      (temp',
       '(location, rotation, scale) ← update_transform temp';
       socket_name ← getitem temp' "SocketName";
       bone_name ← getitem temp' "BoneName";
       Ok (SocketObject.mk socket_name bone_name location rotation scale))
  end.
End Builder.

(** ** The clipboard text *)

(** The double quote, as a one-character string. *)
Definition dq : string := String "034" "".
(** The line feed. *)
Definition nl : string := String "010" "".

Definition BEGIN_CLASS : string :=
  "Begin Object Class=/Script/Engine.SkeletalMeshSocket".
Definition BEGIN_NAMED : string :=
  BEGIN_CLASS +:+ " Name=" +:+ dq +:+ "SkeletalMeshSocket_".
Definition END_OBJECT : string := "End Object".

(** The header of the copy operator, for [n] selected sockets. *)
Definition header (n : nat) : string :=
  "SocketCopyPasteBuffer" +:+ nl +:+ nl
  +:+ "NumSockets=" +:+ PyStr.of_nat n +:+ nl +:+ nl.

Section Text.
Context `{PyFloatText}.

(** The format string of the copy operator, filled in: [location],
    [rotation] and [scale] are the three dicts passed to [format], each as
    its entries [x], [y], [z]. *)
Definition block (index : nat) (socket_name bone_name : string)
    (location rotation scale : Vector.t) : string :=
  "IsOnSkeleton=1" +:+ nl
  +:+ BEGIN_CLASS +:+ " Name=" +:+ dq +:+ "SkeletalMeshSocket_"
      +:+ PyStr.of_nat index +:+ dq +:+ nl
  +:+ "SocketName=" +:+ dq +:+ socket_name +:+ dq +:+ nl
  +:+ "BoneName=" +:+ dq +:+ bone_name +:+ dq +:+ nl
  +:+ "RelativeLocation=(X=" +:+ py_repr (Vector.x location)
      +:+ ",Y=" +:+ py_repr (Vector.y location)
      +:+ ",Z=" +:+ py_repr (Vector.z location) +:+ ")" +:+ nl
  +:+ "RelativeRotation=(Pitch=" +:+ py_repr (Vector.y rotation)
      +:+ ",Yaw=" +:+ py_repr (Vector.z rotation)
      +:+ ",Roll=" +:+ py_repr (Vector.x rotation) +:+ ")" +:+ nl
  +:+ "RelativeScale=(X=" +:+ py_repr (Vector.x scale)
      +:+ ",Y=" +:+ py_repr (Vector.y scale)
      +:+ ",Z=" +:+ py_repr (Vector.z scale) +:+ ")" +:+ nl
  +:+ "End Object" +:+ nl +:+ nl.
End Text.

(** ** The copy operator *)

Section Copy.
Context `{PyFloatText} `{Mathutils}.

(** [active_object.children], in the order of [bpy.data.objects]. *)
Definition children (b : BlendData) (active : nat) : list Object.t :=
  List.filter
    (fun obj => bool_decide (Object.parent obj = Some active)) (objects b).

(** The condition of the list comprehension that selects the sockets. *)
Definition is_bone_socket (obj : Object.t) : bool :=
  String.eqb (Object.type obj) "EMPTY"
  && Object.is_socket obj
  && String.eqb (Object.parent_type obj) "BONE"
  && negb (String.eqb (Object.parent_bone obj) "").

Definition socket_bone_objects (b : BlendData) (active : nat)
  : list Object.t :=
  List.filter is_bone_socket (children b active).

(** The dicts the copy operator passes to [format] for one socket, from
    the decomposition of its bone-relative matrix. *)
Definition export_location (socket_point_location : Vector.t) : Vector.t :=
  Vector.mk (Vector.x socket_point_location)
            (Vector.y socket_point_location * -1)%float
            (Vector.z socket_point_location).
Definition export_rotation (socket_point_rotation_euler : Vector.t)
  : Vector.t :=
  Vector.mk (math.degrees (Vector.x socket_point_rotation_euler))
            (math.degrees (Vector.y socket_point_rotation_euler * -1)%float)
            (math.degrees (Vector.z socket_point_rotation_euler * -1)%float).
Definition export_scale (socket_point_scale : Vector.t) : Vector.t :=
  Vector.mk (Vector.x socket_point_scale / 100)%float
            (Vector.y socket_point_scale / 100)%float
            (Vector.z socket_point_scale / 100)%float.

(** The body of the [for] loop, for the socket at position [index]: the
    text to add to [string_clipboard], empty when the bone is not found. *)
Definition copy_one (active : Object.t) (index : nat) (socket_obj : Object.t)
  : Result string :=
  match Object.pose active with
  | None => Raise AttributeError
  | Some bones =>
      match bones_get bones (Object.parent_bone socket_obj) with
      | None => Ok ""
      | Some pose_bone_target =>
          inverse ← inverted_or_raise
            (Object.matrix_world active @ PoseBone.matrix pose_bone_target);
          let '(socket_point_location, socket_point_rotation_quaternion,
                socket_point_scale) :=
            decompose (inverse @ Object.matrix_world socket_obj) in
          let socket_point_rotation_euler :=
            to_euler_XYZ socket_point_rotation_quaternion in
          Ok (block index (Object.name socket_obj)
                (Object.parent_bone socket_obj)
                (export_location socket_point_location)
                (export_rotation socket_point_rotation_euler)
                (export_scale socket_point_scale))
      end
  end.

(** The [for] loop over [enumerate(socket_bone_objects)], from position
    [index] on, accumulating into [string_clipboard]. *)
Fixpoint copy_loop (active : Object.t) (index : nat)
    (sockets : list Object.t) (string_clipboard : string) : Result string :=
  match sockets with
  | [] => Ok string_clipboard
  | socket_obj :: sockets' =>
      text ← copy_one active index socket_obj;
      copy_loop active (S index) sockets' (string_clipboard +:+ text)
  end.

(** [OP_CopySocket.execute]: the scene it leaves and the message it
    reports. *)
Definition OP_CopySocket_execute (b : BlendData) (context : Context)
  : BlendData * Result string :=
  match active_object context, deref b (active_object context) with
  | Some i, Some active =>
      let socket_bone_objects := socket_bone_objects b i in
      match copy_loop active 0 socket_bone_objects
              (header (length socket_bone_objects)) with
      | Ok string_clipboard =>
          (set_clipboard string_clipboard b, Ok "Copy socket success")
      | Raise e => (b, Raise e)
      end
  | _, _ => (b, Raise AttributeError)
  end.
End Copy.

(** ** The paste operator *)

Section Paste.
Context `{PyFloatText} `{Mathutils}.

(** The positions of the lines that open a socket block. *)
Fixpoint begin_indices (index : nat) (clipboard_list : list string)
  : list nat :=
  match clipboard_list with
  | [] => []
  | s :: rest =>
      if PyStr.startswith (PyStr.strip s) BEGIN_NAMED
      then index :: begin_indices (S index) rest
      else begin_indices (S index) rest
  end.

(** The [while] loop over one block.  [rest] is the clipboard from
    [index_loop] on: reading past its end is the [IndexError] of
    [clipboard_list[index_loop]], and a line with no [=] cannot be
    unpacked into [key, value]. *)
Fixpoint scan_block (rest : list string) (socket_dict : gmap string string)
  : Result (gmap string string) :=
  match rest with
  | [] => Raise IndexError
  | s :: rest' =>
      if PyStr.startswith (PyStr.strip s) END_OBJECT then Ok socket_dict
      else
        match PyStr.split1 "=" (PyStr.strip s) with
        | [key; value] =>
            scan_block rest'
              (<[key := PyStr.strip_chars "()" (PyStr.strip_chars dq value)]>
                 socket_dict)
        | _ => Raise ValueError
        end
  end.

(** The [for] loop that fills [socket_objects], threading the class's
    [_temp_dict] through the constructor calls. *)
Fixpoint parse_blocks (clipboard_list : list string) (indices : list nat)
    (temp : gmap string string)
  : gmap string string * Result (list SocketObject.t) :=
  match indices with
  | [] => (temp, Ok [])
  | index :: indices' =>
      match scan_block (drop (S index) clipboard_list) ∅ with
      | Raise e => (temp, Raise e)
      | Ok socket_dict =>
          match SocketObject_init temp socket_dict with
          | (temp', Raise e) => (temp', Raise e)
          | (temp', Ok socket_object) =>
              match parse_blocks clipboard_list indices' temp' with
              | (temp'', Raise e) => (temp'', Raise e)
              | (temp'', Ok socket_objects) =>
                  (temp'', Ok (socket_object :: socket_objects))
              end
          end
      end
  end.

(** Look up or create the collection [UE4Socket]. *)
Definition ensure_collection (b : BlendData) : BlendData :=
  match collections b !! "UE4Socket" with
  | Some _ => b
  | None =>
      set_scene_collection_children
        (scene_collection_children b ++ ["UE4Socket"])
        (set_collections (<["UE4Socket" := []]> (collections b)) b)
  end.

(** [collection.objects.link(socket)] *)
Definition link (socket : nat) (b : BlendData) : BlendData :=
  set_collections (alter (fun l => l ++ [socket]) "UE4Socket" (collections b)) b.

(** The world matrix the paste gives a socket (line 243 of the source). *)
Definition socket_matrix_world (active : Object.t) (pose_bone : PoseBone.t)
    (X Y Z Roll Pitch Yaw : float) : Matrix :=
  (Object.matrix_world active @ PoseBone.matrix pose_bone)
  @ (Translation (Vector.mk X Y Z)
     @ Euler_XYZ_to_matrix_4x4
         (Vector.mk (math.radians Roll) (math.radians Pitch)
                    (math.radians Yaw))).

(** The body of the second [for] loop for a record whose bone was found.
    The new object is the last of [bpy.data.objects]; every assignment is a
    step of its own, so an exception leaves the object as far as it got. *)
Definition create_socket (size : float) (i : nat) (active : Object.t)
    (pose_bone : PoseBone.t) (socket_object : SocketObject.t) (b : BlendData)
  : BlendData * Result unit :=
  let location := SocketObject.RelativeLocation socket_object in
  let rotation := SocketObject.RelativeRotation socket_object in
  let scale := SocketObject.RelativeScale socket_object in
  match
    X ← getitem location "X"; Y ← getitem location "Y";
    Z ← getitem location "Z"; Roll ← getitem rotation "Roll";
    Pitch ← getitem rotation "Pitch"; Yaw ← getitem rotation "Yaw";
    Ok (socket_matrix_world active pose_bone X Y Z Roll Pitch Yaw)
  with
  | Raise e => (b, Raise e)
  | Ok world =>
      let socket := length (objects b) in
      let b := set_objects
                 (objects b ++ [Object.new (SocketObject.SocketName socket_object)]) b in
      let b := assign socket (Object.set_is_socket true) b in
      let b := assign socket (Object.set_show_name true) b in
      let b := assign socket (Object.set_matrix_world world) b in
      match getitem scale "X" with
      | Raise e => (b, Raise e)
      | Ok sx =>
      let b := assign socket (Object.set_scale_x
                 (sx * (Vector.x (Object.scale active) / 0x1.47ae147ae147bp-7))%float) b in
      match getitem scale "Y" with
      | Raise e => (b, Raise e)
      | Ok sy =>
      let b := assign socket (Object.set_scale_y
                 (sy * (Vector.y (Object.scale active) / 0x1.47ae147ae147bp-7))%float) b in
      match getitem scale "Z" with
      | Raise e => (b, Raise e)
      | Ok sz =>
      let b := assign socket (Object.set_scale_z
                 (sz * (Vector.z (Object.scale active) / 0x1.47ae147ae147bp-7))%float) b in
      let b := assign socket (Object.set_empty_display_type "ARROWS") b in
      let b := assign socket (Object.set_empty_display_size size) b in
      let b := link socket b in
      let b := assign socket (Object.set_parent (Some i)) b in
      let b := assign socket (Object.set_parent_type "BONE") b in
      let b := assign socket (Object.set_parent_bone (PoseBone.name pose_bone)) b in
      match inverted_or_raise
              (Object.matrix_world active
               @ Translation (Vector.sub (PoseBone.tail pose_bone)
                                         (PoseBone.head pose_bone))
               @ PoseBone.matrix pose_bone) with
      | Raise e => (b, Raise e)
      | Ok inverse =>
          (assign socket (Object.set_matrix_parent_inverse inverse) b, Ok ())
      end end end end
  end.

(** The second [for] loop, counting in [num_socket_pasted]. *)
Fixpoint create_sockets (size : float) (context : Context)
    (socket_objects : list SocketObject.t) (num_socket_pasted : nat)
    (b : BlendData) : BlendData * Result nat :=
  match socket_objects with
  | [] => (b, Ok num_socket_pasted)
  | socket_object :: socket_objects' =>
      match active_object context, deref b (active_object context) with
      | Some i, Some active =>
          match Object.pose active with
          | None => (b, Raise AttributeError)
          | Some bones =>
              match bones_get bones (SocketObject.BoneName socket_object) with
              | None =>
                  create_sockets size context socket_objects'
                    num_socket_pasted b
              | Some pose_bone =>
                  match create_socket size i active pose_bone socket_object b
                  with
                  | (b', Raise e) => (b', Raise e)
                  | (b', Ok _) =>
                      create_sockets size context socket_objects'
                        (S num_socket_pasted) b'
                  end
              end
          end
      | _, _ => (b, Raise AttributeError)
      end
  end.

(** The message of the final [report]. *)
Definition paste_message (num_socket_pasted : nat) : string :=
  "Paste " +:+ PyStr.of_nat num_socket_pasted +:+ " socket success".

(** The condition of the [if] that guards the whole import. *)
Definition precheck (clipboard : string) : bool :=
  negb (String.eqb clipboard "")
  && PyStr.contains BEGIN_CLASS clipboard
  && PyStr.contains END_OBJECT clipboard.

(** [OP_PasteSocket.execute]: the scene it leaves and the message it
    reports, or the exception that ends it. *)
Definition OP_PasteSocket_execute (size : float) (b : BlendData)
    (context : Context) : BlendData * Result string :=
  if precheck (clipboard b) then
    let clipboard_list := PyStr.splitlines (clipboard b) in
    match parse_blocks clipboard_list (begin_indices 0 clipboard_list)
            (_temp_dict b) with
    | (temp, Raise e) => (set_temp_dict temp b, Raise e)
    | (temp, Ok socket_objects) =>
        let b := ensure_collection (set_temp_dict temp b) in
        match create_sockets size context socket_objects 0 b with
        | (b', Raise e) => (b', Raise e)
        | (b', Ok num_socket_pasted) =>
            (b', Ok (paste_message num_socket_pasted))
        end
    end
  else (b, Ok (paste_message 0)).
End Paste.

(** ** A concrete instance of the two interfaces, for worked examples

    [Plain.text] reads and prints plain decimal numerals: [float_of_string]
    accepts an optional sign, digits and an optional fraction of at most 15
    digits in all (where dividing the digits by a power of ten is correctly
    rounded, so it returns what CPython returns) and refuses everything
    else, also the exponent forms CPython accepts; [repr] prints the exact
    decimal value of a float, which is CPython's [repr] for the floats whose
    exact decimal value has at most 15 significant digits, such as the
    integral ones below 10^15.  [Plain.scaled_translations] are the
    transforms made of a uniform scale and a translation, with every rotation
    the identity; the ones of scale zero have no inverse.  The examples below
    stay inside these domains. *)
Module Plain.

Fixpoint digits (s : string) (acc : Z) (count : nat) : Z * nat * string :=
  match s with
  | String c s' =>
      match Ascii.is_nat c with
      | Some d => digits s' (10 * acc + Z.of_nat d)%Z (S count)
      | None => (acc, count, s)
      end
  | EmptyString => (acc, count, EmptyString)
  end.

Definition of_Z (m : Z) : float :=
  SF2Prim (binary_normalize prec emax m 0 false).

Definition unsigned (s : string) : option float :=
  let '(m1, n1, rest) := digits s 0%Z 0 in
  let '(m, n2, rest') :=
    match rest with
    | String "." r => digits r m1 0
    | _ => (m1, 0, rest)
    end in
  if String.eqb rest' "" && (0 <? n1 + n2) && (n1 + n2 <=? 15)
  then Some (of_Z m / of_Z (10 ^ Z.of_nat n2))%float
  else None.

Definition float_of_string (s : string) : option float :=
  match PyStr.strip s with
  | String "-" r => PrimFloat.opp <$> unsigned r
  | String "+" r => unsigned r
  | s' => unsigned s'
  end.

Fixpoint rstrip_zeros (ds : list ascii) : list ascii :=
  match ds with
  | [] => []
  | c :: ds' =>
      match rstrip_zeros ds' with
      | [] => if Ascii.eqb c "0" then [] else [c]
      | r => c :: r
      end
  end.

(** The [k] digits of [n], zero-padded on the left. *)
Fixpoint fraction_digits (k : nat) (n : Z) (acc : list ascii) : list ascii :=
  match k with
  | O => acc
  | S k' =>
      fraction_digits k' (n / 10)%Z
        (ascii_of_nat (48 + Z.to_nat (n mod 10)%Z) :: acc)
  end.

Definition exact_decimal (m : positive) (e : Z) : string :=
  if (0 <=? e)%Z then pretty (Z.pos m * 2 ^ e)%Z +:+ ".0"
  else
    let k := Z.to_nat (- e) in
    let n := (Z.pos m * 5 ^ Z.of_nat k)%Z in
    let p := (10 ^ Z.of_nat k)%Z in
    let frac := rstrip_zeros (fraction_digits k (n mod p)%Z []) in
    pretty (n / p)%Z +:+ "."
    +:+ match frac with
        | [] => "0"
        | _ => String.string_of_list_ascii frac
        end.

Definition repr (x : float) : string :=
  let sign (s : bool) := if s then "-" else "" in
  match Prim2SF x with
  | S754_zero s => sign s +:+ "0.0"
  | S754_infinity s => sign s +:+ "inf"
  | S754_nan => "nan"
  | S754_finite s m e => sign s +:+ exact_decimal m e
  end.

#[export] Instance text : PyFloatText :=
  {| py_float := float_of_string; py_repr := repr |}.

Definition add (a b : Vector.t) : Vector.t :=
  Vector.mk (Vector.x a + Vector.x b)%float (Vector.y a + Vector.y b)%float
            (Vector.z a + Vector.z b)%float.
Definition times (s : float) (a : Vector.t) : Vector.t :=
  Vector.mk (s * Vector.x a)%float (s * Vector.y a)%float
            (s * Vector.z a)%float.

(** The map that sends [v] to [s * v + t], as the pair [(t, s)]. *)
#[export] Instance scaled_translations : Mathutils :=
  {| Matrix := Vector.t * float;
     Quaternion := unit;
     Identity := (Vector.mk 0 0 0, 1%float);
     matmul := fun a b => (add (fst a) (times (snd a) (fst b)),
                           (snd a * snd b)%float);
     inverted := fun a =>
       if (snd a =? 0)%float then None
       else Some (times (-1 / snd a)%float (fst a), (1 / snd a)%float);
     decompose := fun a => (fst a, tt, Vector.mk (snd a) (snd a) (snd a));
     to_euler_XYZ := fun _ => Vector.mk 0 0 0;
     Translation := fun v => (v, 1%float);
     Euler_XYZ_to_matrix_4x4 := fun _ => (Vector.mk 0 0 0, 1%float) |}.

End Plain.

(** ** Notions the statements use *)

(** [sub] occurs in [s]. *)
Definition occurs_in (sub s : string) : Prop :=
  exists pre post, s = pre +:+ sub +:+ post.

(** The texts of a list, one after the other. *)
Definition join (texts : list string) : string :=
  foldr String.append "" texts.

(** [a] is met when walking up the parents of [t], in at most [fuel] steps. *)
Fixpoint has_ancestor `{Mathutils} (fuel : nat) (b : BlendData) (a t : nat)
  : bool :=
  match fuel with
  | O => false
  | S fuel' =>
      match deref b (Some t) ≫= Object.parent with
      | None => false
      | Some p => (p =? a) || has_ancestor fuel' b a p
      end
  end.

(** The block of one socket as the specification writes it (section 4.1),
    from the values of its nine numeric fields. *)
Definition engine_block `{PyFloatText} (index : nat) (name boneName : string)
    (x y z pitch yaw roll sx sy sz : float) : string :=
  "IsOnSkeleton=1" +:+ nl
  +:+ "Begin Object Class=/Script/Engine.SkeletalMeshSocket Name=" +:+ dq
      +:+ "SkeletalMeshSocket_" +:+ PyStr.of_nat index +:+ dq +:+ nl
  +:+ "SocketName=" +:+ dq +:+ name +:+ dq +:+ nl
  +:+ "BoneName=" +:+ dq +:+ boneName +:+ dq +:+ nl
  +:+ "RelativeLocation=(X=" +:+ py_repr x +:+ ",Y=" +:+ py_repr y
      +:+ ",Z=" +:+ py_repr z +:+ ")" +:+ nl
  +:+ "RelativeRotation=(Pitch=" +:+ py_repr pitch +:+ ",Yaw=" +:+ py_repr yaw
      +:+ ",Roll=" +:+ py_repr roll +:+ ")" +:+ nl
  +:+ "RelativeScale=(X=" +:+ py_repr sx +:+ ",Y=" +:+ py_repr sy
      +:+ ",Z=" +:+ py_repr sz +:+ ")" +:+ nl
  +:+ "End Object" +:+ nl +:+ nl.

(** The records of a list whose bone is not among [bones]. *)
Definition unresolved `{Mathutils} (bones : list PoseBone.t)
    (socket_objects : list SocketObject.t) : list SocketObject.t :=
  List.filter
    (fun so => negb (bool_decide
                       (is_Some (bones_get bones (SocketObject.BoneName so)))))
    socket_objects.

(** The pose bones of the active object, none when there is no armature. *)
Definition active_bones `{Mathutils} (b : BlendData) (context : Context)
  : list PoseBone.t :=
  default [] (deref b (active_object context) ≫= Object.pose).

(** The object a completed [create_socket] has appended. *)
Definition pasted_socket `{Mathutils} (size : float) (i : nat)
    (active : Object.t) (pose_bone : PoseBone.t) (name : string)
    (world inverse : Matrix) (sx sy sz : float) : Object.t :=
  Object.mk name "EMPTY" true true world
    (Vector.mk
       (sx * (Vector.x (Object.scale active) / 0x1.47ae147ae147bp-7))%float
       (sy * (Vector.y (Object.scale active) / 0x1.47ae147ae147bp-7))%float
       (sz * (Vector.z (Object.scale active) / 0x1.47ae147ae147bp-7))%float)
    "ARROWS" size (Some i) "BONE" (PoseBone.name pose_bone) inverse
    None None false.

(** What the loop adds for one socket: nothing when its bone is not found,
    and a block that carries the socket's position otherwise. *)
Definition block_or_nothing `{PyFloatText} `{Mathutils} (bones : list PoseBone.t) (k : nat)
    (socket_obj : Object.t) (t : string) : Prop :=
  match bones_get bones (Object.parent_bone socket_obj) with
  | None => t = ""
  | Some _ =>
      exists x y z pitch yaw roll sx sy sz,
        t = engine_block k (Object.name socket_obj)
              (Object.parent_bone socket_obj) x y z pitch yaw roll sx sy sz
  end.

(** What the copy operator's filter needs of an object that a paste made
    for the armature at position [i]. *)
Definition is_pasted_socket `{Mathutils} (i : nat) (bones : list PoseBone.t)
    (o : Object.t) : Prop :=
  Object.type o = "EMPTY"
  /\ Object.is_socket o = true
  /\ Object.parent o = Some i
  /\ Object.parent_type o = "BONE"
  /\ exists pb, pb ∈ bones /\ Object.parent_bone o = PoseBone.name pb.

(** ** Worked scenes, over the instance [Plain] *)

Module Scenes.
Import Plain.

Definition bone (n : string) : PoseBone.t :=
  PoseBone.mk n (Vector.mk 1 2 3, 1%float) (Vector.mk 0 0 0) (Vector.mk 0 1 0).

(** An armature at (10, 20, 30) with the bones [hand] and [head]. *)
Definition armature : Object.t :=
  Object.mk "Armature" "ARMATURE" false false (Vector.mk 10 20 30, 1%float)
    (Vector.mk 1 1 1) "PLAIN_AXES" 1%float None "OBJECT" "" Identity
    (Some [bone "hand"; bone "head"]) None false.

(** A socket of the armature (object 0) on the bone [b], of scale 100. *)
Definition socket (n b : string) : Object.t :=
  Object.mk n "EMPTY" true true (Vector.mk 12 24 36, 100%float)
    (Vector.mk 100 100 100) "ARROWS" 1%float (Some 0) "BONE" b Identity
    None None false.

Definition scene (clip : string) (objs : list Object.t) : BlendData :=
  mkBlendData objs ∅ [] clip temp_dict_initial.

Definition context : Context := mkContext (Some 0) "OBJECT".

(** An empty that is parented to [p] and is to be attached to [target]. *)
Definition empty (n : string) (p target : option nat) : Object.t :=
  Object.mk n "EMPTY" false false Identity (Vector.mk 1 1 1) "PLAIN_AXES"
    1%float p "OBJECT" "" Identity None target false.

(** Object 0 is to be attached to object 2, its grandchild. *)
Definition grandchild_scene : BlendData :=
  scene "" [empty "A" None (Some 2); empty "B" (Some 0) None;
            Object.set_is_socket true (empty "T" (Some 1) None)].

(** A line that opens the block of index [n]. *)
Definition begin_line (n : nat) : string :=
  BEGIN_NAMED +:+ PyStr.of_nat n +:+ dq.

Definition field (key value : string) : string :=
  key +:+ "=" +:+ dq +:+ value +:+ dq.
Definition compound (key value : string) : string :=
  key +:+ "=(" +:+ value +:+ ")".

Definition lines (ls : list string) : string :=
  join ((fun l => l +:+ nl) <$> ls).

(** A block that names its socket [A], on the bone [hand], of scale 2. *)
Definition block_A : list string :=
  [begin_line 0; field "SocketName" "A"; field "BoneName" "hand";
   compound "RelativeScale" "X=2.0,Y=2.0,Z=2.0"; "End Object"].

(** A block that gives the bone [head] and nothing else. *)
Definition block_B (n : nat) : list string :=
  [begin_line n; field "BoneName" "head"; "End Object"].

(** The armature with three sockets; the bone of the second is gone. *)
Definition three_sockets : BlendData :=
  scene "" [armature; socket "S1" "hand"; socket "S2" "gone";
            socket "S3" "head"].

(** The armature with one socket, whose bone is gone. *)
Definition stale : BlendData := scene "" [armature; socket "S2" "gone"].

(** A block on the bone [tail], which the armature does not have. *)
Definition block_C (n : nat) : list string :=
  [begin_line n; field "SocketName" "C"; field "BoneName" "tail"; "End Object"].

(** The armature and a clipboard of three blocks; the bone of the second is
    not a bone of the armature. *)
Definition three_blocks : BlendData :=
  scene (lines (block_A ++ block_C 1 ++ block_B 2)) [armature].

(** The armature and a clipboard of one block whose scale has no [X]. *)
Definition no_scale_x : BlendData :=
  scene (lines [begin_line 0; field "BoneName" "hand";
                compound "RelativeScale" "Y=1.0,Z=1.0"; "End Object"])
        [armature].

(** The operators over [Plain]. *)
Definition copy : BlendData -> Context -> BlendData * Result string :=
  OP_CopySocket_execute.
Definition paste : float -> BlendData -> Context -> BlendData * Result string :=
  OP_PasteSocket_execute.
End Scenes.

(** ** Matrices as terms

    An instance of [Mathutils] in which a matrix is the expression that
    built it, so that the matrix an operator assigns shows the products,
    translations and Euler angles it was made of.  Nothing is decomposed. *)
Module Symbolic.
Inductive matrix : Set :=
  | Id
  | Named (n : string)
  | Mul (a b : matrix)
  | Inv (a : matrix)
  | Trans (v : Vector.t)
  | Rot (euler : Vector.t).

#[export] Instance terms : Mathutils :=
  {| Matrix := matrix;
     Quaternion := matrix;
     Identity := Id;
     matmul := Mul;
     inverted := fun m => Some (Inv m);
     decompose := fun m => (Vector.mk 0 0 0, m, Vector.mk 1 1 1);
     to_euler_XYZ := fun _ => Vector.mk 0 0 0;
     Translation := Trans;
     Euler_XYZ_to_matrix_4x4 := Rot |}.

Definition hand : PoseBone.t :=
  PoseBone.mk "hand" (Named "hand") (Vector.mk 0 0 0) (Vector.mk 0 1 0).

Definition armature : Object.t :=
  Object.mk "Armature" "ARMATURE" false false (Named "Armature")
    (Vector.mk 1 1 1) "PLAIN_AXES" 1%float None "OBJECT" "" Id
    (Some [hand]) None false.

Definition scene (clip : string) : BlendData :=
  mkBlendData [armature] ∅ [] clip temp_dict_initial.

Definition paste : float -> BlendData -> Context -> BlendData * Result string :=
  OP_PasteSocket_execute (H := Plain.text).

(** The text of a socket on the bone [hand] turned by Roll 30, Pitch 45
    and Yaw 60 degrees. *)
Definition turned : string :=
  Scenes.lines
    [Scenes.begin_line 0; Scenes.field "SocketName" "Grip";
     Scenes.field "BoneName" "hand";
     Scenes.compound "RelativeRotation" "Pitch=45,Yaw=60,Roll=30";
     "End Object"].
(** The keywords of a block that only gives that rotation, and the record
    the builder makes of them from the initial [_temp_dict]. *)
Definition turned_dict : gmap string string :=
  {["RelativeRotation" := "Pitch=45,Yaw=60,Roll=30"]}.

Definition turned_record : SocketObject.t :=
  SocketObject.mk "Socket" "Bone"
    (<["X" := 0%float]> (<["Y" := (-0)%float]> (<["Z" := 0%float]> ∅)))
    (<["Pitch" := (-45)%float]>
       (<["Yaw" := (-60)%float]> (<["Roll" := 30%float]> ∅)))
    (<["X" := 1%float]> (<["Y" := 1%float]> (<["Z" := 1%float]> ∅))).
End Symbolic.

(** ** Notions for the outcomes of the operators *)

(** The dict [d] has every key of [keys]. *)
Definition has_keys {V} (keys : list string) (d : gmap string V) : bool :=
  forallb (fun key => bool_decide (is_Some (d !! key))) keys.

(** A record that holds every component the paste operator reads. *)
Definition complete (so : SocketObject.t) : bool :=
  has_keys ["X"; "Y"; "Z"] (SocketObject.RelativeLocation so)
  && has_keys ["Roll"; "Pitch"; "Yaw"] (SocketObject.RelativeRotation so)
  && has_keys ["X"; "Y"; "Z"] (SocketObject.RelativeScale so).

(** The matrix whose inverse the paste and create operators give a socket on
    the bone [pose_bone] as [matrix_parent_inverse]. *)
Definition bone_tail_matrix `{Mathutils} (active : Object.t)
    (pose_bone : PoseBone.t) : Matrix :=
  Object.matrix_world active
  @ Translation (Vector.sub (PoseBone.tail pose_bone) (PoseBone.head pose_bone))
  @ PoseBone.matrix pose_bone.

(** How the store of the embedding grows from [b] to [b'] under an operator
    that only adds sockets: the objects of [b] are the first objects of
    [b'], unchanged; the clipboard is the same; so is every collection but
    [UE4Socket], whose old members are its first members; and the children
    of the scene's collection are the old ones, followed by what has been
    linked. *)
Definition extends `{Mathutils} (b b' : BlendData) : Prop :=
  (exists created, objects b' = objects b ++ created)
  /\ clipboard b' = clipboard b
  /\ (forall name, name <> "UE4Socket" ->
        collections b' !! name = collections b !! name)
  /\ (forall members, collections b !! "UE4Socket" = Some members ->
        exists linked, collections b' !! "UE4Socket" = Some (members ++ linked))
  /\ (exists linked, scene_collection_children b'
                     = scene_collection_children b ++ linked).

(** The line closes a block, for the [while] loop of the paste operator. *)
Definition is_end (s : string) : bool :=
  PyStr.startswith (PyStr.strip s) END_OBJECT.

(** The line, stripped, has a [=]: it can be unpacked into a key and a
    value. *)
Definition has_equals (s : string) : bool :=
  PyStr.member (PyStr.strip s) "=".

(** A line the [while] loop reads and goes past. *)
Definition body_line (s : string) : bool := negb (is_end s) && has_equals s.

(** ** The availability checks of the socket operators *)

(** [OP_CreateSocket.poll] (and [PANEL.poll], which is the same
    expression) *)
Definition OP_CreateSocket_poll `{Mathutils} (b : BlendData)
    (context : Context) : bool :=
  match deref b (active_object context) with
  | None => false
  | Some active =>
      String.eqb (Object.type active) "ARMATURE"
      || String.eqb (Object.type active) "MESH"
  end.

(** [OP_CopySocket.poll] *)
Definition OP_CopySocket_poll `{Mathutils} (b : BlendData)
    (context : Context) : bool :=
  String.eqb (mode context) "OBJECT"
  && match deref b (active_object context) with
     | None => false
     | Some active => String.eqb (Object.type active) "ARMATURE"
     end.

(** [OP_PasteSocket.poll] *)
Definition OP_PasteSocket_poll `{Mathutils} (b : BlendData)
    (context : Context) : bool :=
  String.eqb (mode context) "OBJECT"
  && match deref b (active_object context) with
     | None => false
     | Some active => String.eqb (Object.type active) "ARMATURE"
     end.

(** What the host sees to: an object of type [ARMATURE] has a pose. *)
Definition armatures_posed `{Mathutils} (b : BlendData) : Prop :=
  forall o, o ∈ objects b -> Object.type o = "ARMATURE" ->
            is_Some (Object.pose o).

(** ** The attach operator *)

(** The filter [register] gives the pointer property [attach_to] (its
    [poll]): whether the host offers [obj] as a target while [context] is
    the current context. *)
Definition attach_to_poll `{Mathutils} (context : Context) (obj : Object.t)
  : bool :=
  String.eqb (Object.type obj) "EMPTY"
  && Object.is_socket obj
  && negb (bool_decide (Object.parent obj = active_object context)).

(** A constraint of an object, as far as the operator sets it. *)
Module Constraint.
Record t : Set := mk {
  name : string;
  type : string;
  target : option nat }.
End Constraint.

(** The constraints of the objects, by the object's position; an object
    that is not listed has none. *)
Definition stack_of (cs : gmap nat (list Constraint.t)) (i : nat)
  : list Constraint.t :=
  default [] (cs !! i).

(** The name the host gives a constraint that is assigned the name [n],
    from the names of the other constraints of the object: the host keeps
    the names of one object's constraints apart and may change [n] to do
    so. *)
Class ConstraintNames := { unique_name : list string -> string -> string }.

(** The routines of the snap: [Matrix.to_scale], [to_matrix().to_4x4()] of
    a quaternion, and [create_matrix_scale_from_vector] of [utils.base]. *)
Class MathutilsSnap `{Mathutils} := {
  to_scale : Matrix -> Vector.t;
  Quaternion_to_matrix_4x4 : Quaternion -> Matrix;
  create_matrix_scale_from_vector : Vector.t -> Matrix }.

Definition set_is_attach_to_object `{Mathutils} (v : bool) (o : Object.t)
  : Object.t :=
  let 'Object.mk a b c d e f g h i j k l m n _ := o in
  Object.mk a b c d e f g h i j k l m n v.

(** [constraints.get(n)]: the position of the first constraint of that
    name. *)
Fixpoint constraints_get (n : string) (stack : list Constraint.t)
  : option nat :=
  match stack with
  | [] => None
  | c :: stack' =>
      if String.eqb (Constraint.name c) n then Some 0
      else S <$> constraints_get n stack'
  end.

Section Attach.
Context `{MathutilsSnap} `{ConstraintNames}.

(** The matrix of the snap (line 35 of the source). *)
Definition snapped (active target : Object.t) : Matrix :=
  let '(socket_world_location, socket_world_rotation, _) :=
    decompose (Object.matrix_world target) in
  Translation socket_world_location
  @ Quaternion_to_matrix_4x4 socket_world_rotation
  @ create_matrix_scale_from_vector (to_scale (Object.matrix_world active)).

(** [OP_AttachObject.execute] with the operator's property [snap]: the
    scene and the constraints it leaves, and the message it reports or the
    exception that ends it.  The new constraint is the last of the active
    object's constraints. *)
Definition OP_AttachObject_execute (snap : bool) (b : BlendData)
    (cs : gmap nat (list Constraint.t)) (context : Context)
  : BlendData * gmap nat (list Constraint.t) * Result string :=
  match active_object context, deref b (active_object context) with
  | Some i, Some active_object =>
      let is_attach_to_object := Object.is_attach_to_object active_object in
      let b :=
        assign i (set_is_attach_to_object (negb is_attach_to_object)) b in
      if negb is_attach_to_object then
        let stack := stack_of cs i in
        let constraint :=
          Constraint.mk (unique_name (Constraint.name <$> stack) "attach_to")
            "CHILD_OF" (Object.attach_to active_object) in
        let cs := <[i := stack ++ [constraint]]> cs in
        if snap then
          match deref b (Object.attach_to active_object) with
          | None => (b, cs, Raise AttributeError)
          | Some target =>
              (assign i
                 (Object.set_matrix_world (snapped active_object target)) b,
               cs, Ok "Attach Object Success")
          end
        else (b, cs, Ok "Attach Object Success")
      else
        match constraints_get "attach_to" (stack_of cs i) with
        | Some k =>
            (b, <[i := delete k (stack_of cs i)]> cs,
             Ok "Detach Object Success")
        | None => (b, cs, Ok "Detach Object Success")
        end
  | _, _ => (b, cs, Raise AttributeError)
  end.
End Attach.

(** ** The operator that creates a socket *)

(** The location and rotation of an object, which the host keeps beside
    its matrices. *)
Module Local.
Record t : Set := mk {
  location : Vector.t;
  rotation_euler : Vector.t }.
Definition set_location (v : Vector.t) (l : t) : t := mk v (rotation_euler l).
Definition set_rotation_euler (v : Vector.t) (l : t) : t := mk (location l) v.
End Local.

(** The context of the create operator: besides the active object and the
    mode, the active bone of the edit mode, the active bone of the pose
    mode, and the location of the scene's cursor.  Of either kind of bone
    the operator reads the name, the matrix, the head and the tail. *)
Record BoneContext `{Mathutils} : Type := mkBoneContext {
  base : Context;
  active_bone : option PoseBone.t;
  active_pose_bone : option PoseBone.t;
  cursor_location : Vector.t }.
Arguments mkBoneContext {_} _ _ _ _.

Section Create.
Context `{Mathutils}.

(** The bone the socket is to hang on (lines 75 to 82): none unless the
    active object is an armature in pose or edit mode. *)
Definition socket_bone (active : Object.t) (context : BoneContext)
  : option PoseBone.t :=
  let is_armature :=
    String.eqb (Object.type active) "ARMATURE"
    && (String.eqb (mode (base context)) "POSE"
        || String.eqb (mode (base context)) "EDIT_ARMATURE") in
  if is_armature then
    if String.eqb (mode (base context)) "EDIT_ARMATURE"
    then active_bone context
    else if String.eqb (mode (base context)) "POSE"
         then active_pose_bone context
         else None
  else None.

(** [OP_CreateSocket.execute] with the operator's properties [socket_name],
    [size] and [rotation].  As in the paste operator, the new object is the
    last of [bpy.data.objects] and every assignment is a step of its own. *)
Definition OP_CreateSocket_execute (socket_name : string) (size : float)
    (rotation : Vector.t) (b : BlendData) (locals : gmap nat Local.t)
    (context : BoneContext) : BlendData * gmap nat Local.t * Result unit :=
  match active_object (base context),
        deref b (active_object (base context)) with
  | Some i, Some active =>
      let bone := socket_bone active context in
      let b := ensure_collection b in
      let socket := length (objects b) in
      let b := set_objects (objects b ++ [Object.new socket_name]) b in
      let locals :=
        <[socket := Local.mk (Vector.mk 0 0 0) (Vector.mk 0 0 0)]> locals in
      let b := assign socket (Object.set_is_socket true) b in
      let locals := alter (Local.set_rotation_euler rotation) socket locals in
      let locals :=
        alter (Local.set_location (cursor_location context)) socket locals in
      let b := assign socket (Object.set_show_name true) b in
      let b := assign socket (Object.set_empty_display_type "ARROWS") b in
      let b := assign socket (Object.set_empty_display_size size) b in
      let b := link socket b in
      let b := assign socket (Object.set_parent (Some i)) b in
      match bone with
      | Some bone =>
          let b := assign socket (Object.set_parent_type "BONE") b in
          let b :=
            assign socket (Object.set_parent_bone (PoseBone.name bone)) b in
          match inverted_or_raise (bone_tail_matrix active bone) with
          | Raise e => (b, locals, Raise e)
          | Ok inverse =>
              (assign socket (Object.set_matrix_parent_inverse inverse) b,
               locals, Ok ())
          end
      | None =>
          let b := assign socket (Object.set_parent_type "OBJECT") b in
          match inverted_or_raise (Object.matrix_world active) with
          | Raise e => (b, locals, Raise e)
          | Ok inverse =>
              (assign socket (Object.set_matrix_parent_inverse inverse) b,
               locals, Ok ())
          end
      end
  | _, _ => (b, locals, Raise AttributeError)
  end.

(** The object a completed create operator has appended. *)
Definition created_socket (socket_name : string) (size : float) (i : nat)
    (parent_type parent_bone : string) (inverse : Matrix) : Object.t :=
  Object.mk socket_name "EMPTY" true true Identity (Vector.mk 1 1 1)
    "ARROWS" size (Some i) parent_type parent_bone inverse None None false.
End Create.

(** ** The class's [_temp_dict] over the blocks of a paste *)

(** [_temp_dict] after the keywords of the blocks [dicts] have been merged
    into it by [update], the first block first. *)
Definition merged (dicts : list (gmap string string))
    (temp : gmap string string) : gmap string string :=
  foldl (fun t d => d ∪ t) temp dicts.

(** ** Worked scenes for the attach and create operators, over [Plain] *)

Module Workshop.
Import Plain.

(** The snap over [scaled_translations]: a transform has one scale along
    every axis and no rotation. *)
#[export] Instance snap : MathutilsSnap :=
  {| to_scale := fun a => Vector.mk (snd a) (snd a) (snd a);
     Quaternion_to_matrix_4x4 := fun _ => Identity;
     create_matrix_scale_from_vector :=
       fun v => (Vector.mk 0 0 0, Vector.x v) |}.

(** A host that tells a second constraint of one name apart by a suffix. *)
#[export] Instance suffixed : ConstraintNames :=
  {| unique_name := fun names n =>
       if existsb (String.eqb n) names then n +:+ ".001" else n |}.

(** A cube of scale 2 that is to be attached to object 1. *)
Definition cube : Object.t :=
  Object.mk "Cube" "MESH" false false (Vector.mk 1 1 1, 2%float)
    (Vector.mk 2 2 2) "PLAIN_AXES" 1%float None "OBJECT" "" Identity
    None (Some 1) false.

(** The armature, its socket [Grip] on the bone [hand], and the cube. *)
Definition attach_scene : BlendData :=
  Scenes.scene "" [Scenes.armature; Scenes.socket "Grip" "hand"; cube].

(** The cube is active. *)
Definition attach_context : Context := mkContext (Some 2) "OBJECT".

(** The cube has one constraint so far. *)
Definition stacks : gmap nat (list Constraint.t) :=
  {[2 := [Constraint.mk "Limit" "LIMIT_LOCATION" None]]}.

Definition attach
  : bool -> BlendData -> gmap nat (list Constraint.t) -> Context
    -> BlendData * gmap nat (list Constraint.t) * Result string :=
  OP_AttachObject_execute.

(** The armature alone; in pose mode with the bone [hand] active, and in
    object mode. *)
Definition lone_armature : BlendData := Scenes.scene "" [Scenes.armature].

Definition pose_context : BoneContext :=
  mkBoneContext (mkContext (Some 0) "POSE") None (Some (Scenes.bone "hand"))
    (Vector.mk 1 2 3).

Definition object_context : BoneContext :=
  mkBoneContext Scenes.context None None (Vector.mk 1 2 3).

(** A mesh squeezed to scale zero: its world matrix has no inverse. *)
Definition flat : Object.t :=
  Object.mk "Flat" "MESH" false false (Vector.mk 0 0 0, 0%float)
    (Vector.mk 0 0 0) "PLAIN_AXES" 1%float None "OBJECT" "" Identity
    None None false.

Definition flat_scene : BlendData := Scenes.scene "" [flat].

Definition create : string -> float -> Vector.t -> BlendData
                    -> gmap nat Local.t -> BoneContext
                    -> BlendData * gmap nat Local.t * Result unit :=
  OP_CreateSocket_execute.

(** What the paste operator parses of the clipboard of [three_blocks]. *)
Definition three_parsed : gmap string string * Result (list SocketObject.t) :=
  let clipboard_list := PyStr.splitlines (clipboard Scenes.three_blocks) in
  parse_blocks clipboard_list (begin_indices 0 clipboard_list)
    (_temp_dict Scenes.three_blocks).

Definition three_records : list SocketObject.t :=
  match snd three_parsed with
  | Ok socket_objects => socket_objects
  | Raise _ => []
  end.
End Workshop.

(** ** Notions for a copy followed by a paste *)

(** Every character of the text passes [p]. *)
Fixpoint all_chars (p : ascii -> bool) (s : string) : bool :=
  match s with
  | EmptyString => true
  | String c s' => p c && all_chars p s'
  end.

(** A text that [splitlines] leaves in one piece. *)
Definition one_line (s : string) : bool :=
  all_chars (fun c => negb (PyStr.is_linebreak c)) s.

(** A text without white space, comma or parenthesis: what the parser
    needs of a printed number to find it again. *)
Definition numeral (s : string) : bool :=
  all_chars (fun c => negb (PyStr.isspace c) && negb (PyStr.member ",()" c)) s.

(** What the paste operator keeps of the text after the [=] of a line: the
    text stripped of double quotes, then of parentheses. *)
Definition unquoted (value : string) : string :=
  PyStr.strip_chars "()" (PyStr.strip_chars dq value).

(** The lines of a text, each closed by a line feed. *)
Definition unlines (ls : list string) : string :=
  join ((fun l => l +:+ nl) <$> ls).

(** The shapes of the lines of a block: a quoted value, a value in
    parentheses, and the three components of such a value. *)
Definition quoted_line (key value : string) : string :=
  key +:+ String "=" (String "034" (value +:+ String "034" "")).

Definition compound_line (key body : string) : string :=
  key +:+ String "=" (String "(" (body +:+ String ")" "")).

Definition triple (k1 v1 k2 v2 k3 v3 : string) : string :=
  (k1 +:+ String "=" v1)
  +:+ String "," ((k2 +:+ String "=" v2) +:+ String "," (k3 +:+ String "=" v3)).

Section RoundTrip.
Context `{PyFloatText} `{Mathutils}.

(** [float] recovers the number from the text [format] gave it, and the
    text is a numeral. *)
Definition reads_back (x : float) : Prop :=
  numeral (py_repr x) = true /\ py_float (py_repr x) = Some x.

Definition reads_back_all (v : Vector.t) : Prop :=
  reads_back (Vector.x v) /\ reads_back (Vector.y v) /\ reads_back (Vector.z v).

(** The three dicts the copy operator passes to [format] for the socket
    [socket_obj] on the bone [pose_bone]; none when the matrix has no
    inverse. *)
Definition exported_fields (active : Object.t) (pose_bone : PoseBone.t)
    (socket_obj : Object.t) : option (Vector.t * Vector.t * Vector.t) :=
  inverse ← inverted (Object.matrix_world active @ PoseBone.matrix pose_bone);
  let '(socket_point_location, socket_point_rotation_quaternion,
        socket_point_scale) :=
    decompose (inverse @ Object.matrix_world socket_obj) in
  Some (export_location socket_point_location,
        export_rotation (to_euler_XYZ socket_point_rotation_quaternion),
        export_scale socket_point_scale).

(** The sockets of a list whose bone is found, each with the bone and the
    fields the copy operator prints for it. *)
Definition exported (active : Object.t) (bones : list PoseBone.t)
    (sockets : list Object.t)
  : list (Object.t * PoseBone.t * (Vector.t * Vector.t * Vector.t)) :=
  omap (fun socket_obj =>
          pose_bone ← bones_get bones (Object.parent_bone socket_obj);
          fields ← exported_fields active pose_bone socket_obj;
          Some (socket_obj, pose_bone, fields))
       sockets.

(** The object the paste operator makes of the block the copy operator
    printed for a socket. *)
Definition pasted_back (size : float) (i : nat) (active : Object.t)
    (e : Object.t * PoseBone.t * (Vector.t * Vector.t * Vector.t))
  : Object.t :=
  let '(socket_obj, pose_bone, (location, rotation, scale)) := e in
  pasted_socket size i active pose_bone (unquoted (Object.name socket_obj))
    (socket_matrix_world active pose_bone
       (Vector.x location) (Vector.y location * -1)%float (Vector.z location)
       (Vector.x rotation) (Vector.y rotation * -1)%float
       (Vector.z rotation * -1)%float)
    (default Identity (inverted (bone_tail_matrix active pose_bone)))
    (Vector.x scale) (Vector.y scale) (Vector.z scale).

(** What a copy followed by a paste asks of a selected socket: its name and
    its bone's name stay on one line; and when the bone is found, the
    bone's name is kept by [unquoted], the two matrices have inverses, and
    the nine printed numbers read back. *)
Definition round_trips (active : Object.t) (bones : list PoseBone.t)
    (socket_obj : Object.t) : Prop :=
  one_line (Object.name socket_obj) = true
  /\ forall pose_bone,
      bones_get bones (Object.parent_bone socket_obj) = Some pose_bone ->
      one_line (Object.parent_bone socket_obj) = true
      /\ unquoted (Object.parent_bone socket_obj)
         = Object.parent_bone socket_obj
      /\ is_Some (inverted (bone_tail_matrix active pose_bone))
      /\ exists location rotation scale,
          exported_fields active pose_bone socket_obj
          = Some (location, rotation, scale)
          /\ reads_back_all location /\ reads_back_all rotation
          /\ reads_back_all scale.

(** The lines of the header and of one block of the copy operator. *)
Definition header_lines (n : nat) : list string :=
  ["SocketCopyPasteBuffer"; ""; "NumSockets=" +:+ PyStr.of_nat n; ""].

Definition block_lines (index : nat) (socket_name bone_name : string)
    (location rotation scale : Vector.t) : list string :=
  ["IsOnSkeleton=1";
   BEGIN_NAMED +:+ (PyStr.of_nat index +:+ String "034" "");
   quoted_line "SocketName" socket_name;
   quoted_line "BoneName" bone_name;
   compound_line "RelativeLocation"
     (triple "X" (py_repr (Vector.x location))
             "Y" (py_repr (Vector.y location))
             "Z" (py_repr (Vector.z location)));
   compound_line "RelativeRotation"
     (triple "Pitch" (py_repr (Vector.y rotation))
             "Yaw" (py_repr (Vector.z rotation))
             "Roll" (py_repr (Vector.x rotation)));
   compound_line "RelativeScale"
     (triple "X" (py_repr (Vector.x scale))
             "Y" (py_repr (Vector.y scale))
             "Z" (py_repr (Vector.z scale)));
   "End Object";
   ""].

(** The keywords the parser reads off such a block. *)
Definition block_dict (socket_name bone_name : string)
    (location rotation scale : Vector.t) : gmap string string :=
  <["RelativeScale" :=
      triple "X" (py_repr (Vector.x scale)) "Y" (py_repr (Vector.y scale))
             "Z" (py_repr (Vector.z scale))]>
    (<["RelativeRotation" :=
         triple "Pitch" (py_repr (Vector.y rotation))
                "Yaw" (py_repr (Vector.z rotation))
                "Roll" (py_repr (Vector.x rotation))]>
       (<["RelativeLocation" :=
            triple "X" (py_repr (Vector.x location))
                   "Y" (py_repr (Vector.y location))
                   "Z" (py_repr (Vector.z location))]>
          (<["BoneName" := unquoted bone_name]>
             (<["SocketName" := unquoted socket_name]> ∅)))).

(** The record the parser makes of such a block. *)
Definition block_record (socket_name bone_name : string)
    (location rotation scale : Vector.t) : SocketObject.t :=
  SocketObject.mk (unquoted socket_name) (unquoted bone_name)
    (<["Y" := (Vector.y location * -1)%float]>
       (<["Z" := Vector.z location]>
          (<["Y" := Vector.y location]> (<["X" := Vector.x location]> ∅))))
    (<["Yaw" := (Vector.z rotation * -1)%float]>
       (<["Pitch" := (Vector.y rotation * -1)%float]>
          (<["Roll" := Vector.x rotation]>
             (<["Yaw" := Vector.z rotation]>
                (<["Pitch" := Vector.y rotation]> ∅)))))
    (<["Z" := Vector.z scale]>
       (<["Y" := Vector.y scale]> (<["X" := Vector.x scale]> ∅))).

(** What the copy operator prints for a socket: the index of the block, the
    two names and the three dicts. *)
Definition printed_block : Type :=
  nat * string * string * (Vector.t * Vector.t * Vector.t).

Definition lines_of (p : printed_block) : list string :=
  let '(index, socket_name, bone_name, (location, rotation, scale)) := p in
  block_lines index socket_name bone_name location rotation scale.

Definition record_of (p : printed_block) : SocketObject.t :=
  let '(_, socket_name, bone_name, (location, rotation, scale)) := p in
  block_record socket_name bone_name location rotation scale.

Definition dict_of (p : printed_block) : gmap string string :=
  let '(_, socket_name, bone_name, (location, rotation, scale)) := p in
  block_dict socket_name bone_name location rotation scale.

(** The names stay on one line and the numbers read back. *)
Definition printable (p : printed_block) : Prop :=
  let '(_, socket_name, bone_name, (location, rotation, scale)) := p in
  one_line socket_name = true /\ one_line bone_name = true
  /\ reads_back_all location /\ reads_back_all rotation
  /\ reads_back_all scale.

(** The blocks the copy operator prints for the sockets of a list, the
    first of which has the position [index]. *)
Fixpoint printed (active : Object.t) (bones : list PoseBone.t) (index : nat)
    (sockets : list Object.t) : list printed_block :=
  match sockets with
  | [] => []
  | socket_obj :: sockets' =>
      match bones_get bones (Object.parent_bone socket_obj)
            ≫= fun pose_bone => exported_fields active pose_bone socket_obj
      with
      | Some fields =>
          [(index, Object.name socket_obj, Object.parent_bone socket_obj,
            fields)]
      | None => []
      end
      ++ printed active bones (S index) sockets'
  end.
End RoundTrip.

(** ** What an operator that adds sockets leaves of the scene *)

(** The scene [b'] has the objects of [b], unchanged, and some more; the
    same clipboard; the same collections but for [UE4Socket], which has kept
    its members; and the children of the scene's collection that [b] had.
    Nothing is said of the order in which the host lists objects, members
    or children. *)
Definition only_adds `{Mathutils} (b b' : BlendData) : Prop :=
  (exists created, objects b' ≡ₚ objects b ++ created)
  /\ clipboard b' = clipboard b
  /\ (forall name, name <> "UE4Socket" ->
        collections b' !! name = collections b !! name)
  /\ (forall members, collections b !! "UE4Socket" = Some members ->
        exists members', collections b' !! "UE4Socket" = Some members'
                         /\ members ⊆ members')
  /\ scene_collection_children b ⊆ scene_collection_children b'.

(** The object [o] is a socket of the armature at [i] and hangs on the bone
    that [socket_obj] hangs on. *)
Definition hangs_like `{Mathutils} (i : nat) (socket_obj o : Object.t)
  : Prop :=
  Object.type o = "EMPTY"
  /\ Object.is_socket o = true
  /\ Object.parent o = Some i
  /\ Object.parent_type o = "BONE"
  /\ Object.parent_bone o = Object.parent_bone socket_obj.

(** ** The blocks of a clipboard text *)

(** The line opens a socket block, for the list comprehension of the paste
    operator. *)
Definition is_begin (s : string) : bool :=
  PyStr.startswith (PyStr.strip s) BEGIN_NAMED.

(** No line of the list opens a block. *)
Definition opens_none (ls : list string) : bool :=
  forallb (fun s => negb (is_begin s)) ls.

(** A block as the text has it: the line that opens it, the lines of its
    body, and the line that closes it. *)
Module TextBlock.
Record t : Set := mk {
  opening : string;
  body : list string;
  closing : string }.

Definition lines (B : t) : list string := opening B :: body B ++ [closing B].

(** The block is well formed: its first line opens a block, its last line
    closes one, and every line between the two has a [=] and neither closes
    nor opens a block. *)
Definition valid (B : t) : bool :=
  is_begin (opening B)
  && forallb (fun s => body_line s && negb (is_begin s)) (body B)
  && is_end (closing B).
End TextBlock.

(** What the [while] loop of the paste operator makes of one line of a
    body: the text before the first [=] of the stripped line is the key, and
    the text after it, without quotes and parentheses at its ends, is the
    value. *)
Definition add_keyword (socket_dict : gmap string string) (s : string)
  : gmap string string :=
  match PyStr.split1 "=" (PyStr.strip s) with
  | [key; value] => <[key := unquoted value]> socket_dict
  | _ => socket_dict
  end.

(** The keywords a block gives by its own lines, a later line overriding an
    earlier one of the same key. *)
Definition block_keywords (B : TextBlock.t) : gmap string string :=
  foldl add_keyword ∅ (TextBlock.body B).

(** The bone name the block carries, if it has a line for [BoneName]. *)
Definition bone_name (B : TextBlock.t) : option string :=
  block_keywords B !! "BoneName".

(** The lines of a clipboard made of blocks, each followed by lines that
    belong to no block. *)
Fixpoint laid_out (blocks : list (TextBlock.t * list string)) : list string :=
  match blocks with
  | [] => []
  | (B, gap) :: blocks' => TextBlock.lines B ++ gap ++ laid_out blocks'
  end.

(** The clipboard [gap ++ laid_out blocks] is made of well-formed blocks,
    and no line outside the blocks opens one. *)
Definition well_formed (gap : list string)
    (blocks : list (TextBlock.t * list string)) : bool :=
  opens_none gap
  && forallb (fun Bg => TextBlock.valid (fst Bg) && opens_none (snd Bg)) blocks.

(** The block carries a bone name that is the name of no bone of [bones]. *)
Definition names_no_bone `{Mathutils} (bones : list PoseBone.t)
    (B : TextBlock.t) : bool :=
  match bone_name B with
  | Some n => negb (bool_decide (is_Some (bones_get bones n)))
  | None => false
  end.

(** Worked clipboards, over [Plain]: the three blocks of
    [Scenes.three_blocks] as blocks of the text, and the lines of a block
    that names its socket and no bone. *)
Module Clips.
Definition block (ls : list string) : TextBlock.t :=
  TextBlock.mk (List.hd "" ls) (List.removelast (List.tl ls)) (List.last ls "").

Definition three : list (TextBlock.t * list string) :=
  [(block Scenes.block_A, []); (block (Scenes.block_C 1), []);
   (block (Scenes.block_B 2), [])].

Definition no_bone (n : nat) : list string :=
  [Scenes.begin_line n; Scenes.field "SocketName" "S"; "End Object"].

(** The number of objects a paste of the lines [clip] adds to the armature
    alone, and how the paste ends. *)
Definition pasted (clip : list string) : nat * Result string :=
  let r := Scenes.paste 0.5
             (Scenes.scene (Scenes.lines clip) [Scenes.armature])
             Scenes.context in
  (length (objects (fst r)) - 1, snd r).
End Clips.

(** * Properties *)

(** ** Strings *)

Lemma append_cons (c : ascii) (s t : string) :
  String c s +:+ t = String c (s +:+ t).
Proof. reflexivity. Qed.

Lemma append_nil_r (s : string) : s +:+ "" = s.
Proof. induction s as [|c s IH]; [done|]. by rewrite append_cons, IH. Qed.

Lemma append_assoc (s t u : string) : (s +:+ t) +:+ u = s +:+ t +:+ u.
Proof. induction s as [|c s IH]; [done|]. by rewrite !append_cons, IH. Qed.

Lemma prefix_spec (p s : string) :
  String.prefix p s = true <-> exists post, s = p +:+ post.
Proof.
  revert s. induction p as [|c p IH]; intros s.
  - split; [intros _; by exists s | intros _; by destruct s].
  - destruct s as [|c' s]; cbn.
    + split; [done | intros [post Hpost]; discriminate].
    + destruct (ascii_dec c c') as [->|Hne].
      * rewrite IH. split; intros [post Hpost]; exists post.
        -- by rewrite append_cons, Hpost.
        -- rewrite append_cons in Hpost. by injection Hpost.
      * split; [done | intros [post Hpost]].
        rewrite append_cons in Hpost. congruence.
Qed.

Lemma contains_spec (sub s : string) :
  PyStr.contains sub s = true <-> occurs_in sub s.
Proof.
  induction s as [|c s IH]; cbn -[String.prefix].
  - rewrite orb_false_r, prefix_spec. split.
    + intros [post Hpost]. by exists "", post.
    + intros ([|c pre] & post & Hs); [|discriminate]. by exists post.
  - rewrite orb_true_iff, prefix_spec, IH. split.
    + intros [[post Hpost] | (pre & post & Hs)].
      * by exists "", post.
      * exists (String c pre), post. by rewrite append_cons, Hs.
    + intros ([|c' pre] & post & Hs).
      * left. by exists post.
      * right. rewrite append_cons in Hs. injection Hs as _ Hs.
        by exists pre, post.
Qed.

Example splitlines_ex :
  PyStr.splitlines ("a" +:+ String "013" (String "010" "") +:+ String "010" "b"
                    +:+ String "010" "")
  = ["a"; ""; "b"].
Proof. reflexivity. Qed.

Example split1_ex : PyStr.split1 "=" "Name=x=y" = ["Name"; "x=y"].
Proof. reflexivity. Qed.

Example strip_ex :
  PyStr.strip_chars "()" (PyStr.strip_chars dq (dq +:+ "(x)" +:+ dq)) = "x"
  /\ PyStr.strip_chars "()" (PyStr.strip_chars dq ("(" +:+ dq +:+ "x" +:+ dq +:+ ")"))
     = dq +:+ "x" +:+ dq.
Proof. split; reflexivity. Qed.

Example radians_30 : math.radians 30 = 0x1.0c152382d7365p-1%float.
Proof. reflexivity. Qed.

Example plain_float_ex :
  Plain.float_of_string " -12.50 " = Some (-12.5)%float
  /\ Plain.float_of_string "0.01" = Some 0x1.47ae147ae147bp-7%float
  /\ Plain.float_of_string "1e5" = None
  /\ Plain.float_of_string "" = None.
Proof. vm_compute. auto. Qed.

Example plain_repr_ex :
  Plain.repr 1 = "1.0" /\ Plain.repr (-0) = "-0.0"
  /\ Plain.repr (-12.5) = "-12.5" /\ Plain.repr 0.015625 = "0.015625"
  /\ Plain.repr 120 = "120.0".
Proof. vm_compute. auto. Qed.

(** ** The attach availability check *)

(** C9 (as amended).  The availability check of the attach operator passes
    exactly when there is an active object, that object designates a target,
    and the target's own parent is not the active object.  So a missing
    active object, a missing target and a target that is a direct child of
    the active object are all rejected by the check; it looks no further up
    the target's parents. *)
Theorem attach_poll_iff `{Mathutils} (b : BlendData) (context : Context) :
  OP_AttachObject_poll b context = true
  <-> exists a active target,
      active_object context = Some a
      /\ objects b !! a = Some active
      /\ Object.attach_to active = Some target
      /\ objects b !! target ≫= Object.parent <> Some a.
Proof.
  unfold OP_AttachObject_poll, deref. destruct context as [[a|] m]; cbn.
  - destruct (objects b !! a) as [active|] eqn:Ha; cbn.
    + destruct (Object.attach_to active) as [target|] eqn:Ht.
      * rewrite negb_true_iff, bool_decide_eq_false. split.
        -- intros Hp. by exists a, active, target.
        -- intros (a' & active' & target' & [= <-] & Ha' & Ht' & Hp).
           rewrite Ha in Ha'. injection Ha' as <-.
           rewrite Ht in Ht'. by injection Ht' as <-.
      * split; [done|].
        intros (a' & active' & target' & [= <-] & Ha' & Ht' & _).
        congruence.
    + split; [done|]. intros (a' & ? & ? & [= <-] & Ha' & _). congruence.
  - split; [done|]. by intros (? & ? & ? & ? & _).
Qed.

(** C9, the claim as stated fails: object 0 is active and is to be attached
    to object 2, a child of its child 1.  The target lies in the active
    object's descendants, and the check passes. *)
Lemma attach_poll_grandchild :
  OP_AttachObject_poll Scenes.grandchild_scene Scenes.context = true
  /\ has_ancestor 3 Scenes.grandchild_scene 0 2 = true.
Proof. split; reflexivity. Qed.

(** ** The paste operator: what guards it and how it fails *)

Lemma precheck_spec `{PyFloatText} `{Mathutils} (clip : string) :
  precheck clip = true ->
  occurs_in BEGIN_CLASS clip /\ occurs_in END_OBJECT clip.
Proof.
  unfold precheck. rewrite !andb_true_iff, !contains_spec. tauto.
Qed.

(** C7.  When the clipboard does not contain both
    [Begin Object Class=/Script/Engine.SkeletalMeshSocket] and [End Object],
    the paste operator changes nothing in the scene (no object, no
    collection, no record) and ends normally, reporting zero sockets. *)
Theorem paste_precheck_noop `{PyFloatText} `{Mathutils}
    (size : float) (b : BlendData) (context : Context) :
  ~ (occurs_in BEGIN_CLASS (clipboard b)
     /\ occurs_in END_OBJECT (clipboard b)) ->
  OP_PasteSocket_execute size b context = (b, Ok "Paste 0 socket success").
Proof.
  intros Hnot. unfold OP_PasteSocket_execute.
  destruct (precheck (clipboard b)) eqn:Hpre; [|reflexivity].
  destruct Hnot. by apply precheck_spec.
Qed.

Lemma paste_precheck_noop_unrelated :
  ~ (occurs_in BEGIN_CLASS "unrelated text"
     /\ occurs_in END_OBJECT "unrelated text")
  /\ Scenes.paste 0.5
       (Scenes.scene "unrelated text" [Scenes.armature]) Scenes.context
     = (Scenes.scene "unrelated text" [Scenes.armature],
        Ok "Paste 0 socket success").
Proof.
  assert (Hnot : ~ (occurs_in BEGIN_CLASS "unrelated text"
                    /\ occurs_in END_OBJECT "unrelated text")).
  { rewrite <- !contains_spec. vm_compute. intros [Hb _]. discriminate Hb. }
  split; [exact Hnot|].
  exact (paste_precheck_noop 0.5
           (Scenes.scene "unrelated text" [Scenes.armature]) Scenes.context
           Hnot).
Defined.

(** C4, the code at inputs that pass the check of the two substrings.  In
    any scene, a block whose opening line is followed by a line without [=]
    ends the paste with [ValueError], so does a blank line inside a block,
    and an opening line with no [End Object] after it ends the paste with
    [IndexError] (here [End Object] stands before it). *)
Theorem paste_raises_on_malformed_block `{PyFloatText} `{Mathutils}
    (size : float) (b : BlendData) (context : Context) :
  let paste clip := snd (OP_PasteSocket_execute size (set_clipboard clip b) context) in
  paste (Scenes.lines [Scenes.begin_line 0; "foo"; "End Object"]) = Raise ValueError
  /\ paste (Scenes.lines [Scenes.begin_line 0; "SocketName=A"; ""; "End Object"])
     = Raise ValueError
  /\ paste (Scenes.lines ["End Object"; Scenes.begin_line 0; "SocketName=A"])
     = Raise IndexError.
Proof. repeat split; vm_compute; reflexivity. Qed.

(** C5, the code on blocks that leave keys out.  The block [block_B] has no
    [SocketName] and no [RelativeScale].  Pasted alone into a fresh scene it
    gives a socket named [Socket] of scale 1.0 (times 100); pasted after
    [block_A], in the same clipboard or in a later paste, it gives a socket
    named [A] of scale 2.0 (times 100): the values of the earlier block. *)
Theorem paste_defaults_leak :
  let fresh clip := Scenes.scene (Scenes.lines clip) [Scenes.armature] in
  let created (b : BlendData) :=
    (fun o => (Object.name o, Object.scale o)) <$> drop 1 (objects b) in
  created (fst (Scenes.paste 0.5 (fresh (Scenes.block_B 0)) Scenes.context))
  = [("Socket", Vector.mk 100 100 100)]
  /\ created (fst (Scenes.paste 0.5
                     (fresh (Scenes.block_A ++ Scenes.block_B 1))
                     Scenes.context))
     = [("A", Vector.mk 200 200 200); ("A", Vector.mk 200 200 200)]
  /\ created (fst (Scenes.paste 0.5
                     (set_clipboard (Scenes.lines (Scenes.block_B 0))
                        (fst (Scenes.paste 0.5 (fresh Scenes.block_A)
                                Scenes.context)))
                     Scenes.context))
     = [("A", Vector.mk 200 200 200); ("A", Vector.mk 200 200 200)].
Proof. repeat split; vm_compute; reflexivity. Qed.

(** ** The record builder and the objects a paste creates *)

Section Created.
Context `{PyFloatText} `{Mathutils}.

Lemma objects_assign (i : nat) (f : Object.t -> Object.t) (b : BlendData) :
  objects (assign i f b) = alter f i (objects b).
Proof. reflexivity. Qed.

Lemma objects_link (i : nat) (b : BlendData) : objects (link i b) = objects b.
Proof. reflexivity. Qed.

Lemma negate_item_Ok (d d' : gmap string float) (key : string) :
  negate_item d key = Ok d' ->
  exists v, d !! key = Some v /\ d' = <[key := (v * -1)%float]> d.
Proof.
  unfold negate_item, getitem. destruct (d !! key) as [v|]; [|done].
  intros [= <-]. by exists v.
Qed.

Lemma update_transform_Ok (temp : gmap string string)
    (l r s : gmap string float) :
  update_transform temp = Ok (l, r, s) ->
  exists location rotation y pitch yaw,
    serialize temp "RelativeLocation" = Ok location
    /\ serialize temp "RelativeRotation" = Ok rotation
    /\ serialize temp "RelativeScale" = Ok s
    /\ location !! "Y" = Some y
    /\ rotation !! "Pitch" = Some pitch
    /\ rotation !! "Yaw" = Some yaw
    /\ l = <["Y" := (y * -1)%float]> location
    /\ r = <["Yaw" := (yaw * -1)%float]>
             (<["Pitch" := (pitch * -1)%float]> rotation).
Proof.
  unfold update_transform.
  destruct (serialize temp "RelativeLocation") as [location|]; [|done].
  destruct (serialize temp "RelativeRotation") as [rotation|]; [|done].
  destruct (serialize temp "RelativeScale") as [scale|]; [|done]. cbn.
  destruct (negate_item location "Y") as [l'|] eqn:Hl; [|done]. cbn.
  destruct (negate_item rotation "Pitch") as [r'|] eqn:Hr; [|done]. cbn.
  destruct (negate_item r' "Yaw") as [r''|] eqn:Hr'; [|done]. cbn.
  intros [= <- <- <-].
  apply negate_item_Ok in Hl as (y & Hy & ->).
  apply negate_item_Ok in Hr as (pitch & Hpitch & ->).
  apply negate_item_Ok in Hr' as (yaw & Hyaw & ->).
  rewrite lookup_insert_ne in Hyaw by done.
  by exists location, rotation, y, pitch, yaw.
Qed.

Lemma SocketObject_init_Ok (temp bone temp' : gmap string string)
    (so : SocketObject.t) :
  SocketObject_init temp bone = (temp', Ok so) ->
  temp' = bone ∪ temp
  /\ update_transform temp'
     = Ok (SocketObject.RelativeLocation so, SocketObject.RelativeRotation so,
           SocketObject.RelativeScale so)
  /\ temp' !! "SocketName" = Some (SocketObject.SocketName so)
  /\ temp' !! "BoneName" = Some (SocketObject.BoneName so).
Proof.
  unfold SocketObject_init. destruct (bone !! "self"); [done|].
  intros [= <- Hso]. split; [done|]. revert Hso.
  destruct (update_transform (bone ∪ temp)) as [[[l r] s]|]; [|done]. cbn.
  unfold getitem.
  destruct ((bone ∪ temp) !! "SocketName") as [sn|]; [|done]. cbn.
  destruct ((bone ∪ temp) !! "BoneName") as [bn|]; [|done]. cbn.
  by intros [= <-].
Qed.
End Created.

Section CreateSocket.
Context `{PyFloatText} `{Mathutils}.

Lemma alter_last {A} (f : A -> A) (l : list A) (o : A) :
  alter f (length l) (l ++ [o]) = l ++ [f o].
Proof. induction l as [|a l IH]; [done|]. cbn. by rewrite IH. Qed.

Lemma BlendData_ext (a b : BlendData) :
  objects a = objects b ->
  collections a = collections b ->
  scene_collection_children a = scene_collection_children b ->
  clipboard a = clipboard b ->
  _temp_dict a = _temp_dict b ->
  a = b.
Proof. destruct a, b. cbn. by intros -> -> -> -> ->. Qed.

Lemma collections_assign (i : nat) (f : Object.t -> Object.t) (b : BlendData) :
  collections (assign i f b) = collections b.
Proof. reflexivity. Qed.

Lemma children_assign (i : nat) (f : Object.t -> Object.t) (b : BlendData) :
  scene_collection_children (assign i f b) = scene_collection_children b.
Proof. reflexivity. Qed.

Lemma clipboard_assign (i : nat) (f : Object.t -> Object.t) (b : BlendData) :
  clipboard (assign i f b) = clipboard b.
Proof. reflexivity. Qed.

Lemma temp_dict_assign (i : nat) (f : Object.t -> Object.t) (b : BlendData) :
  _temp_dict (assign i f b) = _temp_dict b.
Proof. reflexivity. Qed.

Lemma collections_link (i : nat) (b : BlendData) :
  collections (link i b)
  = alter (fun l => l ++ [i]) "UE4Socket" (collections b).
Proof. reflexivity. Qed.

Lemma children_link (i : nat) (b : BlendData) :
  scene_collection_children (link i b) = scene_collection_children b.
Proof. reflexivity. Qed.

Lemma clipboard_link (i : nat) (b : BlendData) : clipboard (link i b) = clipboard b.
Proof. reflexivity. Qed.

Lemma temp_dict_link (i : nat) (b : BlendData) :
  _temp_dict (link i b) = _temp_dict b.
Proof. reflexivity. Qed.

Lemma create_socket_Ok (size : float) (i : nat) (active : Object.t)
    (pose_bone : PoseBone.t) (so : SocketObject.t) (b b' : BlendData) :
  create_socket size i active pose_bone so b = (b', Ok ()) ->
  exists x y z roll pitch yaw sx sy sz inverse,
    SocketObject.RelativeLocation so !! "X" = Some x
    /\ SocketObject.RelativeLocation so !! "Y" = Some y
    /\ SocketObject.RelativeLocation so !! "Z" = Some z
    /\ SocketObject.RelativeRotation so !! "Roll" = Some roll
    /\ SocketObject.RelativeRotation so !! "Pitch" = Some pitch
    /\ SocketObject.RelativeRotation so !! "Yaw" = Some yaw
    /\ SocketObject.RelativeScale so !! "X" = Some sx
    /\ SocketObject.RelativeScale so !! "Y" = Some sy
    /\ SocketObject.RelativeScale so !! "Z" = Some sz
    /\ inverted (Object.matrix_world active
                 @ Translation (Vector.sub (PoseBone.tail pose_bone)
                                           (PoseBone.head pose_bone))
                 @ PoseBone.matrix pose_bone) = Some inverse
    /\ b' = mkBlendData
              (objects b
               ++ [pasted_socket size i active pose_bone
                     (SocketObject.SocketName so)
                     (socket_matrix_world active pose_bone x y z roll pitch yaw)
                     inverse sx sy sz])
              (alter (fun l => l ++ [length (objects b)]) "UE4Socket"
                 (collections b))
              (scene_collection_children b) (clipboard b) (_temp_dict b).
Proof.
  unfold create_socket, getitem, inverted_or_raise.
  destruct (SocketObject.RelativeLocation so !! "X") as [x|]; [|done].
  destruct (SocketObject.RelativeLocation so !! "Y") as [y|]; [|done].
  destruct (SocketObject.RelativeLocation so !! "Z") as [z|]; [|done].
  destruct (SocketObject.RelativeRotation so !! "Roll") as [roll|]; [|done].
  destruct (SocketObject.RelativeRotation so !! "Pitch") as [pitch|]; [|done].
  destruct (SocketObject.RelativeRotation so !! "Yaw") as [yaw|]; [|done].
  cbn.
  destruct (SocketObject.RelativeScale so !! "X") as [sx|]; [|done].
  destruct (SocketObject.RelativeScale so !! "Y") as [sy|]; [|done].
  destruct (SocketObject.RelativeScale so !! "Z") as [sz|]; [|done].
  destruct (inverted _) as [inverse|]; [|done].
  intros [= <-]. exists x, y, z, roll, pitch, yaw, sx, sy, sz, inverse.
  repeat (split; [reflexivity|]).
  apply BlendData_ext.
  - rewrite !objects_assign, objects_link, !objects_assign. cbn [objects set_objects].
    rewrite !alter_last. reflexivity.
  - rewrite !collections_assign, collections_link, !collections_assign.
    reflexivity.
  - rewrite !children_assign, children_link, !children_assign. reflexivity.
  - rewrite !clipboard_assign, clipboard_link, !clipboard_assign. reflexivity.
  - rewrite !temp_dict_assign, temp_dict_link, !temp_dict_assign. reflexivity.
Qed.
End CreateSocket.

(** C3.  For every record the builder returns, the location and rotation it
    holds are the parsed ones with Y, Pitch and Yaw multiplied by -1 and
    every other component (Roll among them) as parsed; and the world matrix
    a paste gives the socket created from the record is the bone's matrix
    times the translation by (X, -Y, Z) times the XYZ Euler rotation
    (radians Roll, radians -Pitch, radians -Yaw), where X, Y, Z, Roll, Pitch
    and Yaw are the parsed values.  In particular the engine text
    [RelativeRotation=(Pitch=45,Yaw=60,Roll=30)] gives the Euler rotation
    (radians 30, radians -45, radians -60). *)
Theorem parse_inverse_conversion :
  (forall (PF : PyFloatText) (MU : Mathutils)
          (temp bone temp' : gmap string string) (so : SocketObject.t),
      SocketObject_init temp bone = (temp', Ok so) ->
      exists location rotation y pitch yaw,
        serialize temp' "RelativeLocation" = Ok location
        /\ serialize temp' "RelativeRotation" = Ok rotation
        /\ location !! "Y" = Some y
        /\ rotation !! "Pitch" = Some pitch
        /\ rotation !! "Yaw" = Some yaw
        /\ SocketObject.RelativeLocation so = <["Y" := (y * -1)%float]> location
        /\ SocketObject.RelativeRotation so
           = <["Yaw" := (yaw * -1)%float]>
               (<["Pitch" := (pitch * -1)%float]> rotation)
        /\ forall size i active pose_bone b b',
            create_socket size i active pose_bone so b = (b', Ok ()) ->
            exists x z roll,
              location !! "X" = Some x
              /\ location !! "Z" = Some z
              /\ rotation !! "Roll" = Some roll
              /\ fmap (M := option) Object.matrix_world
                   (objects b' !! length (objects b))
                 = Some ((Object.matrix_world active @ PoseBone.matrix pose_bone)
                         @ (Translation (Vector.mk x (y * -1)%float z)
                            @ Euler_XYZ_to_matrix_4x4
                                (Vector.mk (math.radians roll)
                                   (math.radians (pitch * -1)%float)
                                   (math.radians (yaw * -1)%float)))))
  /\ fmap (M := option) (Object.matrix_world (H := Symbolic.terms))
       (objects (fst (Symbolic.paste 0.5 (Symbolic.scene Symbolic.turned)
                        Scenes.context)) !! 1)
     = Some (Symbolic.Mul
               (Symbolic.Mul (Symbolic.Named "Armature") (Symbolic.Named "hand"))
               (Symbolic.Mul
                  (Symbolic.Trans (Vector.mk 0 (-0) 0))
                  (Symbolic.Rot
                     (Vector.mk (math.radians 30) (math.radians (-45))
                                (math.radians (-60)))))).
Proof.
  split; [|vm_compute; reflexivity].
  intros PF MU temp bone temp' so Hinit.
  apply SocketObject_init_Ok in Hinit as (_ & Hupd & _ & _).
  apply update_transform_Ok in Hupd
    as (location & rotation & y & pitch & yaw
        & Hl & Hr & _ & Hy & Hpitch & Hyaw & HL & HR).
  exists location, rotation, y, pitch, yaw.
  repeat (split; [assumption|]).
  intros size i active pose_bone b b' Hcreate.
  apply create_socket_Ok in Hcreate
    as (x & y' & z & roll & pitch' & yaw' & sx & sy & sz & inverse
        & Hx & Hy' & Hz & Hroll & Hpitch' & Hyaw' & _ & _ & _ & _ & ->).
  rewrite HL in Hx, Hy', Hz. rewrite HR in Hroll, Hpitch', Hyaw'.
  rewrite lookup_insert_ne in Hx by done.
  rewrite lookup_insert_ne in Hz by done.
  rewrite lookup_insert_eq in Hy'. injection Hy' as <-.
  rewrite !lookup_insert_ne in Hroll by done.
  rewrite lookup_insert_ne, lookup_insert_eq in Hpitch' by done.
  injection Hpitch' as <-.
  rewrite lookup_insert_eq in Hyaw'. injection Hyaw' as <-.
  exists x, z, roll. repeat (split; [assumption|]).
  cbn. rewrite list_lookup_middle by done. reflexivity.
Qed.

Lemma parse_inverse_conversion_default :
  SocketObject_init (H := Plain.text) temp_dict_initial Symbolic.turned_dict
  = (Symbolic.turned_dict ∪ temp_dict_initial, Ok Symbolic.turned_record)
  /\ exists rotation pitch yaw,
      serialize (H := Plain.text) (Symbolic.turned_dict ∪ temp_dict_initial)
        "RelativeRotation" = Ok rotation
      /\ rotation !! "Pitch" = Some pitch
      /\ rotation !! "Yaw" = Some yaw
      /\ SocketObject.RelativeRotation Symbolic.turned_record
         = <["Yaw" := (yaw * -1)%float]>
             (<["Pitch" := (pitch * -1)%float]> rotation).
Proof.
  assert (Hinit : SocketObject_init (H := Plain.text) temp_dict_initial
                    Symbolic.turned_dict
                  = (Symbolic.turned_dict ∪ temp_dict_initial, Ok Symbolic.turned_record))
    by (vm_compute; reflexivity).
  split; [exact Hinit|].
  destruct (proj1 parse_inverse_conversion Plain.text Symbolic.terms
              _ _ _ _ Hinit)
    as (location & rotation & y & pitch & yaw
        & _ & Hr & _ & Hpitch & Hyaw & _ & HR & _).
  exists rotation, pitch, yaw. split; [exact Hr|]. split; [exact Hpitch|].
  split; [exact Hyaw | exact HR].
Defined.

(** ** The copy operator *)

Section Copied.
Context `{PyFloatText} `{Mathutils}.

Lemma join_cons (t : string) (texts : list string) :
  join (t :: texts) = t +:+ join texts.
Proof. reflexivity. Qed.

Lemma join_lookup (texts : list string) (k : nat) (t : string) :
  texts !! k = Some t ->
  join texts = join (take k texts) +:+ t +:+ join (drop (S k) texts).
Proof.
  revert k. induction texts as [|t' texts IH]; intros [|k] Hk; try done.
  - by injection Hk as ->.
  - cbn [take drop]. rewrite !join_cons, append_assoc. f_equal. by apply IH.
Qed.

Lemma bones_get_Some (bones : list PoseBone.t) (n : string) (pb : PoseBone.t) :
  bones_get bones n = Some pb -> pb ∈ bones /\ PoseBone.name pb = n.
Proof.
  induction bones as [|pb' bones IH]; [done|]. cbn.
  destruct (String.eqb (PoseBone.name pb') n) eqn:Hn.
  - intros [= <-]. split; [by left | by apply String.eqb_eq].
  - intros Hget. apply IH in Hget as [Hin Hname]. split; [by right | done].
Qed.

Lemma block_engine_block (index : nat) (name bone : string)
    (location rotation scale : Vector.t) :
  block index name bone location rotation scale
  = engine_block index name bone
      (Vector.x location) (Vector.y location) (Vector.z location)
      (Vector.y rotation) (Vector.z rotation) (Vector.x rotation)
      (Vector.x scale) (Vector.y scale) (Vector.z scale).
Proof. reflexivity. Qed.

Lemma copy_loop_Ok (active : Object.t) (sockets : list Object.t) :
  forall (index : nat) (acc r : string),
    copy_loop active index sockets acc = Ok r <->
    exists texts,
      length texts = length sockets
      /\ (forall k s, sockets !! k = Some s ->
           exists t, texts !! k = Some t
                     /\ copy_one active (index + k) s = Ok t)
      /\ r = acc +:+ join texts.
Proof.
  induction sockets as [|s sockets IH]; intros index acc r; cbn.
  - split.
    + intros [= <-]. exists []. by rewrite append_nil_r.
    + intros ([|] & Hlen & _ & ->); [|done]. by rewrite append_nil_r.
  - destruct (copy_one active index s) as [t|e] eqn:Hone; cbn.
    + rewrite IH. split.
      * intros (texts & Hlen & Hk & ->). exists (t :: texts).
        split; [cbn; by rewrite Hlen|]. split.
        -- intros [|k] s' Hs'; cbn in Hs'.
           ++ injection Hs' as <-. exists t. by rewrite Nat.add_0_r.
           ++ destruct (Hk k s' Hs') as (t' & Ht' & Hone').
              exists t'. split; [done|].
              by replace (index + S k) with (S index + k) by lia.
        -- by rewrite join_cons, append_assoc.
      * intros ([|t' texts] & Hlen & Hk & ->); [done|].
        destruct (Hk 0 s eq_refl) as (t0 & [= <-] & Hone0).
        rewrite Nat.add_0_r, Hone in Hone0. injection Hone0 as <-.
        exists texts. split; [by injection Hlen|]. split.
        -- intros k s' Hs'. destruct (Hk (S k) s' Hs') as (t' & Ht' & Hone').
           exists t'. split; [done|].
           by replace (S index + k) with (index + S k) by lia.
        -- by rewrite join_cons, append_assoc.
    + split; [done|]. intros ([|t' texts] & Hlen & Hk & _); [done|].
      destruct (Hk 0 s eq_refl) as (t0 & _ & Hone0).
      rewrite Nat.add_0_r, Hone in Hone0. done.
Qed.

Lemma copy_one_unresolved (active : Object.t) (bones : list PoseBone.t)
    (k : nat) (s : Object.t) :
  Object.pose active = Some bones ->
  bones_get bones (Object.parent_bone s) = None ->
  copy_one active k s = Ok "".
Proof. intros Hpose Hget. unfold copy_one. by rewrite Hpose, Hget. Qed.

Lemma copy_one_resolved (active : Object.t) (bones : list PoseBone.t)
    (k : nat) (s : Object.t) (pb : PoseBone.t) (inverse : Matrix)
    (loc scl : Vector.t) (q : Quaternion) :
  Object.pose active = Some bones ->
  bones_get bones (Object.parent_bone s) = Some pb ->
  inverted (Object.matrix_world active @ PoseBone.matrix pb) = Some inverse ->
  decompose (inverse @ Object.matrix_world s) = (loc, q, scl) ->
  copy_one active k s
  = Ok (block k (Object.name s) (Object.parent_bone s) (export_location loc)
          (export_rotation (to_euler_XYZ q)) (export_scale scl)).
Proof.
  intros Hpose Hget Hinv Hdec. unfold copy_one, inverted_or_raise.
  rewrite Hpose, Hget, Hinv. cbn. by rewrite Hdec.
Qed.

Lemma copy_one_Ok_block (active : Object.t) (bones : list PoseBone.t)
    (k : nat) (s : Object.t) (t : string) :
  Object.pose active = Some bones ->
  copy_one active k s = Ok t ->
  block_or_nothing bones k s t.
Proof.
  intros Hpose. unfold copy_one, block_or_nothing, inverted_or_raise.
  rewrite Hpose.
  destruct (bones_get bones (Object.parent_bone s)) as [pb|];
    [|by intros [= <-]].
  destruct (inverted _) as [inverse|]; cbn; [|done].
  destruct (decompose _) as [[loc q] scl]. intros [= <-].
  rewrite block_engine_block. by do 9 eexists.
Qed.

(** X16.  The text of a copy that ends normally.  Only the clipboard
    changes.  The text is the header with [NumSockets=N], N the number of
    selected sockets, counted before any bone is looked up; then, for the
    selected sockets in the order in which the host lists them, nothing for
    a socket whose parent bone names no pose bone, and otherwise one block
    whose name carries the socket's position among the selected sockets and
    whose [SocketName] and [BoneName] are the socket's name and parent bone.
    So the text can hold fewer blocks than its header counts, and the
    indices of its blocks can leave numbers out. *)
Theorem copy_text_layout (b b' : BlendData) (context : Context)
    (msg : string) (i : nat) (active : Object.t) (bones : list PoseBone.t) :
  OP_CopySocket_execute b context = (b', Ok msg) ->
  active_object context = Some i ->
  objects b !! i = Some active ->
  Object.pose active = Some bones ->
  let sockets := socket_bone_objects b i in
  exists texts,
    OP_CopySocket_execute b context
    = (set_clipboard (header (length sockets) +:+ join texts) b,
       Ok "Copy socket success")
    /\ length texts = length sockets
    /\ forall k s, sockets !! k = Some s ->
         exists t, texts !! k = Some t /\ block_or_nothing bones k s t.
Proof.
  intros Hrun Hactive Hi Hpose sockets. revert Hrun.
  unfold OP_CopySocket_execute, deref. rewrite Hactive. cbn. rewrite Hi.
  fold sockets.
  destruct (copy_loop active 0 sockets _) as [r|e] eqn:Hloop; [|done].
  intros _. apply copy_loop_Ok in Hloop as (texts & Hlen & Htexts & ->).
  exists texts. split; [done|]. split; [done|].
  intros k s Hs. destruct (Htexts k s Hs) as (t & Ht & Hone).
  exists t. split; [done|]. by eapply copy_one_Ok_block.
Qed.

(** C2.  In the text a copy produces, the block of the selected socket at
    position [k], when its bone is found, reads: location X and Z as
    decomposed and Y times -1; Pitch the degrees of the Euler Y times -1,
    Yaw the degrees of the Euler Z times -1, Roll the degrees of the Euler
    X; each scale component divided by 100.  The decomposition is that of
    the bone-relative matrix, with the rotation taken as XYZ Euler. *)
Theorem copy_conversion (b b' : BlendData) (context : Context) (msg : string)
    (i k : nat) (active socket_obj : Object.t) (bones : list PoseBone.t)
    (pb : PoseBone.t) (inverse : Matrix) (loc scl : Vector.t) (q : Quaternion) :
  OP_CopySocket_execute b context = (b', Ok msg) ->
  active_object context = Some i ->
  objects b !! i = Some active ->
  Object.pose active = Some bones ->
  socket_bone_objects b i !! k = Some socket_obj ->
  bones_get bones (Object.parent_bone socket_obj) = Some pb ->
  inverted (Object.matrix_world active @ PoseBone.matrix pb) = Some inverse ->
  decompose (inverse @ Object.matrix_world socket_obj) = (loc, q, scl) ->
  let euler := to_euler_XYZ q in
  exists pre post,
    clipboard b'
    = pre
      +:+ engine_block k (Object.name socket_obj) (Object.parent_bone socket_obj)
            (Vector.x loc) (Vector.y loc * -1)%float (Vector.z loc)
            (math.degrees (Vector.y euler * -1)%float)
            (math.degrees (Vector.z euler * -1)%float)
            (math.degrees (Vector.x euler))
            (Vector.x scl / 100)%float (Vector.y scl / 100)%float
            (Vector.z scl / 100)%float
      +:+ post.
Proof.
  intros Hexec Hactive Hi Hpose Hk Hget Hinv Hdec euler.
  unfold OP_CopySocket_execute, deref in Hexec. rewrite Hactive in Hexec.
  cbn in Hexec. rewrite Hi in Hexec.
  destruct (copy_loop active 0 (socket_bone_objects b i) _) as [r|e] eqn:Hloop;
    [|done].
  injection Hexec as <- _.
  apply copy_loop_Ok in Hloop as (texts & _ & Htexts & ->).
  destruct (Htexts k socket_obj Hk) as (t & Ht & Hone).
  rewrite (copy_one_resolved _ _ _ _ _ _ _ _ _ Hpose Hget Hinv Hdec) in Hone.
  injection Hone as <-.
  exists (header (length (socket_bone_objects b i)) +:+ join (take k texts)),
         (join (drop (S k) texts)).
  cbn [clipboard set_clipboard]. rewrite (join_lookup texts k _ Ht).
  rewrite block_engine_block. by rewrite !append_assoc.
Qed.
End Copied.

Lemma copy_text_layout_three_sockets :
  exists texts,
    Scenes.copy Scenes.three_sockets Scenes.context
    = (set_clipboard (header 3 +:+ join texts) Scenes.three_sockets,
       Ok "Copy socket success")
    /\ length texts = 3
    /\ forall k s,
         socket_bone_objects Scenes.three_sockets 0 !! k = Some s ->
         exists t, texts !! k = Some t
                   /\ block_or_nothing (H := Plain.text)
                        [Scenes.bone "hand"; Scenes.bone "head"] k s t.
Proof.
  refine (copy_text_layout (H := Plain.text) Scenes.three_sockets
            (fst (Scenes.copy Scenes.three_sockets Scenes.context))
            Scenes.context "Copy socket success" 0 Scenes.armature
            [Scenes.bone "hand"; Scenes.bone "head"] _ eq_refl eq_refl eq_refl).
  vm_compute. reflexivity.
Defined.

(** C6, the code on a socket whose bone is gone.  One socket is selected;
    its parent bone names no pose bone of the armature.  The sockets are
    counted before the bones are looked up, so the text is the header with
    [NumSockets=1] and no block at all. *)
Lemma copy_stale_bone :
  length (socket_bone_objects Scenes.stale 0) = 1
  /\ Scenes.copy Scenes.stale Scenes.context
     = (set_clipboard
          ("SocketCopyPasteBuffer" +:+ nl +:+ nl +:+ "NumSockets=1" +:+ nl +:+ nl)
          Scenes.stale,
        Ok "Copy socket success").
Proof. split; vm_compute; reflexivity. Qed.

Lemma copy_conversion_first_socket :
  exists pre post,
    clipboard (fst (Scenes.copy Scenes.three_sockets Scenes.context))
    = pre
      +:+ engine_block (H := Plain.text) 0 "S1" "hand"
            1 (-2) 3 (-0) (-0) 0 1 1 1
      +:+ post.
Proof.
  exact (copy_conversion (H := Plain.text) Scenes.three_sockets
           (fst (Scenes.copy Scenes.three_sockets Scenes.context))
           Scenes.context "Copy socket success" 0 0 Scenes.armature
           (Scenes.socket "S1" "hand") [Scenes.bone "hand"; Scenes.bone "head"]
           (Scenes.bone "hand") (Vector.mk (-11) (-22) (-33), 1%float)
           (Vector.mk 1 2 3) (Vector.mk 100 100 100) tt
           eq_refl eq_refl eq_refl eq_refl eq_refl eq_refl eq_refl eq_refl).
Defined.

(** ** The objects a completed paste has made *)

Section Pasted.
Context `{PyFloatText} `{Mathutils}.

Lemma parse_blocks_length (clipboard_list : list string) (indices : list nat) :
  forall (temp temp' : gmap string string) (sos : list SocketObject.t),
    parse_blocks clipboard_list indices temp = (temp', Ok sos) ->
    length sos = length indices.
Proof.
  induction indices as [|index indices IH]; intros temp temp' sos; cbn.
  - by intros [= _ <-].
  - destruct (scan_block _ _) as [socket_dict|]; [|done].
    destruct (SocketObject_init temp socket_dict) as [temp1 [so|]]; [|done].
    destruct (parse_blocks clipboard_list indices temp1) as [temp2 [sos'|]]
      eqn:Hrest; [|done].
    intros [= _ <-]. cbn. f_equal. by eapply IH.
Qed.

Lemma active_bones_objects (b b1 : BlendData) (context : Context) :
  (forall i, active_object context = Some i ->
     objects b1 !! i = objects b !! i) ->
  active_bones b1 context = active_bones b context.
Proof.
  intros Hsame. unfold active_bones, deref.
  destruct (active_object context) as [i|]; [|done]. cbn.
  by rewrite Hsame.
Qed.

Lemma alter_seq_nil (m : gmap string (list nat)) (n : nat) :
  m = alter (fun l => l ++ seq n 0) "UE4Socket" m.
Proof.
  apply map_eq. intros key. rewrite lookup_alter.
  case_decide as Hkey; [subst key|done].
  destruct (m !! "UE4Socket") as [l|]; cbn; [by rewrite app_nil_r | done].
Qed.

Lemma alter_seq_snoc (m : gmap string (list nat)) (n k : nat) :
  alter (fun l => l ++ seq (S n) k) "UE4Socket"
    (alter (fun l => l ++ [n]) "UE4Socket" m)
  = alter (fun l => l ++ seq n (S k)) "UE4Socket" m.
Proof.
  apply map_eq. intros key. destruct (decide ("UE4Socket" = key)) as [<-|Hne].
  - rewrite !lookup_alter_eq.
    destruct (m !! "UE4Socket") as [l|]; cbn; [by rewrite <- app_assoc | done].
  - by rewrite !lookup_alter_ne.
Qed.

Lemma unresolved_cons_Some (bones : list PoseBone.t) (so : SocketObject.t)
    (sos : list SocketObject.t) (pb : PoseBone.t) :
  bones_get bones (SocketObject.BoneName so) = Some pb ->
  unresolved bones (so :: sos) = unresolved bones sos.
Proof.
  intros Hget. unfold unresolved. cbn [List.filter].
  by rewrite Hget, bool_decide_eq_true_2.
Qed.

Lemma unresolved_cons_None (bones : list PoseBone.t) (so : SocketObject.t)
    (sos : list SocketObject.t) :
  bones_get bones (SocketObject.BoneName so) = None ->
  unresolved bones (so :: sos) = so :: unresolved bones sos.
Proof.
  intros Hget. unfold unresolved. cbn [List.filter].
  rewrite Hget, bool_decide_eq_false_2; [done|]. by intros [? ?].
Qed.

Lemma create_sockets_Ok (size : float) (context : Context)
    (sos : list SocketObject.t) :
  forall (num n : nat) (b b' : BlendData),
    create_sockets size context sos num b = (b', Ok n) ->
    exists created,
      objects b' = objects b ++ created
      /\ n = num + length created
      /\ length created + length (unresolved (active_bones b context) sos)
         = length sos
      /\ collections b'
         = alter (fun l => l ++ seq (length (objects b)) (length created))
             "UE4Socket" (collections b)
      /\ scene_collection_children b' = scene_collection_children b
      /\ Forall (fun o => exists i, active_object context = Some i
                          /\ is_pasted_socket i (active_bones b context) o)
                created.
Proof.
  induction sos as [|so sos IH]; intros num n b b' Hrun.
  - cbn in Hrun. injection Hrun as <- <-. exists [].
    rewrite app_nil_r, Nat.add_0_r. repeat split; try done.
    apply alter_seq_nil.
  - cbn [create_sockets] in Hrun.
    destruct (active_object context) as [i|] eqn:Hi; [|done].
    destruct (deref b (Some i)) as [active|] eqn:Hactive; [|done].
    destruct (Object.pose active) as [bones|] eqn:Hpose; [|done].
    assert (Hbones : active_bones b context = bones).
    { unfold active_bones. rewrite Hi, Hactive. cbn. by rewrite Hpose. }
    rewrite Hbones. cbn in Hactive.
    destruct (bones_get bones (SocketObject.BoneName so)) as [pb|] eqn:Hget.
    + destruct (create_socket size i active pb so b) as [b1 [[]|]] eqn:Hone;
        [|done].
      apply create_socket_Ok in Hone
        as (x & y & z & roll & pitch & yaw & sx & sy & sz & inverse
            & _ & _ & _ & _ & _ & _ & _ & _ & _ & _ & ->).
      set (o := pasted_socket _ _ _ _ _ _ _ _ _ _) in Hrun.
      apply IH in Hrun
        as (created & Hobjs & Hn & Hlen & Hcols & Hkids & Hall).
      rewrite (active_bones_objects b) in Hlen, Hall.
      2, 3: intros i' Hi'; cbn [objects]; apply lookup_app_l;
            assert (i' = i) as -> by congruence; by eapply lookup_lt_Some.
      rewrite Hbones in Hlen, Hall. cbn [objects collections] in Hobjs, Hcols.
      cbn [scene_collection_children] in Hkids.
      exists (o :: created). split; [by rewrite Hobjs, <- app_assoc|].
      split; [cbn; lia|]. split.
      { rewrite (unresolved_cons_Some _ _ _ _ Hget). cbn. lia. }
      split.
      { rewrite Hcols, length_app. cbn [length].
        replace (length (objects b) + 1) with (S (length (objects b))) by lia.
        apply alter_seq_snoc. }
      split; [done|]. constructor; [|done].
      exists i. split; [done|]. repeat split.
      exists pb. split; [by apply bones_get_Some in Hget as [? _] | done].
    + apply IH in Hrun
        as (created & Hobjs & Hn & Hlen & Hcols & Hkids & Hall).
      rewrite Hbones in Hlen, Hall.
      exists created. repeat (split; [done|]). split; [|done].
      rewrite (unresolved_cons_None _ _ _ Hget). cbn. lia.
Qed.
End Pasted.

Section PasteRun.
Context `{PyFloatText} `{Mathutils}.

Lemma ensure_collection_objects (b : BlendData) :
  objects (ensure_collection b) = objects b.
Proof. unfold ensure_collection. by destruct (collections b !! "UE4Socket"). Qed.

Lemma ensure_collection_present (b : BlendData) :
  is_Some (collections (ensure_collection b) !! "UE4Socket").
Proof.
  unfold ensure_collection.
  destruct (collections b !! "UE4Socket") eqn:Hc; [by rewrite Hc|].
  cbn. by rewrite lookup_insert_eq.
Qed.

Lemma ensure_collection_linked (b : BlendData) :
  collections b !! "UE4Socket" = None ->
  "UE4Socket" ∈ scene_collection_children (ensure_collection b).
Proof.
  intros Hc. unfold ensure_collection. rewrite Hc. cbn.
  apply elem_of_app. right. by apply list_elem_of_singleton.
Qed.

(** A run of the paste operator that passes the check of the clipboard and
    ends normally: the records it parsed and the objects it appended. *)
Lemma paste_Ok (size : float) (b b' : BlendData) (context : Context)
    (msg : string) :
  precheck (clipboard b) = true ->
  OP_PasteSocket_execute size b context = (b', Ok msg) ->
  exists temp' socket_objects created,
    parse_blocks (PyStr.splitlines (clipboard b))
      (begin_indices 0 (PyStr.splitlines (clipboard b))) (_temp_dict b)
    = (temp', Ok socket_objects)
    /\ create_sockets size context socket_objects 0
         (ensure_collection (set_temp_dict temp' b))
       = (b', Ok (length created))
    /\ msg = paste_message (length created)
    /\ objects b' = objects b ++ created
    /\ length created
       + length (unresolved (active_bones b context) socket_objects)
       = length socket_objects
    /\ Forall (fun o => exists i, active_object context = Some i
                        /\ is_pasted_socket i (active_bones b context) o)
              created
    /\ collections b'
       = alter (fun l => l ++ seq (length (objects b)) (length created))
           "UE4Socket" (collections (ensure_collection (set_temp_dict temp' b)))
    /\ scene_collection_children b'
       = scene_collection_children (ensure_collection (set_temp_dict temp' b)).
Proof.
  intros Hpre. unfold OP_PasteSocket_execute. rewrite Hpre.
  destruct (parse_blocks _ _ _) as [temp' [socket_objects|]] eqn:Hparse;
    [|done].
  destruct (create_sockets _ _ _ _ _) as [b1 [n|]] eqn:Hcreate; [|done].
  intros [= <- <-]. pose proof Hcreate as Hrun.
  apply create_sockets_Ok in Hcreate
    as (created & Hobjs & -> & Hlen & Hcols & Hkids & Hall).
  rewrite (active_bones_objects b) in Hlen, Hall
    by (intros i _; by rewrite ensure_collection_objects).
  rewrite ensure_collection_objects in Hobjs, Hcols.
  cbn [objects set_temp_dict] in Hobjs, Hcols.
  by exists temp', socket_objects, created.
Qed.

Lemma is_pasted_socket_selected (i : nat) (bones : list PoseBone.t)
    (o : Object.t) (b : BlendData) :
  (forall pb, pb ∈ bones -> PoseBone.name pb <> "") ->
  is_pasted_socket i bones o ->
  o ∈ objects b ->
  is_bone_socket o = true /\ o ∈ socket_bone_objects b i.
Proof.
  intros Hnames (Htype & Hsocket & Hparent & Hptype & pb & Hpb & Hbone) Ho.
  assert (Hfilter : is_bone_socket o = true).
  { unfold is_bone_socket. rewrite Htype, Hsocket, Hptype, Hbone. cbn.
    apply negb_true_iff, String.eqb_neq. by apply Hnames. }
  split; [done|]. unfold socket_bone_objects, children.
  apply list_elem_of_In, filter_In. split; [|done].
  apply filter_In. split; [by apply list_elem_of_In|].
  by apply bool_decide_eq_true.
Qed.

(** C10 (as amended).  After a paste that ends normally, on an armature
    whose pose bones have non-empty names, every object the paste has
    appended is linked into the collection [UE4Socket] (which is linked to
    the scene when the paste had to create it), is an empty with [is_socket]
    set, has the armature as parent, [BONE] as parent type and the name of
    one of the armature's pose bones as parent bone; so it passes the filter
    of the copy operator and is among the sockets a copy selects. *)
Theorem pasted_sockets_invariant (size : float) (b b' : BlendData)
    (context : Context) (msg : string) :
  OP_PasteSocket_execute size b context = (b', Ok msg) ->
  (forall pb, pb ∈ active_bones b context -> PoseBone.name pb <> "") ->
  exists created,
    objects b' = objects b ++ created
    /\ forall k o,
        created !! k = Some o ->
        (exists linked, collections b' !! "UE4Socket" = Some linked
                        /\ length (objects b) + k ∈ linked)
        /\ (collections b !! "UE4Socket" = None ->
            "UE4Socket" ∈ scene_collection_children b')
        /\ exists i, active_object context = Some i
                     /\ is_pasted_socket i (active_bones b context) o
                     /\ is_bone_socket o = true
                     /\ o ∈ socket_bone_objects b' i.
Proof.
  intros Hrun Hnames.
  destruct (precheck (clipboard b)) eqn:Hpre.
  - destruct (paste_Ok size b b' context msg Hpre Hrun)
      as (temp' & socket_objects & created
          & _ & _ & _ & Hobjs & _ & Hall & Hcols & Hkids).
    exists created. split; [done|]. intros k o Hk. split; [|split].
    + destruct (ensure_collection_present (set_temp_dict temp' b))
        as [linked Hlinked].
      exists (linked ++ seq (length (objects b)) (length created)).
      split; [by rewrite Hcols, lookup_alter_eq, Hlinked|].
      apply elem_of_app. right. apply list_elem_of_In, in_seq.
      apply lookup_lt_Some in Hk. lia.
    + intros Hnone. rewrite Hkids. by apply ensure_collection_linked.
    + rewrite Forall_forall in Hall.
      destruct (Hall o) as (i & Hi & Ho); [by eapply list_elem_of_lookup_2|].
      exists i. split; [done|]. split; [done|].
      eapply is_pasted_socket_selected; [done..|].
      rewrite Hobjs. apply elem_of_app. right.
      by eapply list_elem_of_lookup_2.
  - unfold OP_PasteSocket_execute in Hrun. rewrite Hpre in Hrun.
    injection Hrun as <- _. exists []. by rewrite app_nil_r.
Qed.
End PasteRun.

Lemma pasted_sockets_invariant_three_blocks :
  let b := Scenes.three_blocks in
  let b' := fst (Scenes.paste 0.5 b Scenes.context) in
  exists created,
    objects b' = objects b ++ created
    /\ forall k o,
        created !! k = Some o ->
        (exists linked, collections b' !! "UE4Socket" = Some linked
                        /\ length (objects b) + k ∈ linked)
        /\ (collections b !! "UE4Socket" = None ->
            "UE4Socket" ∈ scene_collection_children b')
        /\ exists i, active_object Scenes.context = Some i
                     /\ is_pasted_socket i (active_bones b Scenes.context) o
                     /\ is_bone_socket o = true
                     /\ o ∈ socket_bone_objects b' i.
Proof.
  refine (pasted_sockets_invariant (H := Plain.text) 0.5 Scenes.three_blocks
            (fst (Scenes.paste 0.5 Scenes.three_blocks Scenes.context))
            Scenes.context "Paste 2 socket success" _ _).
  - vm_compute. reflexivity.
  - intros pb Hpb.
    change (pb ∈ [Scenes.bone "hand"; Scenes.bone "head"]) in Hpb.
    apply elem_of_cons in Hpb as [->|Hpb]; [discriminate|].
    apply list_elem_of_singleton in Hpb as ->. discriminate.
Defined.

(** C10, the claim as stated fails: the block names the bone [hand] and
    gives a scale without [X].  The paste makes the object, sets
    [is_socket], and then raises [KeyError] on the scale; the object stays
    in the scene with no parent and outside the collection. *)
Lemma paste_half_made_socket :
  let r := Scenes.paste 0.5 Scenes.no_scale_x Scenes.context in
  snd r = Raise KeyError
  /\ fmap (M := option)
       (fun o : @Object.t Plain.scaled_translations =>
          (Object.is_socket o, Object.parent o, Object.parent_type o))
       (objects (fst r) !! 1)
     = Some (true, None, "OBJECT")
  /\ collections (fst r) !! "UE4Socket" = Some [].
Proof. repeat split; vm_compute; reflexivity. Qed.

(** * Further properties of the operators *)

(** ** When the paste operator ends normally *)

Section Outcomes.
Context `{PyFloatText} `{Mathutils}.

Lemma has_keys_3 {V} (k1 k2 k3 : string) (d : gmap string V) :
  has_keys [k1; k2; k3] d = true
  <-> exists v1 v2 v3,
      d !! k1 = Some v1 /\ d !! k2 = Some v2 /\ d !! k3 = Some v3.
Proof.
  unfold has_keys. cbn. rewrite !andb_true_iff, !bool_decide_eq_true. split.
  - intros ([v1 H1] & [v2 H2] & [v3 H3] & _). by exists v1, v2, v3.
  - intros (v1 & v2 & v3 & H1 & H2 & H3). by rewrite H1, H2, H3.
Qed.

Lemma create_socket_ends (size : float) (i : nat) (active : Object.t)
    (pose_bone : PoseBone.t) (so : SocketObject.t) (b : BlendData) :
  (exists b', create_socket size i active pose_bone so b = (b', Ok ()))
  <-> complete so = true
      /\ is_Some (inverted (bone_tail_matrix active pose_bone)).
Proof.
  unfold complete, bone_tail_matrix. rewrite !andb_true_iff, !has_keys_3.
  split.
  - intros [b' Hrun]. apply create_socket_Ok in Hrun
      as (x & y & z & roll & pitch & yaw & sx & sy & sz & inverse
          & Hx & Hy & Hz & Hroll & Hpitch & Hyaw & Hsx & Hsy & Hsz & Hinv & _).
    split; [|by exists inverse]. split; [split|].
    + by exists x, y, z.
    + by exists roll, pitch, yaw.
    + by exists sx, sy, sz.
  - intros [[[(x & y & z & Hx & Hy & Hz)
               (roll & pitch & yaw & Hroll & Hpitch & Hyaw)]
              (sx & sy & sz & Hsx & Hsy & Hsz)] [inverse Hinv]].
    unfold create_socket, getitem, inverted_or_raise.
    rewrite Hx, Hy, Hz, Hroll, Hpitch, Hyaw. cbn.
    rewrite Hsx, Hsy, Hsz, Hinv. by eexists.
Qed.

Lemma create_sockets_ends (size : float) (context : Context) (i : nat)
    (active : Object.t) (bones : list PoseBone.t)
    (sos : list SocketObject.t) :
  active_object context = Some i ->
  Object.pose active = Some bones ->
  forall (num : nat) (b : BlendData),
    objects b !! i = Some active ->
    (exists b' n, create_sockets size context sos num b = (b', Ok n))
    <-> forall so pb,
        so ∈ sos ->
        bones_get bones (SocketObject.BoneName so) = Some pb ->
        complete so = true
        /\ is_Some (inverted (bone_tail_matrix active pb)).
Proof.
  intros Hi Hpose. induction sos as [|so sos IH]; intros num b Hactive.
  - split; [|by exists b, num]. intros _ so pb Hin.
    by apply elem_of_nil in Hin.
  - cbn [create_sockets]. rewrite Hi. unfold deref. cbn. rewrite Hactive, Hpose.
    destruct (bones_get bones (SocketObject.BoneName so)) as [pb|] eqn:Hget.
    + destruct (create_socket size i active pb so b) as [b1 [[]|e]] eqn:Hone.
      * assert (Hends : complete so = true
                        /\ is_Some (inverted (bone_tail_matrix active pb))).
        { apply (create_socket_ends size i active pb so b). by exists b1. }
        apply create_socket_Ok in Hone
          as (x & y & z & roll & pitch & yaw & sx & sy & sz & inverse
              & _ & _ & _ & _ & _ & _ & _ & _ & _ & _ & ->).
        rewrite IH
          by (cbn [objects]; apply lookup_app_l_Some; exact Hactive).
        split.
        -- intros Hall so' pb' Hin Hget'.
           apply elem_of_cons in Hin as [->|Hin]; [|by eapply Hall].
           rewrite Hget in Hget'. by injection Hget' as <-.
        -- intros Hall so' pb' Hin. apply Hall. by right.
      * split; [by intros (b' & n & [=])|]. intros Hall.
        destruct (proj2 (create_socket_ends size i active pb so b))
          as [b' Hb']; [apply Hall; [by left | done]|].
        rewrite Hone in Hb'. discriminate.
    + rewrite IH by done. split.
      * intros Hall so' pb' Hin Hget'.
        apply elem_of_cons in Hin as [->|Hin]; [congruence | by eapply Hall].
      * intros Hall so' pb' Hin. apply Hall. by right.
Qed.

(** X1.  The paste operator on an armature, once the clipboard has passed
    the check and its blocks have been parsed into records: it ends normally
    exactly when every record whose bone the armature has holds all nine
    components and the bone's matrix (world matrix, translation from head to
    tail, pose matrix) has an inverse.  A record whose bone is not found is
    never looked at. *)
Theorem paste_ends_normally_iff (size : float) (b : BlendData)
    (context : Context) (i : nat) (active : Object.t)
    (bones : list PoseBone.t) (temp' : gmap string string)
    (sos : list SocketObject.t) :
  precheck (clipboard b) = true ->
  parse_blocks (PyStr.splitlines (clipboard b))
    (begin_indices 0 (PyStr.splitlines (clipboard b))) (_temp_dict b)
  = (temp', Ok sos) ->
  active_object context = Some i ->
  objects b !! i = Some active ->
  Object.pose active = Some bones ->
  (exists b' msg, OP_PasteSocket_execute size b context = (b', Ok msg))
  <-> forall so pb,
      so ∈ sos ->
      bones_get bones (SocketObject.BoneName so) = Some pb ->
      complete so = true /\ is_Some (inverted (bone_tail_matrix active pb)).
Proof.
  intros Hpre Hparse Hi Hactive Hpose.
  rewrite <- (create_sockets_ends size context i active bones sos Hi Hpose 0
                (ensure_collection (set_temp_dict temp' b)))
    by (by rewrite ensure_collection_objects).
  unfold OP_PasteSocket_execute. rewrite Hpre, Hparse.
  destruct (create_sockets _ _ _ _ _) as [b1 [n|e]]; split.
  - intros _. by exists b1, n.
  - intros _. by eexists _, _.
  - by intros (b' & msg & [=]).
  - by intros (b' & n & [=]).
Qed.

(** ** What the paste operator leaves of the scene *)

Lemma extends_refl (b : BlendData) : extends b b.
Proof.
  repeat split.
  - exists []. by rewrite app_nil_r.
  - intros members Hm. exists []. by rewrite app_nil_r.
  - exists []. by rewrite app_nil_r.
Qed.

Lemma extends_trans (b1 b2 b3 : BlendData) :
  extends b1 b2 -> extends b2 b3 -> extends b1 b3.
Proof.
  intros ([c1 Ho1] & Hc1 & Hn1 & Hm1 & [k1 Hk1])
         ([c2 Ho2] & Hc2 & Hn2 & Hm2 & [k2 Hk2]).
  repeat split.
  - exists (c1 ++ c2). by rewrite Ho2, Ho1, app_assoc.
  - by rewrite Hc2.
  - intros name Hname. by rewrite Hn2, Hn1.
  - intros members Hm. destruct (Hm1 members Hm) as [l1 Hl1].
    destruct (Hm2 _ Hl1) as [l2 Hl2]. exists (l1 ++ l2).
    by rewrite Hl2, app_assoc.
  - exists (k1 ++ k2). by rewrite Hk2, Hk1, app_assoc.
Qed.

Lemma extends_only_adds (b b' : BlendData) : extends b b' -> only_adds b b'.
Proof.
  intros ([created Hobjs] & Hclip & Hother & Hmembers & [linked Hkids]).
  split; [exists created; by rewrite Hobjs|]. split; [done|].
  split; [done|]. split.
  - intros members Hm. destruct (Hmembers members Hm) as [more Hmore].
    exists (members ++ more). split; [done|]. intros x Hx.
    apply elem_of_app. by left.
  - rewrite Hkids. intros x Hx. apply elem_of_app. by left.
Qed.

Lemma extends_new (b : BlendData) (o : Object.t) :
  extends b (set_objects (objects b ++ [o]) b).
Proof.
  repeat split.
  - by exists [o].
  - intros members Hm. exists []. by rewrite app_nil_r.
  - exists []. by rewrite app_nil_r.
Qed.

Lemma extends_assign (b b1 : BlendData) (socket : nat)
    (f : Object.t -> Object.t) :
  length (objects b) <= socket ->
  extends b b1 -> extends b (assign socket f b1).
Proof.
  intros Hlen ([c Ho] & Hc & Hn & Hm & Hk). repeat split; try done.
  exists (alter f (socket - length (objects b)) c).
  rewrite objects_assign, Ho. by apply alter_app_r_alt.
Qed.

Lemma extends_link (b b1 : BlendData) (socket : nat) :
  extends b b1 -> extends b (link socket b1).
Proof.
  intros (Ho & Hc & Hn & Hm & Hk). repeat split; try done.
  - intros name Hname. rewrite collections_link, lookup_alter_ne by done.
    by apply Hn.
  - intros members Hmem. destruct (Hm members Hmem) as [linked Hlinked].
    exists (linked ++ [socket]).
    by rewrite collections_link, lookup_alter_eq, Hlinked, app_assoc.
Qed.

Lemma extends_ensure_collection (b : BlendData) :
  extends b (ensure_collection b).
Proof.
  unfold ensure_collection.
  destruct (collections b !! "UE4Socket") eqn:Hc; [apply extends_refl|].
  repeat split.
  - exists []. by rewrite app_nil_r.
  - intros name Hname. cbn. by rewrite lookup_insert_ne.
  - intros members Hm. congruence.
  - by exists ["UE4Socket"].
Qed.

Lemma extends_set_temp_dict (b : BlendData) (temp : gmap string string) :
  extends b (set_temp_dict temp b).
Proof.
  repeat split.
  - exists []. by rewrite app_nil_r.
  - intros members Hm. exists []. by rewrite app_nil_r.
  - exists []. by rewrite app_nil_r.
Qed.

Lemma create_socket_extends (size : float) (i : nat) (active : Object.t)
    (pose_bone : PoseBone.t) (so : SocketObject.t) (b : BlendData) :
  extends b (fst (create_socket size i active pose_bone so b)).
Proof.
  unfold create_socket.
  destruct (_ ≫= _) as [world|e]; [|apply extends_refl].
  assert (Hnew : extends b
            (set_objects
               (objects b ++ [Object.new (SocketObject.SocketName so)]) b))
    by apply extends_new.
  cbv zeta.
  repeat match goal with
         | |- extends _ (fst (match ?r with Ok _ => _ | Raise _ => _ end)) =>
             destruct r
         | |- extends _ (fst (_, _)) => cbn [fst]
         | |- extends _ (assign _ _ _) => apply extends_assign; [done|]
         | |- extends _ (link _ _) => apply extends_link
         end; exact Hnew.
Qed.

Lemma create_sockets_extends (size : float) (context : Context)
    (sos : list SocketObject.t) :
  forall (num : nat) (b : BlendData),
    extends b (fst (create_sockets size context sos num b)).
Proof.
  induction sos as [|so sos IH]; intros num b; [apply extends_refl|].
  cbn [create_sockets].
  destruct (active_object context) as [i|]; [|apply extends_refl].
  destruct (deref b (Some i)) as [active|]; [|apply extends_refl].
  destruct (Object.pose active) as [bones|]; [|apply extends_refl].
  destruct (bones_get bones (SocketObject.BoneName so)) as [pb|]; [|apply IH].
  pose proof (create_socket_extends size i active pb so b) as Hone.
  destruct (create_socket size i active pb so b) as [b1 [[]|e]]; [|exact Hone].
  eapply extends_trans; [exact Hone | apply IH].
Qed.

Lemma paste_extends (size : float) (b : BlendData) (context : Context) :
  extends b (fst (OP_PasteSocket_execute size b context)).
Proof.
  unfold OP_PasteSocket_execute.
  destruct (precheck (clipboard b)); [|apply extends_refl].
  destruct (parse_blocks _ _ _) as [temp [sos|e]];
    [|apply extends_set_temp_dict].
  pose proof (create_sockets_extends size context sos 0
                (ensure_collection (set_temp_dict temp b))) as Hrun.
  assert (Hpre : extends b (ensure_collection (set_temp_dict temp b))).
  { eapply extends_trans;
      [apply extends_set_temp_dict | apply extends_ensure_collection]. }
  destruct (create_sockets _ _ _ _ _) as [b1 [n|e]];
    eapply extends_trans; [exact Hpre | exact Hrun | exact Hpre | exact Hrun].
Qed.

End Outcomes.

(** ** How the loop over one block ends *)

Section Scan.
Context `{PyFloatText} `{Mathutils}.

Lemma split1_shape (s : string) :
  if PyStr.member s "=" then exists key value, PyStr.split1 "=" s = [key; value]
  else PyStr.split1 "=" s = [s].
Proof.
  induction s as [|c s IH]; [done|]. cbn [PyStr.member PyStr.split1].
  rewrite (Ascii.eqb_sym "=" c).
  destruct (Ascii.eqb c "="); cbn [orb]; [by exists "", s|].
  destruct (PyStr.member s "=").
  - destruct IH as (key & value & ->). by exists (String c key), value.
  - by rewrite IH.
Qed.

Lemma scan_block_cases (s : string) (rest : list string)
    (d : gmap string string) :
  (is_end s = true /\ scan_block (s :: rest) d = Ok d)
  \/ (body_line s = true
      /\ exists d', scan_block (s :: rest) d = scan_block rest d')
  \/ (is_end s = false /\ has_equals s = false
      /\ scan_block (s :: rest) d = Raise ValueError).
Proof.
  unfold body_line, is_end, has_equals. cbn [scan_block].
  destruct (PyStr.startswith (PyStr.strip s) END_OBJECT); [by left|]. right.
  pose proof (split1_shape (PyStr.strip s)) as Hshape.
  destruct (PyStr.member (PyStr.strip s) "=").
  - left. destruct Hshape as (key & value & ->). split; [done|]. by eexists.
  - right. by rewrite Hshape.
Qed.

Lemma scan_block_Ok_iff (rest : list string) :
  forall d : gmap string string,
    (exists d', scan_block rest d = Ok d')
    <-> exists k s, rest !! k = Some s /\ is_end s = true
                    /\ forallb body_line (take k rest) = true.
Proof.
  induction rest as [|a rest IH]; intros d.
  - split; [by intros [d' [=]] | by intros (k & s & Hk & _)].
  - destruct (scan_block_cases a rest d)
      as [[He Hs] | [[Hb (d1 & Hs)] | (He & Hq & Hs)]]; rewrite Hs.
    + split; [intros _; by exists 0, a | intros _; by eexists].
    + rewrite IH. split.
      * intros (k & s & Hk & He & Hall). exists (S k), s. cbn. by rewrite Hb.
      * intros ([|k] & s & Hk & He & Hall); cbn in Hk, Hall.
        -- injection Hk as ->. unfold body_line in Hb. by rewrite He in Hb.
        -- exists k, s. by rewrite Hb in Hall.
    + split; [by intros [d' [=]]|].
      intros ([|k] & s & Hk & He' & Hall); cbn in Hk, Hall.
      * injection Hk as ->. congruence.
      * unfold body_line in Hall. by rewrite Hq, andb_false_r in Hall.
Qed.

Lemma scan_block_IndexError_iff (rest : list string) :
  forall d : gmap string string,
    scan_block rest d = Raise IndexError <-> forallb body_line rest = true.
Proof.
  induction rest as [|a rest IH]; intros d; [done|].
  destruct (scan_block_cases a rest d)
    as [[He Hs] | [[Hb (d1 & Hs)] | (He & Hq & Hs)]]; rewrite Hs; cbn.
  - unfold body_line. rewrite He. cbn. split; done.
  - by rewrite Hb, IH.
  - unfold body_line. rewrite Hq, andb_false_r. cbn. split; done.
Qed.

Lemma scan_block_ValueError_iff (rest : list string) :
  forall d : gmap string string,
    scan_block rest d = Raise ValueError
    <-> exists k s, rest !! k = Some s /\ is_end s = false
                    /\ has_equals s = false
                    /\ forallb body_line (take k rest) = true.
Proof.
  induction rest as [|a rest IH]; intros d.
  - split; [done | by intros (k & s & Hk & _)].
  - destruct (scan_block_cases a rest d)
      as [[He Hs] | [[Hb (d1 & Hs)] | (He & Hq & Hs)]]; rewrite Hs.
    + split; [done|].
      intros ([|k] & s & Hk & He' & Hq & Hall); cbn in Hk, Hall.
      * injection Hk as ->. congruence.
      * unfold body_line in Hall. by rewrite He in Hall.
    + rewrite IH. split.
      * intros (k & s & Hk & He & Hq & Hall). exists (S k), s. cbn.
        by rewrite Hb.
      * intros ([|k] & s & Hk & He & Hq & Hall); cbn in Hk, Hall.
        -- injection Hk as ->. unfold body_line in Hb.
           by rewrite Hq, andb_false_r in Hb.
        -- exists k, s. by rewrite Hb in Hall.
    + split; [|done]. intros _. by exists 0, a.
Qed.

Lemma scan_block_raises (rest : list string) :
  forall (d : gmap string string) (e : exn),
    scan_block rest d = Raise e -> e = IndexError \/ e = ValueError.
Proof.
  induction rest as [|a rest IH]; intros d e.
  - intros [= <-]. by left.
  - destruct (scan_block_cases a rest d)
      as [[He Hs] | [[Hb (d1 & Hs)] | (He & Hq & Hs)]]; rewrite Hs.
    + done.
    + apply IH.
    + intros [= <-]. by right.
Qed.

(** X3.  The loop that reads the lines of one block, from the line after
    the opening one.  It returns exactly when some line closes the block
    (stripped, it starts with [End Object]) and every line before that one
    has a [=]; it raises [IndexError] exactly when no line to the end of the
    clipboard closes the block and all of them have a [=]; it raises
    [ValueError] exactly when it meets a line without [=] before any line
    that closes the block; and it raises nothing else. *)
Theorem scan_block_outcome (rest : list string) (d : gmap string string) :
  ((exists d', scan_block rest d = Ok d')
   <-> exists k s, rest !! k = Some s /\ is_end s = true
                   /\ forallb body_line (take k rest) = true)
  /\ (scan_block rest d = Raise IndexError
      <-> forallb body_line rest = true)
  /\ (scan_block rest d = Raise ValueError
      <-> exists k s, rest !! k = Some s /\ is_end s = false
                      /\ has_equals s = false
                      /\ forallb body_line (take k rest) = true)
  /\ forall e, scan_block rest d = Raise e -> e = IndexError \/ e = ValueError.
Proof.
  split; [apply scan_block_Ok_iff|]. split; [apply scan_block_IndexError_iff|].
  split; [apply scan_block_ValueError_iff | apply scan_block_raises].
Qed.
End Scan.

(** ** When the copy operator ends normally *)

Section CopyOutcome.
Context `{PyFloatText} `{Mathutils}.

Lemma copy_one_ends (active : Object.t) (bones : list PoseBone.t) (k : nat)
    (s : Object.t) :
  Object.pose active = Some bones ->
  ((exists t, copy_one active k s = Ok t)
   <-> forall pb,
       bones_get bones (Object.parent_bone s) = Some pb ->
       is_Some (inverted (Object.matrix_world active @ PoseBone.matrix pb)))
  /\ forall e, copy_one active k s = Raise e -> e = ValueError.
Proof.
  intros Hpose. unfold copy_one, inverted_or_raise. rewrite Hpose.
  destruct (bones_get bones (Object.parent_bone s)) as [pb|].
  - destruct (inverted _) as [inverse|] eqn:Hinv; cbn.
    + destruct (decompose _) as [[loc q] scl]. split; [|done]. split.
      * intros _ pb' [= <-]. by rewrite Hinv.
      * intros _. by eexists.
    + split; [|by intros e [= <-]]. split; [by intros [t [=]]|].
      intros Hall. destruct (Hall pb eq_refl) as [inverse Hinverse].
      congruence.
  - split; [|done]. split; [done|]. intros _. by eexists.
Qed.

Lemma copy_loop_ends (active : Object.t) (bones : list PoseBone.t)
    (sockets : list Object.t) :
  Object.pose active = Some bones ->
  forall (index : nat) (acc : string),
    ((exists r, copy_loop active index sockets acc = Ok r)
     <-> forall s pb,
         s ∈ sockets ->
         bones_get bones (Object.parent_bone s) = Some pb ->
         is_Some (inverted (Object.matrix_world active @ PoseBone.matrix pb)))
    /\ forall e, copy_loop active index sockets acc = Raise e -> e = ValueError.
Proof.
  intros Hpose. induction sockets as [|s sockets IH]; intros index acc.
  - split; [|done]. split; [|by eexists]. intros _ s pb Hin.
    by apply elem_of_nil in Hin.
  - cbn [copy_loop].
    destruct (copy_one_ends active bones index s Hpose) as [Hone Hraise].
    destruct (copy_one active index s) as [t|e] eqn:Hrun; cbn.
    + destruct (IH (S index) (acc +:+ t)) as [IHends IHraise].
      split; [|exact IHraise]. rewrite IHends. split.
      * intros Hall s' pb Hin.
        apply elem_of_cons in Hin as [->|Hin]; [|by apply Hall].
        apply Hone. by exists t.
      * intros Hall s' pb Hin. apply Hall. by right.
    + split; [|by intros e' [= <-]; apply Hraise]. split; [by intros [r [=]]|].
      intros Hall.
      destruct (proj2 Hone) as [t Ht]; [|done].
      intros pb. apply Hall. by left.
Qed.

Lemma copy_outcome (b : BlendData) (context : Context) (i : nat)
    (active : Object.t) (bones : list PoseBone.t) :
  active_object context = Some i ->
  objects b !! i = Some active ->
  Object.pose active = Some bones ->
  ((exists b' msg, OP_CopySocket_execute b context = (b', Ok msg))
   <-> forall s pb,
       s ∈ socket_bone_objects b i ->
       bones_get bones (Object.parent_bone s) = Some pb ->
       is_Some (inverted (Object.matrix_world active @ PoseBone.matrix pb)))
  /\ forall b' e,
      OP_CopySocket_execute b context = (b', Raise e) ->
      b' = b /\ e = ValueError.
Proof.
  intros Hi Hactive Hpose. unfold OP_CopySocket_execute, deref.
  rewrite Hi. cbn. rewrite Hactive.
  destruct (copy_loop_ends active bones (socket_bone_objects b i) Hpose 0
              (header (length (socket_bone_objects b i))))
    as [Hends Hraise].
  destruct (copy_loop _ _ _ _) as [r|e] eqn:Hrun.
  - split; [|done]. rewrite <- Hends. split; [by eexists | by eexists _, _].
  - split.
    + rewrite <- Hends. split; [by intros (b' & msg & [=]) | by intros [r [=]]].
    + intros b' e' [= <- <-]. split; [done | by apply Hraise].
Qed.
End CopyOutcome.

(** ** The attach operator *)

Section Attached.
Context `{MathutilsSnap} `{ConstraintNames}.

(** X5.  A target that the filter of the property [attach_to] accepts for
    the current active object is a target the attach operator is available
    for: the filter asks all the availability check asks of the target, and
    that it is an empty marked as a socket besides. *)
Theorem attach_filter_enables_poll (b : BlendData) (context : Context)
    (i target : nat) (active obj : Object.t) :
  active_object context = Some i ->
  objects b !! i = Some active ->
  Object.attach_to active = Some target ->
  objects b !! target = Some obj ->
  attach_to_poll context obj = true ->
  OP_AttachObject_poll b context = true.
Proof.
  intros Hi Hactive Htarget Hobj Hfilter.
  unfold attach_to_poll in Hfilter. rewrite !andb_true_iff in Hfilter.
  destruct Hfilter as [_ Hparent].
  unfold OP_AttachObject_poll, deref. rewrite Hi. cbn.
  rewrite Hactive, Htarget, Hobj. cbn. by rewrite <- Hi.
Qed.

Lemma stack_of_insert (cs : gmap nat (list Constraint.t)) (i : nat)
    (stack : list Constraint.t) :
  stack_of (<[i := stack]> cs) i = stack.
Proof. unfold stack_of. by rewrite lookup_insert_eq. Qed.

Lemma stack_of_insert_ne (cs : gmap nat (list Constraint.t)) (i j : nat)
    (stack : list Constraint.t) :
  i <> j -> stack_of (<[i := stack]> cs) j = stack_of cs j.
Proof. intros Hne. unfold stack_of. by rewrite lookup_insert_ne. Qed.

Lemma constraints_get_last (n : string) (stack : list Constraint.t)
    (c : Constraint.t) :
  n ∉ Constraint.name <$> stack ->
  Constraint.name c = n ->
  constraints_get n (stack ++ [c]) = Some (length stack).
Proof.
  intros Hfresh Hname. induction stack as [|c' stack IH]; cbn.
  - by rewrite Hname, String.eqb_refl.
  - cbn in Hfresh. apply not_elem_of_cons in Hfresh as [Hne Hfresh].
    destruct (String.eqb_spec (Constraint.name c') n) as [Heq|_]; [done|].
    by rewrite IH.
Qed.

Lemma constraints_get_Some (n : string) (stack : list Constraint.t) (k : nat) :
  constraints_get n stack = Some k ->
  exists c, stack !! k = Some c /\ Constraint.name c = n.
Proof.
  revert k. induction stack as [|c stack IH]; intros k; [done|]. cbn.
  destruct (String.eqb_spec (Constraint.name c) n) as [Heq|_].
  - intros [= <-]. by exists c.
  - destruct (constraints_get n stack) as [k'|]; [|done].
    intros [= <-]. by apply IH.
Qed.

Lemma assign_insert (i : nat) (f : Object.t -> Object.t) (b : BlendData)
    (o : Object.t) :
  objects b !! i = Some o ->
  assign i f b = set_objects (<[i := f o]> (objects b)) b.
Proof.
  intros Ho. unfold assign. f_equal. apply list_eq. intros j.
  destruct (decide (i = j)) as [<-|Hne].
  - rewrite list_lookup_alter_eq, Ho, list_lookup_insert_eq; [done|].
    by eapply lookup_lt_Some.
  - by rewrite list_lookup_alter_ne, list_lookup_insert_ne.
Qed.

Lemma lookup_assign (i j : nat) (f : Object.t -> Object.t) (b : BlendData) :
  objects (assign i f b) !! j
  = if decide (i = j) then f <$> objects b !! j else objects b !! j.
Proof.
  rewrite objects_assign. destruct (decide (i = j)) as [<-|Hne].
  - apply list_lookup_alter_eq.
  - by apply list_lookup_alter_ne.
Qed.

(** X6.  Where the attach operator is available and the target it is to
    use is an object of the scene, it ends normally, with or without the
    snap: it turns [is_attach_to_object] of the active object over and
    reports the attachment when the flag was clear and the detachment when
    it was set; it leaves every other object, and the constraints of every
    other object, as they were. *)
Theorem attach_available_ends_normally (snap : bool) (b : BlendData)
    (cs : gmap nat (list Constraint.t)) (context : Context) :
  OP_AttachObject_poll b context = true ->
  (forall o target, o ∈ objects b -> Object.attach_to o = Some target ->
                    is_Some (objects b !! target)) ->
  exists i active b' cs',
    active_object context = Some i
    /\ objects b !! i = Some active
    /\ OP_AttachObject_execute snap b cs context
       = (b', cs',
          Ok (if Object.is_attach_to_object active
              then "Detach Object Success" else "Attach Object Success"))
    /\ fmap (M := option) Object.is_attach_to_object (objects b' !! i)
       = Some (negb (Object.is_attach_to_object active))
    /\ forall j, i <> j ->
         objects b' !! j = objects b !! j /\ stack_of cs' j = stack_of cs j.
Proof.
  intros Hpoll Hlive. unfold OP_AttachObject_poll, deref in Hpoll.
  destruct (active_object context) as [i|] eqn:Hi; [|done]. cbn in Hpoll.
  destruct (objects b !! i) as [active|] eqn:Hactive; [|done].
  destruct (Object.attach_to active) as [target|] eqn:Htarget; [|done].
  destruct (Hlive active target) as [tobj Htobj];
    [by eapply list_elem_of_lookup_2 | done|].
  exists i, active. unfold OP_AttachObject_execute, deref. rewrite Hi. cbn.
  rewrite Hactive, Htarget.
  assert (Hflag : forall v,
            fmap (M := option) Object.is_attach_to_object
              (objects (assign i (set_is_attach_to_object v) b) !! i)
            = Some v).
  { intros v. rewrite lookup_assign, decide_True, Hactive by done.
    by destruct active. }
  assert (Hother : forall f j, i <> j ->
            objects (assign i f b) !! j = objects b !! j).
  { intros f j Hne. by rewrite lookup_assign, decide_False. }
  destruct (Object.is_attach_to_object active) eqn:Hattached; cbn.
  - destruct (constraints_get "attach_to" (stack_of cs i)) as [k|];
      eexists _, _; (split; [done|]); (split; [done|]);
      (split; [reflexivity|]); (split; [apply Hflag|]);
      intros j Hne; (split; [by apply Hother|]); [|done].
    by apply stack_of_insert_ne.
  - destruct snap.
    + assert (Hlook : is_Some
                (objects (assign i (set_is_attach_to_object true) b)
                 !! target)).
      { rewrite lookup_assign. destruct (decide (i = target)) as [<-|Hne].
        - rewrite Hactive. by eexists.
        - by rewrite Htobj. }
      rewrite objects_assign in Hlook. destruct Hlook as [tobj' ->].
      eexists _, _. split; [done|]. split; [done|]. split; [reflexivity|].
      split.
      * rewrite lookup_assign, decide_True by done.
        rewrite lookup_assign, decide_True, Hactive by done.
        by destruct active.
      * intros j Hne. split; [|by apply stack_of_insert_ne].
        by rewrite !lookup_assign, !decide_False.
    + eexists _, _. split; [done|]. split; [done|]. split; [reflexivity|].
      split; [apply Hflag|]. intros j Hne.
      split; [by apply Hother | by apply stack_of_insert_ne].
Qed.

(** X7.  Attaching and then detaching.  The active object is not attached,
    none of its constraints is named [attach_to], and the host leaves a name
    alone that no other constraint bears.  Then the first run appends to
    the object's constraints one of type [CHILD_OF] named [attach_to] whose
    target is the designated object, sets the flag and reports the
    attachment; the second run removes just that constraint, clears the flag
    and reports the detachment, so that the constraints of every object are
    what they were at the start.  The world matrix is not restored: after a
    snap the object keeps the snapped matrix, made of the target's location
    and rotation and the object's own scale. *)
Theorem attach_then_detach (snap : bool) (b : BlendData)
    (cs : gmap nat (list Constraint.t)) (context : Context) (i target : nat)
    (active tobj : Object.t) :
  active_object context = Some i ->
  objects b !! i = Some active ->
  Object.is_attach_to_object active = false ->
  Object.attach_to active = Some target ->
  objects b !! target = Some tobj ->
  "attach_to" ∉ Constraint.name <$> stack_of cs i ->
  unique_name (Constraint.name <$> stack_of cs i) "attach_to" = "attach_to" ->
  exists b1 cs1 b2 cs2,
    OP_AttachObject_execute snap b cs context
    = (b1, cs1, Ok "Attach Object Success")
    /\ stack_of cs1 i
       = stack_of cs i ++ [Constraint.mk "attach_to" "CHILD_OF" (Some target)]
    /\ OP_AttachObject_execute snap b1 cs1 context
       = (b2, cs2, Ok "Detach Object Success")
    /\ (forall j, stack_of cs2 j = stack_of cs j)
    /\ b2 = (if snap
             then assign i (Object.set_matrix_world (snapped active tobj)) b
             else b).
Proof.
  intros Hi Hactive Hflag Htarget Htobj Hfresh Hunique.
  assert (Hlt : i < length (objects b)) by by eapply lookup_lt_Some.
  set (c := Constraint.mk "attach_to" "CHILD_OF" (Some target)).
  set (cs1 := <[i := stack_of cs i ++ [c]]> cs).
  set (flagged := set_is_attach_to_object true active).
  set (active1 := if snap
                  then Object.set_matrix_world (snapped active tobj) flagged
                  else flagged).
  set (b1 := set_objects (<[i := active1]> (objects b)) b).
  assert (Hsnapped : forall t,
            Object.matrix_world t = Object.matrix_world tobj ->
            snapped active t = snapped active tobj).
  { intros t Ht. unfold snapped. by rewrite Ht. }
  assert (Hrun1 : OP_AttachObject_execute snap b cs context
                  = (b1, cs1, Ok "Attach Object Success")).
  { unfold OP_AttachObject_execute, deref. rewrite Hi. cbn.
    rewrite Hactive, Hflag, Htarget, Hunique. cbn. fold c. fold cs1.
    rewrite (assign_insert i _ b active Hactive). fold flagged.
    destruct snap.
    - cbn [objects set_objects].
      assert (exists t,
                alter (set_is_attach_to_object true) i (objects b) !! target
                = Some t
                /\ Object.matrix_world t = Object.matrix_world tobj)
        as (t & -> & Ht).
      { destruct (decide (i = target)) as [<-|Hne].
        - exists flagged. rewrite list_lookup_alter_eq, Hactive.
          split; [done|]. rewrite Hactive in Htobj. injection Htobj as <-.
          unfold flagged. by destruct active.
        - exists tobj. by rewrite list_lookup_alter_ne. }
      rewrite (Hsnapped t Ht).
      rewrite (assign_insert i _ _ flagged)
        by (cbn [objects set_objects]; by apply list_lookup_insert_eq).
      unfold b1, active1, set_objects. cbn. f_equal. f_equal.
      by rewrite list_insert_insert_eq.
    - reflexivity. }
  exists b1, cs1.
  eexists _, (<[i := stack_of cs i]> cs1).
  split; [exact Hrun1|]. split; [apply stack_of_insert|]. split; [|split].
  - unfold OP_AttachObject_execute, deref. rewrite Hi. cbn.
    unfold b1 at 1. cbn [objects set_objects].
    rewrite list_lookup_insert_eq by done.
    replace (Object.is_attach_to_object active1) with true
      by (unfold active1, flagged; destruct snap; by destruct active).
    cbn. unfold cs1 at 1 2. rewrite stack_of_insert.
    rewrite (constraints_get_last "attach_to" (stack_of cs i) c) by done.
    replace (delete (length (stack_of cs i)) (stack_of cs i ++ [c]))
      with (stack_of cs i)
      by (by rewrite delete_middle, app_nil_r).
    reflexivity.
  - intros j. destruct (decide (i = j)) as [<-|Hne].
    + apply stack_of_insert.
    + unfold cs1. by rewrite !stack_of_insert_ne.
  - rewrite (assign_insert i _ b1 active1)
      by (unfold b1; cbn [objects set_objects]; by apply list_lookup_insert_eq).
    unfold b1. cbn [objects set_objects]. rewrite list_insert_insert_eq.
    assert (Hback : set_is_attach_to_object false active1
                    = if snap
                      then Object.set_matrix_world (snapped active tobj) active
                      else active).
    { unfold active1, flagged. destruct active. cbn in Hflag. subst.
      by destruct snap. }
    rewrite Hback. destruct snap.
    + by rewrite (assign_insert i _ b active Hactive).
    + rewrite list_insert_id by done. by destruct b.
Qed.
End Attached.

(** ** The operator that creates a socket *)

Section CreatedSocket.
Context `{PyFloatText} `{Mathutils}.

(** The matrix the create operator inverts: the bone's when the socket
    hangs on a bone, the world matrix of the active object otherwise. *)
Lemma create_socket_run (socket_name : string) (size : float)
    (rotation : Vector.t) (b : BlendData) (locals : gmap nat Local.t)
    (context : BoneContext) (i : nat) (active : Object.t) :
  active_object (base context) = Some i ->
  objects b !! i = Some active ->
  let inverse :=
    inverted (match socket_bone active context with
              | Some bone => bone_tail_matrix active bone
              | None => Object.matrix_world active
              end) in
  OP_CreateSocket_execute socket_name size rotation b locals context
  = (mkBlendData
       (objects b
        ++ [created_socket socket_name size i
              (match socket_bone active context with
               | Some _ => "BONE"
               | None => "OBJECT"
               end)
              (from_option PoseBone.name "" (socket_bone active context))
              (default Identity inverse)])
       (alter (fun l => l ++ [length (objects b)]) "UE4Socket"
          (collections (ensure_collection b)))
       (scene_collection_children (ensure_collection b))
       (clipboard b) (_temp_dict b),
     <[length (objects b) := Local.mk (cursor_location context) rotation]>
       locals,
     match inverse with Some _ => Ok () | None => Raise ValueError end).
Proof.
  intros Hi Hactive inverse. unfold OP_CreateSocket_execute, deref.
  rewrite Hi. cbn [mbind option_bind]. rewrite Hactive.
  assert (Hlocals : forall n,
    alter (Local.set_location (cursor_location context)) n
      (alter (Local.set_rotation_euler rotation) n
         (<[n := Local.mk (Vector.mk 0 0 0) (Vector.mk 0 0 0)]> locals))
    = <[n := Local.mk (cursor_location context) rotation]> locals).
  { intros n. by rewrite !alter_insert_eq. }
  assert (Hclip : clipboard (ensure_collection b) = clipboard b).
  { unfold ensure_collection. by destruct (collections b !! "UE4Socket"). }
  assert (Htemp : _temp_dict (ensure_collection b) = _temp_dict b).
  { unfold ensure_collection. by destruct (collections b !! "UE4Socket"). }
  pose proof (ensure_collection_objects b) as Hobjs.
  unfold inverted_or_raise, inverse.
  destruct (socket_bone active context) as [bone|];
    destruct (inverted _) as [inv|]; cbv zeta;
    rewrite Hlocals, Hobjs; f_equal; f_equal; apply BlendData_ext.
  all: rewrite ?objects_assign, ?objects_link, ?objects_assign,
         ?collections_assign, ?collections_link, ?collections_assign,
         ?children_assign, ?children_link, ?children_assign,
         ?clipboard_assign, ?clipboard_link, ?clipboard_assign,
         ?temp_dict_assign, ?temp_dict_link, ?temp_dict_assign;
       cbn [objects collections scene_collection_children clipboard
            _temp_dict set_objects];
       rewrite ?Hobjs, ?alter_last; try done.
Qed.

Lemma ensure_collection_linked_to (b : BlendData) (socket : nat) :
  exists linked,
    alter (fun l => l ++ [socket]) "UE4Socket"
      (collections (ensure_collection b)) !! "UE4Socket" = Some linked
    /\ socket ∈ linked.
Proof.
  destruct (ensure_collection_present b) as [members Hmembers].
  exists (members ++ [socket]). rewrite lookup_alter_eq, Hmembers.
  split; [done|]. apply elem_of_app. right. by apply list_elem_of_singleton.
Qed.

Lemma socket_bone_objects_snoc (b b' : BlendData) (i : nat) (o : Object.t) :
  objects b' = objects b ++ [o] ->
  Object.parent o = Some i ->
  socket_bone_objects b' i
  = socket_bone_objects b i ++ (if is_bone_socket o then [o] else []).
Proof.
  intros Hobjs Hparent. unfold socket_bone_objects, children.
  rewrite Hobjs, !List.filter_app. cbn [List.filter].
  rewrite Hparent, bool_decide_eq_true_2 by done. cbn [List.filter].
  by destruct (is_bone_socket o).
Qed.

Lemma create_extends (socket_name : string) (size : float)
    (rotation : Vector.t) (b : BlendData) (locals : gmap nat Local.t)
    (context : BoneContext) :
  extends b
    (fst (fst (OP_CreateSocket_execute socket_name size rotation b locals
                 context))).
Proof.
  unfold OP_CreateSocket_execute.
  destruct (active_object (base context)) as [i|]; [|apply extends_refl].
  destruct (deref b (Some i)) as [active|]; [|apply extends_refl].
  apply (extends_trans _ (ensure_collection b));
    [apply extends_ensure_collection|].
  assert (Hnew : extends (ensure_collection b)
            (set_objects
               (objects (ensure_collection b) ++ [Object.new socket_name])
               (ensure_collection b)))
    by apply extends_new.
  cbv zeta.
  repeat match goal with
         | |- extends _ (fst (fst match ?r with Some _ => _ | None => _ end)) =>
             destruct r
         | |- extends _
                (fst (fst match ?r with Ok _ => _ | Raise _ => _ end)) =>
             destruct r
         | |- extends _ (fst (fst (_, _, _))) => cbn [fst]
         | |- extends _ (assign _ _ _) => apply extends_assign; [done|]
         | |- extends _ (link _ _) => apply extends_link
         end; exact Hnew.
Qed.



(** X10.  A socket made on the object itself.  When no bone is used (the
    active object is a mesh, or an armature in object mode, or there is no
    active bone) and the object's world matrix has an inverse, the create
    operator ends normally and appends a socket of parent type [OBJECT]
    with no parent bone.  The copy operator never selects that socket: it
    selects the same sockets as before. *)
Theorem created_on_object_is_not_copied (socket_name : string) (size : float)
    (rotation : Vector.t) (b : BlendData) (locals : gmap nat Local.t)
    (context : BoneContext) (i : nat) (active : Object.t)
    (inverse : Matrix) :
  active_object (base context) = Some i ->
  objects b !! i = Some active ->
  socket_bone active context = None ->
  inverted (Object.matrix_world active) = Some inverse ->
  let socket := created_socket socket_name size i "OBJECT" "" inverse in
  exists b' locals',
    OP_CreateSocket_execute socket_name size rotation b locals context
    = (b', locals', Ok ())
    /\ objects b' = objects b ++ [socket]
    /\ is_bone_socket socket = false
    /\ socket_bone_objects b' i = socket_bone_objects b i.
Proof.
  intros Hi Hactive Hbone Hinv socket.
  pose proof (create_socket_run socket_name size rotation b locals context i
                active Hi Hactive) as Hrun.
  cbv zeta in Hrun. rewrite Hbone, Hinv in Hrun.
  cbn [from_option default] in Hrun.
  eexists _, _. split; [exact Hrun|]. split; [done|]. split; [done|].
  rewrite (socket_bone_objects_snoc b _ i socket) by done.
  replace (is_bone_socket socket) with false by done. apply app_nil_r.
Qed.

Lemma socket_bone_None (active : Object.t) (context : BoneContext) :
  Object.type active <> "ARMATURE" \/ mode (base context) = "OBJECT" ->
  socket_bone active context = None.
Proof.
  unfold socket_bone. intros [Htype | ->].
  - by destruct (String.eqb_spec (Object.type active) "ARMATURE").
  - cbn. by rewrite andb_false_r.
Qed.
End CreatedSocket.

(** ** What the availability checks rule out *)

Section Polls.
Context `{PyFloatText} `{Mathutils}.

Lemma armature_active (b : BlendData) (context : Context) :
  match deref b (active_object context) with
  | None => false
  | Some active => String.eqb (Object.type active) "ARMATURE"
  end = true ->
  armatures_posed b ->
  exists i active bones,
    active_object context = Some i
    /\ objects b !! i = Some active
    /\ Object.pose active = Some bones.
Proof.
  intros Hpoll Hposed. unfold deref in Hpoll.
  destruct (active_object context) as [i|]; [|done]. cbn in Hpoll.
  destruct (objects b !! i) as [active|] eqn:Hactive; [|done].
  apply String.eqb_eq in Hpoll.
  destruct (Hposed active) as [bones Hbones];
    [by eapply list_elem_of_lookup_2 | done|].
  by exists i, active, bones.
Qed.

Lemma components_raises (parts : list string) :
  forall (acc : gmap string float) (e : exn),
    components parts acc = Raise e -> e = ValueError.
Proof.
  induction parts as [|part parts IH]; intros acc e; cbn; [done|].
  destruct (PyStr.split1 "=" (PyStr.strip part)) as [|key [|val [|? ?]]];
    try (by intros [= <-]).
  destruct (py_float val); [apply IH | by intros [= <-]].
Qed.

Lemma serialize_raises (temp : gmap string string) (key : string) (e : exn) :
  serialize temp key = Raise e -> e <> AttributeError.
Proof.
  unfold serialize, getitem. destruct (temp !! key); cbn.
  - intros Hc. by apply components_raises in Hc as ->.
  - by intros [= <-].
Qed.

Lemma negate_item_raises (d : gmap string float) (key : string) (e : exn) :
  negate_item d key = Raise e -> e <> AttributeError.
Proof.
  unfold negate_item, getitem. destruct (d !! key); cbn; [done|].
  by intros [= <-].
Qed.

Lemma update_transform_raises (temp : gmap string string) (e : exn) :
  update_transform temp = Raise e -> e <> AttributeError.
Proof.
  unfold update_transform.
  destruct (serialize temp "RelativeLocation") as [l|e1] eqn:Hl; cbn;
    [|intros [= <-]; by eapply serialize_raises].
  destruct (serialize temp "RelativeRotation") as [r|e2] eqn:Hr; cbn;
    [|intros [= <-]; by eapply serialize_raises].
  destruct (serialize temp "RelativeScale") as [s|e3] eqn:Hs; cbn;
    [|intros [= <-]; by eapply serialize_raises].
  destruct (negate_item l "Y") as [l'|e4] eqn:Hl'; cbn;
    [|intros [= <-]; by eapply negate_item_raises].
  destruct (negate_item r "Pitch") as [r'|e5] eqn:Hr'; cbn;
    [|intros [= <-]; by eapply negate_item_raises].
  destruct (negate_item r' "Yaw") as [r''|e6] eqn:Hr''; cbn;
    [done | intros [= <-]; by eapply negate_item_raises].
Qed.

Lemma SocketObject_init_raises (temp bone temp' : gmap string string)
    (e : exn) :
  SocketObject_init temp bone = (temp', Raise e) -> e <> AttributeError.
Proof.
  unfold SocketObject_init. destruct (bone !! "self"); [by intros [= _ <-]|].
  intros [= _ Hrun]. revert Hrun.
  destruct (update_transform (bone ∪ temp)) as [[[l r] s]|e1] eqn:Hupd; cbn;
    [|intros [= <-]; by eapply update_transform_raises].
  unfold getitem.
  destruct ((bone ∪ temp) !! "SocketName"); cbn; [|by intros [= <-]].
  destruct ((bone ∪ temp) !! "BoneName"); cbn; [done | by intros [= <-]].
Qed.

Lemma parse_blocks_raises (clipboard_list : list string)
    (indices : list nat) :
  forall (temp temp' : gmap string string) (e : exn),
    parse_blocks clipboard_list indices temp = (temp', Raise e) ->
    e <> AttributeError.
Proof.
  induction indices as [|index indices IH]; intros temp temp' e; cbn; [done|].
  destruct (scan_block _ _) as [socket_dict|e1] eqn:Hscan.
  - destruct (SocketObject_init temp socket_dict) as [temp1 [so|e2]] eqn:Hinit.
    + destruct (parse_blocks clipboard_list indices temp1)
        as [temp2 [sos|e3]] eqn:Hrest; [done|].
      intros [= _ <-]. by eapply IH.
    + intros [= _ <-]. by eapply SocketObject_init_raises.
  - intros [= _ <-].
    by destruct (scan_block_raises _ _ _ Hscan) as [-> | ->].
Qed.

Lemma create_socket_raises (size : float) (i : nat) (active : Object.t)
    (pose_bone : PoseBone.t) (so : SocketObject.t) (b b' : BlendData)
    (e : exn) :
  create_socket size i active pose_bone so b = (b', Raise e) ->
  e = KeyError \/ e = ValueError.
Proof.
  unfold create_socket, getitem, inverted_or_raise.
  destruct (SocketObject.RelativeLocation so !! "X");
    [|intros [= _ <-]; by left].
  destruct (SocketObject.RelativeLocation so !! "Y");
    [|intros [= _ <-]; by left].
  destruct (SocketObject.RelativeLocation so !! "Z");
    [|intros [= _ <-]; by left].
  destruct (SocketObject.RelativeRotation so !! "Roll");
    [|intros [= _ <-]; by left].
  destruct (SocketObject.RelativeRotation so !! "Pitch");
    [|intros [= _ <-]; by left].
  destruct (SocketObject.RelativeRotation so !! "Yaw");
    [|intros [= _ <-]; by left].
  cbn.
  destruct (SocketObject.RelativeScale so !! "X"); [|intros [= _ <-]; by left].
  destruct (SocketObject.RelativeScale so !! "Y"); [|intros [= _ <-]; by left].
  destruct (SocketObject.RelativeScale so !! "Z"); [|intros [= _ <-]; by left].
  destruct (inverted _); [done | intros [= _ <-]; by right].
Qed.

Lemma create_sockets_raises (size : float) (context : Context) (i : nat)
    (active : Object.t) (bones : list PoseBone.t)
    (sos : list SocketObject.t) :
  active_object context = Some i ->
  Object.pose active = Some bones ->
  forall (num : nat) (b b' : BlendData) (e : exn),
    objects b !! i = Some active ->
    create_sockets size context sos num b = (b', Raise e) ->
    e = KeyError \/ e = ValueError.
Proof.
  intros Hi Hpose. induction sos as [|so sos IH]; intros num b b' e Hactive;
    [done|].
  cbn [create_sockets]. rewrite Hi. unfold deref. cbn. rewrite Hactive, Hpose.
  destruct (bones_get bones (SocketObject.BoneName so)) as [pb|];
    [|by apply IH].
  destruct (create_socket size i active pb so b) as [b1 [[]|e1]] eqn:Hone.
  - apply create_socket_Ok in Hone
      as (x & y & z & roll & pitch & yaw & sx & sy & sz & inverse
          & _ & _ & _ & _ & _ & _ & _ & _ & _ & _ & ->).
    apply IH. cbn [objects]. by apply lookup_app_l_Some.
  - intros [= _ <-]. by eapply create_socket_raises.
Qed.

(** X11.  Where the paste operator is available (object mode, an active
    object of type [ARMATURE]) and the armatures of the scene have a pose,
    the operator never ends with [AttributeError]: it ends normally or with
    one of [ValueError], [IndexError], [KeyError] and [TypeError], which the
    clipboard's text or a matrix without inverse bring about. *)
Theorem paste_available_outcome (size : float) (b b' : BlendData)
    (context : Context) (e : exn) :
  OP_PasteSocket_poll b context = true ->
  armatures_posed b ->
  OP_PasteSocket_execute size b context = (b', Raise e) ->
  e <> AttributeError.
Proof.
  unfold OP_PasteSocket_poll. rewrite andb_true_iff. intros [_ Hpoll] Hposed.
  destruct (armature_active b context Hpoll Hposed)
    as (i & active & bones & Hi & Hactive & Hpose).
  unfold OP_PasteSocket_execute. destruct (precheck (clipboard b)); [|done].
  destruct (parse_blocks _ _ _) as [temp [sos|e1]] eqn:Hparse.
  - destruct (create_sockets _ _ _ _ _) as [b1 [n|e2]] eqn:Hrun; [done|].
    intros [= _ <-].
    destruct (create_sockets_raises size context i active bones sos Hi Hpose
                0 (ensure_collection (set_temp_dict temp b)) b1 e2)
      as [-> | ->]; try done.
    by rewrite ensure_collection_objects.
  - intros [= _ <-]. by eapply parse_blocks_raises.
Qed.

(** X12.  Where the create operator is available (an active object of type
    [ARMATURE] or [MESH]) its only exception is the [ValueError] of a matrix
    without inverse, and that one comes late: the socket has been added to
    the scene, linked into [UE4Socket] and made a child of the active
    object, and its parent inverse is still the identity. *)
Theorem create_available_outcome (socket_name : string) (size : float)
    (rotation : Vector.t) (b b' : BlendData) (locals locals' : gmap nat Local.t)
    (context : BoneContext) (e : exn) :
  OP_CreateSocket_poll b (base context) = true ->
  OP_CreateSocket_execute socket_name size rotation b locals context
  = (b', locals', Raise e) ->
  e = ValueError
  /\ exists socket,
      objects b' = objects b ++ [socket]
      /\ Object.is_socket socket = true
      /\ Object.parent socket = active_object (base context)
      /\ Object.matrix_parent_inverse socket = Identity
      /\ exists linked, collections b' !! "UE4Socket" = Some linked
                        /\ length (objects b) ∈ linked.
Proof.
  unfold OP_CreateSocket_poll, deref.
  destruct (active_object (base context)) as [i|] eqn:Hi; [|done]. cbn.
  destruct (objects b !! i) as [active|] eqn:Hactive; [|done]. intros _.
  rewrite (create_socket_run socket_name size rotation b locals context i
             active Hi Hactive).
  destruct (inverted _); [done|]. intros [= <- _ <-]. split; [done|].
  eexists. split; [reflexivity|]. repeat split.
  apply ensure_collection_linked_to.
Qed.

(** X4.  Where the copy operator is available (object mode, an active
    object of type [ARMATURE]) and the armatures of the scene have a pose,
    it ends normally exactly when, for every selected socket whose parent
    bone the armature has, the product of the armature's world matrix and the
    bone's pose matrix has an inverse.  Otherwise it ends with [ValueError]
    and has changed nothing: the clipboard keeps its old text.  A bone that
    carries no selected socket plays no part. *)
Theorem copy_available_outcome (b : BlendData) (context : Context) :
  OP_CopySocket_poll b context = true ->
  armatures_posed b ->
  exists i active bones,
    active_object context = Some i
    /\ objects b !! i = Some active
    /\ Object.pose active = Some bones
    /\ ((exists b' msg, OP_CopySocket_execute b context = (b', Ok msg))
        <-> forall s pb,
            s ∈ socket_bone_objects b i ->
            bones_get bones (Object.parent_bone s) = Some pb ->
            is_Some (inverted (Object.matrix_world active
                               @ PoseBone.matrix pb)))
    /\ forall b' e,
        OP_CopySocket_execute b context = (b', Raise e) ->
        b' = b /\ e = ValueError.
Proof.
  unfold OP_CopySocket_poll. rewrite andb_true_iff. intros [_ Hpoll] Hposed.
  destruct (armature_active b context Hpoll Hposed)
    as (i & active & bones & Hi & Hactive & Hpose).
  exists i, active, bones. repeat (split; [done|]).
  by apply copy_outcome.
Qed.
End Polls.

(** ** Where the value of a key that a block leaves out comes from *)

Section Merged.
Context `{PyFloatText} `{Mathutils}.

Lemma merged_cons (d : gmap string string) (dicts : list (gmap string string))
    (temp : gmap string string) :
  merged (d :: dicts) temp = merged dicts (d ∪ temp).
Proof. reflexivity. Qed.

Lemma merged_snoc (dicts : list (gmap string string))
    (d temp : gmap string string) :
  merged (dicts ++ [d]) temp = d ∪ merged dicts temp.
Proof. unfold merged. by rewrite foldl_snoc. Qed.

Lemma parse_blocks_merged (clipboard_list : list string)
    (indices : list nat) :
  forall (temp temp' : gmap string string) (sos : list SocketObject.t),
    parse_blocks clipboard_list indices temp = (temp', Ok sos) ->
    exists dicts,
      Forall2 (fun index d =>
                 scan_block (drop (S index) clipboard_list) ∅ = Ok d)
        indices dicts
      /\ temp' = merged dicts temp
      /\ forall k so,
          sos !! k = Some so ->
          SocketObject_init (merged (take k dicts) temp)
            (default ∅ (dicts !! k))
          = (merged (take (S k) dicts) temp, Ok so).
Proof.
  induction indices as [|index indices IH]; intros temp temp' sos; cbn.
  - intros [= <- <-]. exists []. split; [constructor|]. by split.
  - destruct (scan_block _ _) as [d|] eqn:Hscan; [|done].
    destruct (SocketObject_init temp d) as [temp1 [so|]] eqn:Hinit; [|done].
    destruct (parse_blocks clipboard_list indices temp1)
      as [temp2 [sos'|]] eqn:Hrest; [|done].
    intros [= <- <-].
    destruct (IH _ _ _ Hrest) as (dicts & Hscans & -> & Hk).
    pose proof (SocketObject_init_Ok _ _ _ _ Hinit) as (-> & _).
    exists (d :: dicts). split; [by constructor|]. split; [done|].
    intros [|k] so' Hso'; cbn in Hso'.
    + injection Hso' as <-. exact Hinit.
    + cbn [take lookup list_lookup]. rewrite !merged_cons. by apply Hk.
Qed.

(** X14.  The records of a paste and the class's [_temp_dict].  When the
    blocks of a clipboard are parsed without an exception, the record of the
    block at position [k] is built from the keywords of that block merged
    over those of all blocks before it, over what [_temp_dict] held when the
    paste began: its names are the values of [SocketName] and [BoneName] in
    that merged dict and its three compound fields are parsed from it.  So a
    key that the block leaves out takes the value of the nearest earlier
    block that gives it, of this paste or of an earlier one, and the value of
    the class body only when no block ever gave it; and [_temp_dict] ends as
    the merge of all blocks. *)
Theorem parse_blocks_merges (clipboard_list : list string)
    (indices : list nat) (temp temp' : gmap string string)
    (sos : list SocketObject.t) :
  parse_blocks clipboard_list indices temp = (temp', Ok sos) ->
  exists dicts,
    Forall2 (fun index d =>
               scan_block (drop (S index) clipboard_list) ∅ = Ok d)
      indices dicts
    /\ temp' = merged dicts temp
    /\ forall k d so,
        dicts !! k = Some d ->
        sos !! k = Some so ->
        let before := merged (take k dicts) temp in
        (forall key,
           (d ∪ before) !! key
           = match d !! key with Some v => Some v | None => before !! key end)
        /\ (d ∪ before) !! "SocketName" = Some (SocketObject.SocketName so)
        /\ (d ∪ before) !! "BoneName" = Some (SocketObject.BoneName so)
        /\ update_transform (d ∪ before)
           = Ok (SocketObject.RelativeLocation so,
                 SocketObject.RelativeRotation so,
                 SocketObject.RelativeScale so).
Proof.
  intros Hparse.
  destruct (parse_blocks_merged _ _ _ _ _ Hparse) as (dicts & Hscans & -> & Hk).
  exists dicts. split; [done|]. split; [done|].
  intros k d so Hd Hso before. specialize (Hk k so Hso).
  rewrite Hd in Hk. cbn [default] in Hk.
  apply SocketObject_init_Ok in Hk as (_ & Hupd & Hsn & Hbn).
  rewrite (take_S_r _ _ _ Hd), merged_snoc in Hupd, Hsn, Hbn.
  split; [|done]. intros key. rewrite lookup_union.
  destruct (d !! key), (before !! key); done.
Qed.
End Merged.

(** ** A copy followed by a paste *)

(** *** Strings *)

Lemma rev_app_app (s t acc : string) :
  String.rev_app (s +:+ t) acc = String.rev_app t (String.rev_app s acc).
Proof.
  revert acc. induction s as [|c s IH]; intros acc; [done|].
  rewrite append_cons. cbn. apply IH.
Qed.

Lemma rev_snoc (s : string) (c : ascii) :
  String.rev (s +:+ String c "") = String c (String.rev s).
Proof. unfold String.rev. by rewrite rev_app_app. Qed.

Lemma rev_app_rev_app (s t u : string) :
  String.rev_app (String.rev_app s t) u = String.rev_app t (s +:+ u).
Proof.
  revert t u. induction s as [|c s IH]; intros t u; [done|].
  cbn. rewrite IH. by rewrite append_cons.
Qed.

Lemma rev_involutive (s : string) : String.rev (String.rev s) = s.
Proof. unfold String.rev. rewrite rev_app_rev_app. cbn. apply append_nil_r. Qed.

Lemma rev_cons (c : ascii) (s : string) :
  String.rev (String c s) = String.rev s +:+ String c "".
Proof.
  rewrite <- (rev_involutive (String.rev s +:+ String c "")).
  by rewrite rev_snoc, rev_involutive.
Qed.

Lemma lstrip_snoc (p : ascii -> bool) (s : string) (c : ascii) :
  PyStr.lstrip_with p (s +:+ String c "")
  = match PyStr.lstrip_with p s with
    | EmptyString => if p c then "" else String c ""
    | r => r +:+ String c ""
    end.
Proof.
  induction s as [|a s IH]; [done|]. rewrite append_cons. cbn.
  destruct (p a); [exact IH | done].
Qed.

Lemma rstrip_nil (p : ascii -> bool) : PyStr.rstrip_with p "" = "".
Proof. reflexivity. Qed.

(** [rstrip], read from the left. *)
Lemma rstrip_cons (p : ascii -> bool) (c : ascii) (s : string) :
  PyStr.rstrip_with p (String c s)
  = match PyStr.rstrip_with p s with
    | EmptyString => if p c then "" else String c ""
    | r => String c r
    end.
Proof.
  unfold PyStr.rstrip_with. rewrite rev_cons, lstrip_snoc.
  destruct (PyStr.lstrip_with p (String.rev s)) as [|a r] eqn:Hr.
  - by destruct (p c).
  - rewrite rev_snoc. rewrite rev_cons.
    by destruct (String.rev r).
Qed.

Lemma rstrip_all (p : ascii -> bool) (s : string) :
  all_chars (fun c => negb (p c)) s = true -> PyStr.rstrip_with p s = s.
Proof.
  induction s as [|c s IH]; [done|]. cbn [all_chars]. rewrite andb_true_iff.
  intros [Hc Hs]. rewrite rstrip_cons, IH by done.
  apply negb_true_iff in Hc. rewrite Hc. by destruct s.
Qed.

Lemma rstrip_app_keep (p : ascii -> bool) (s t : string) :
  PyStr.rstrip_with p t <> "" ->
  PyStr.rstrip_with p (s +:+ t) = s +:+ PyStr.rstrip_with p t.
Proof.
  intros Ht. induction s as [|c s IH]; [done|].
  rewrite !append_cons, rstrip_cons, IH.
  destruct (PyStr.rstrip_with p t) as [|a r]; [done|].
  by destruct s.
Qed.

Lemma rstrip_snoc_drop (p : ascii -> bool) (s : string) (c : ascii) :
  p c = true ->
  PyStr.rstrip_with p (s +:+ String c "") = PyStr.rstrip_with p s.
Proof.
  intros Hc. unfold PyStr.rstrip_with. rewrite rev_snoc. cbn. by rewrite Hc.
Qed.

Lemma lstrip_all (p : ascii -> bool) (s : string) :
  all_chars (fun c => negb (p c)) s = true -> PyStr.lstrip_with p s = s.
Proof.
  destruct s as [|c s]; [done|]. cbn. rewrite andb_true_iff.
  intros [Hc _]. apply negb_true_iff in Hc. by rewrite Hc.
Qed.

Lemma strip_all (s : string) :
  all_chars (fun c => negb (PyStr.isspace c)) s = true -> PyStr.strip s = s.
Proof.
  intros Hs. unfold PyStr.strip. by rewrite lstrip_all, rstrip_all.
Qed.

(** A line that starts and ends with a character that is no white space is
    its own [strip]. *)
Lemma strip_line (c d : ascii) (s : string) :
  PyStr.isspace c = false -> PyStr.isspace d = false ->
  PyStr.strip (String c (s +:+ String d "")) = String c (s +:+ String d "").
Proof.
  intros Hc Hd. unfold PyStr.strip. cbn [PyStr.lstrip_with]. rewrite Hc.
  rewrite <- append_cons. rewrite rstrip_app_keep.
  - by rewrite rstrip_cons, rstrip_nil, Hd.
  - by rewrite rstrip_cons, rstrip_nil, Hd.
Qed.

(** Quotes around a text go with the quotes of the text. *)
Lemma strip_chars_quoted (p : ascii -> bool) (c : ascii) (s : string) :
  p c = true ->
  PyStr.rstrip_with p (PyStr.lstrip_with p (String c (s +:+ String c "")))
  = PyStr.rstrip_with p (PyStr.lstrip_with p s).
Proof.
  intros Hc. cbn [PyStr.lstrip_with]. rewrite Hc, lstrip_snoc, Hc.
  destruct (PyStr.lstrip_with p s) as [|a r]; [done|].
  by rewrite rstrip_snoc_drop.
Qed.

Lemma all_chars_app (p : ascii -> bool) (s t : string) :
  all_chars p (s +:+ t) = all_chars p s && all_chars p t.
Proof.
  induction s as [|c s IH]; [done|]. rewrite append_cons. cbn.
  by rewrite IH, andb_assoc.
Qed.

Lemma all_chars_impl (p q : ascii -> bool) (s : string) :
  (forall c, p c = true -> q c = true) ->
  all_chars p s = true -> all_chars q s = true.
Proof.
  intros Hpq. induction s as [|c s IH]; [done|]. cbn.
  rewrite !andb_true_iff. intros [Hc Hs]. split; [by apply Hpq | by apply IH].
Qed.

Lemma split_app (sep : ascii) (s t : string) :
  all_chars (fun c => negb (Ascii.eqb c sep)) s = true ->
  PyStr.split sep (s +:+ String sep t) = s :: PyStr.split sep t.
Proof.
  induction s as [|c s IH]; cbn [all_chars].
  - intros _. change (PyStr.split sep (String sep t) = "" :: PyStr.split sep t).
    cbn. by rewrite Ascii.eqb_refl.
  - rewrite andb_true_iff. intros [Hc Hs]. apply negb_true_iff in Hc.
    rewrite append_cons. cbn [PyStr.split]. by rewrite Hc, IH.
Qed.

Lemma split_all (sep : ascii) (s : string) :
  all_chars (fun c => negb (Ascii.eqb c sep)) s = true ->
  PyStr.split sep s = [s].
Proof.
  induction s as [|c s IH]; cbn; [done|].
  rewrite andb_true_iff. intros [Hc Hs]. apply negb_true_iff in Hc.
  by rewrite Hc, IH.
Qed.

Lemma splitlines_line (l rest : string) :
  one_line l = true ->
  PyStr.splitlines (l +:+ nl +:+ rest) = l :: PyStr.splitlines rest.
Proof.
  unfold one_line. induction l as [|c l IH]; cbn [all_chars].
  - intros _. by destruct rest.
  - rewrite andb_true_iff. intros [Hc Hl]. apply negb_true_iff in Hc.
    rewrite append_cons. cbn [PyStr.splitlines]. by rewrite Hc, IH.
Qed.

Lemma unlines_cons (l : string) (ls : list string) :
  unlines (l :: ls) = l +:+ nl +:+ unlines ls.
Proof. unfold unlines. by rewrite fmap_cons, join_cons, append_assoc. Qed.

Lemma unlines_app (ls1 ls2 : list string) :
  unlines (ls1 ++ ls2) = unlines ls1 +:+ unlines ls2.
Proof.
  induction ls1 as [|l ls1 IH]; [done|]. cbn [app].
  by rewrite !unlines_cons, IH, !append_assoc.
Qed.

Lemma splitlines_unlines (ls : list string) :
  Forall (fun l => one_line l = true) ls ->
  PyStr.splitlines (unlines ls) = ls.
Proof.
  induction 1 as [|l ls Hl _ IH]; [done|].
  by rewrite unlines_cons, splitlines_line, IH.
Qed.

Lemma pretty_N_go_all (p : ascii -> bool) (x : N) :
  (forall d, p (pretty_N_char d) = true) ->
  forall s, all_chars p s = true -> all_chars p (pretty_N_go x s) = true.
Proof.
  intros Hp. induction (N.lt_wf_0 x) as [x _ IH]; intros s Hs.
  assert (x = 0 \/ 0 < x)%N as [->|Hx] by lia.
  - by rewrite pretty_N_go_0.
  - rewrite pretty_N_go_step by done. apply IH.
    + by apply N.div_lt.
    + cbn. by rewrite Hp.
Qed.

Lemma of_nat_all (p : ascii -> bool) (n : nat) :
  (forall d, p (pretty_N_char d) = true) ->
  all_chars p (PyStr.of_nat n) = true.
Proof.
  intros Hp. unfold PyStr.of_nat, pretty, pretty_nat, pretty, pretty_N.
  destruct (decide (N.of_nat n = 0%N));
    [cbn; by rewrite (Hp 0%N : p "0"%char = true)|].
  by apply pretty_N_go_all.
Qed.

Lemma of_nat_one_line (n : nat) : one_line (PyStr.of_nat n) = true.
Proof.
  apply of_nat_all. intros d. unfold pretty_N_char.
  by repeat case_match.
Qed.

(** *** The lines of a block and what the parser reads off them *)

Lemma append_nil_l (s : string) : "" +:+ s = s.
Proof. reflexivity. Qed.

Create Rewrite HintDb flat.
#[local] Hint Rewrite append_assoc append_cons append_nil_l : flat.

Section BlockLines.
Context `{PyFloatText} `{Mathutils}.

Lemma header_unlines (n : nat) : header n = unlines (header_lines n).
Proof.
  unfold header, header_lines, unlines, join, nl. cbn [fmap list_fmap foldr].
  autorewrite with flat. reflexivity.
Qed.

Lemma block_unlines (index : nat) (socket_name bone_name : string)
    (location rotation scale : Vector.t) :
  block index socket_name bone_name location rotation scale
  = unlines (block_lines index socket_name bone_name location rotation scale).
Proof.
  unfold block, block_lines, unlines, join, quoted_line, compound_line, triple,
    BEGIN_NAMED, BEGIN_CLASS, nl, dq.
  cbn [fmap list_fmap foldr]. autorewrite with flat. reflexivity.
Qed.

Lemma linebreak_isspace (c : ascii) :
  PyStr.is_linebreak c = true -> PyStr.isspace c = true.
Proof. by destruct c as [[] [] [] [] [] [] [] []]. Qed.

Lemma numeral_no_space (s : string) :
  numeral s = true -> all_chars (fun c => negb (PyStr.isspace c)) s = true.
Proof.
  apply all_chars_impl. intros c. rewrite andb_true_iff. by intros [? _].
Qed.

Lemma numeral_no_comma (s : string) :
  numeral s = true -> all_chars (fun c => negb (Ascii.eqb c ",")) s = true.
Proof.
  apply all_chars_impl. intros c. rewrite andb_true_iff. intros [_ Hc].
  cbn in Hc. by destruct (Ascii.eqb c ",").
Qed.

Lemma numeral_no_paren (s : string) :
  numeral s = true ->
  all_chars (fun c => negb (PyStr.member "()" c)) s = true.
Proof.
  apply all_chars_impl. intros c. rewrite andb_true_iff. intros [_ Hc].
  cbn in Hc |- *. by destruct (Ascii.eqb c ",").
Qed.

Lemma numeral_one_line (s : string) : numeral s = true -> one_line s = true.
Proof.
  apply all_chars_impl. intros c. rewrite andb_true_iff. intros [Hc _].
  destruct (PyStr.is_linebreak c) eqn:Hl; [|done].
  by rewrite (linebreak_isspace c Hl) in Hc.
Qed.

Lemma split1_key (key value : string) :
  PyStr.member key "=" = false ->
  PyStr.split1 "=" (key +:+ String "=" value) = [key; value].
Proof.
  induction key as [|c key IH]; [done|]. cbn [PyStr.member].
  rewrite orb_false_iff, (Ascii.eqb_sym "=" c). intros [Hc Hkey].
  rewrite append_cons. cbn [PyStr.split1]. by rewrite Hc, IH.
Qed.

Lemma prefix_cons_ne (a b : ascii) (s t : string) :
  a <> b -> String.prefix (String a s) (String b t) = false.
Proof. intros Hne. cbn. by destruct (ascii_dec a b). Qed.

Lemma begin_named_no_prefix (c1 c2 : ascii) (s : string) :
  c1 <> "B"%char \/ c2 <> "e"%char ->
  String.prefix BEGIN_NAMED (String c1 (String c2 s)) = false.
Proof.
  intros Hne. unfold BEGIN_NAMED, BEGIN_CLASS. rewrite !append_cons.
  cbn [String.prefix]. destruct (ascii_dec "B" c1) as [<-|]; [|done].
  destruct (ascii_dec "e" c2) as [<-|]; [|done]. by destruct Hne.
Qed.

Lemma strip_quoted_line (c : ascii) (k v : string) :
  PyStr.isspace c = false ->
  PyStr.strip (quoted_line (String c k) v) = quoted_line (String c k) v.
Proof.
  intros Hc. unfold quoted_line.
  replace (String c k +:+ String "=" (String "034" (v +:+ String "034" "")))
    with (String c ((k +:+ String "=" (String "034" v)) +:+ String "034" ""))
    by (autorewrite with flat; reflexivity).
  by apply strip_line.
Qed.

Lemma strip_compound_line (c : ascii) (k body : string) :
  PyStr.isspace c = false ->
  PyStr.strip (compound_line (String c k) body)
  = compound_line (String c k) body.
Proof.
  intros Hc. unfold compound_line.
  replace (String c k +:+ String "=" (String "(" (body +:+ String ")" "")))
    with (String c ((k +:+ String "=" (String "(" body)) +:+ String ")" ""))
    by (autorewrite with flat; reflexivity).
  by apply strip_line.
Qed.

Lemma strip_begin_line (index : nat) :
  PyStr.strip (BEGIN_NAMED +:+ (PyStr.of_nat index +:+ String "034" ""))
  = BEGIN_NAMED +:+ (PyStr.of_nat index +:+ String "034" "").
Proof.
  rewrite <- append_assoc. unfold BEGIN_NAMED, BEGIN_CLASS.
  rewrite (append_cons "B"). by apply strip_line.
Qed.

Lemma unquoted_quoted (value : string) :
  unquoted (String "034" (value +:+ String "034" "")) = unquoted value.
Proof.
  unfold unquoted, PyStr.strip_chars at 2 4. f_equal.
  by apply strip_chars_quoted.
Qed.

Lemma strip_untouched (p : ascii -> bool) (a z : ascii) (s : string) :
  p a = false -> p z = false ->
  PyStr.rstrip_with p (PyStr.lstrip_with p (String a (s +:+ String z "")))
  = String a (s +:+ String z "").
Proof.
  intros Ha Hz. cbn [PyStr.lstrip_with]. rewrite Ha, <- append_cons.
  rewrite rstrip_app_keep; by rewrite rstrip_cons, rstrip_nil, Hz.
Qed.

Lemma strip_wrapped (p : ascii -> bool) (a z : ascii) (body : string) :
  p a = true -> p z = true ->
  all_chars (fun c => negb (p c)) body = true ->
  body <> "" ->
  PyStr.rstrip_with p (PyStr.lstrip_with p (String a (body +:+ String z "")))
  = body.
Proof.
  intros Ha Hz Hbody Hne. cbn [PyStr.lstrip_with]. rewrite Ha.
  destruct body as [|c body]; [done|]. pose proof Hbody as Hall.
  cbn [all_chars] in Hbody.
  apply andb_true_iff in Hbody as [Hc Hbody]. apply negb_true_iff in Hc.
  rewrite append_cons. cbn [PyStr.lstrip_with]. rewrite Hc.
  rewrite <- append_cons, rstrip_snoc_drop by done.
  by apply rstrip_all.
Qed.

Lemma unquoted_compound (body : string) :
  all_chars (fun c => negb (PyStr.member "()" c)) body = true ->
  body <> "" ->
  unquoted (String "(" (body +:+ String ")" "")) = body.
Proof.
  intros Hbody Hne. unfold unquoted, PyStr.strip_chars.
  rewrite (strip_untouched (PyStr.member dq)) by done.
  by apply strip_wrapped.
Qed.

Lemma scan_quoted (c1 c2 : ascii) (k v : string) (rest : list string)
    (d : gmap string string) :
  PyStr.isspace c1 = false -> c1 <> "E"%char ->
  PyStr.member (String c1 (String c2 k)) "=" = false ->
  scan_block (quoted_line (String c1 (String c2 k)) v :: rest) d
  = scan_block rest (<[String c1 (String c2 k) := unquoted v]> d).
Proof.
  intros Hc HE Hkey. cbn [scan_block]. rewrite strip_quoted_line by done.
  unfold PyStr.startswith, END_OBJECT, quoted_line at 1.
  rewrite (append_cons c1), prefix_cons_ne by done.
  unfold quoted_line. rewrite split1_key by done.
  fold (unquoted (String "034" (v +:+ String "034" ""))).
  by rewrite unquoted_quoted.
Qed.

Lemma scan_compound (c1 c2 : ascii) (k body : string) (rest : list string)
    (d : gmap string string) :
  PyStr.isspace c1 = false -> c1 <> "E"%char ->
  PyStr.member (String c1 (String c2 k)) "=" = false ->
  all_chars (fun c => negb (PyStr.member "()" c)) body = true ->
  body <> "" ->
  scan_block (compound_line (String c1 (String c2 k)) body :: rest) d
  = scan_block rest (<[String c1 (String c2 k) := body]> d).
Proof.
  intros Hc HE Hkey Hbody Hne. cbn [scan_block].
  rewrite strip_compound_line by done.
  unfold PyStr.startswith, END_OBJECT, compound_line at 1.
  rewrite (append_cons c1), prefix_cons_ne by done.
  unfold compound_line. rewrite split1_key by done.
  fold (unquoted (String "(" (body +:+ String ")" ""))).
  by rewrite unquoted_compound.
Qed.

Lemma not_begin_quoted (c1 c2 : ascii) (k v : string) :
  PyStr.isspace c1 = false -> c1 <> "B"%char \/ c2 <> "e"%char ->
  PyStr.startswith (PyStr.strip (quoted_line (String c1 (String c2 k)) v))
    BEGIN_NAMED = false.
Proof.
  intros Hc Hne. rewrite strip_quoted_line by done.
  unfold PyStr.startswith, quoted_line. rewrite !append_cons.
  by apply begin_named_no_prefix.
Qed.

Lemma not_begin_compound (c1 c2 : ascii) (k body : string) :
  PyStr.isspace c1 = false -> c1 <> "B"%char \/ c2 <> "e"%char ->
  PyStr.startswith (PyStr.strip (compound_line (String c1 (String c2 k)) body))
    BEGIN_NAMED = false.
Proof.
  intros Hc Hne. rewrite strip_compound_line by done.
  unfold PyStr.startswith, compound_line. rewrite !append_cons.
  by apply begin_named_no_prefix.
Qed.

Lemma begin_begin_line (index : nat) :
  PyStr.startswith
    (PyStr.strip (BEGIN_NAMED +:+ (PyStr.of_nat index +:+ String "034" "")))
    BEGIN_NAMED = true.
Proof.
  rewrite strip_begin_line. unfold PyStr.startswith. apply prefix_spec.
  by eexists.
Qed.
End BlockLines.

(** *** From the text of a copy to the records of a paste *)

Section Parsed.
Context `{PyFloatText} `{Mathutils}.

Lemma components_part (k : string) (x : float) (parts : list string)
    (acc : gmap string float) :
  numeral k = true -> PyStr.member k "=" = false -> reads_back x ->
  components ((k +:+ String "=" (py_repr x)) :: parts) acc
  = components parts (<[k := x]> acc).
Proof.
  intros Hk Hkey [Hnum Hfloat]. cbn [components].
  rewrite strip_all, split1_key, Hfloat; [done..|].
  rewrite all_chars_app. cbn [all_chars].
  by rewrite (numeral_no_space k), (numeral_no_space (py_repr x)).
Qed.

Lemma part_no_comma (k r : string) :
  numeral k = true -> numeral r = true ->
  all_chars (fun c => negb (Ascii.eqb c ",")) (k +:+ String "=" r) = true.
Proof.
  intros Hk Hr. rewrite all_chars_app. cbn [all_chars].
  by rewrite (numeral_no_comma k), (numeral_no_comma r).
Qed.

Lemma components_triple (k1 k2 k3 : string) (x1 x2 x3 : float) :
  numeral k1 = true -> PyStr.member k1 "=" = false ->
  numeral k2 = true -> PyStr.member k2 "=" = false ->
  numeral k3 = true -> PyStr.member k3 "=" = false ->
  reads_back x1 -> reads_back x2 -> reads_back x3 ->
  components
    (PyStr.split ","
       (triple k1 (py_repr x1) k2 (py_repr x2) k3 (py_repr x3))) ∅
  = Ok (<[k3 := x3]> (<[k2 := x2]> (<[k1 := x1]> ∅))).
Proof.
  intros Hk1 He1 Hk2 He2 Hk3 He3 Hx1 Hx2 Hx3. unfold triple.
  rewrite !split_app, split_all
    by (apply part_no_comma; [done | by apply Hx1 || apply Hx2 || apply Hx3]).
  by rewrite !components_part.
Qed.

Lemma triple_no_paren (k1 k2 k3 v1 v2 v3 : string) :
  numeral k1 = true -> numeral k2 = true -> numeral k3 = true ->
  numeral v1 = true -> numeral v2 = true -> numeral v3 = true ->
  all_chars (fun c => negb (PyStr.member "()" c)) (triple k1 v1 k2 v2 k3 v3)
  = true.
Proof.
  intros Hk1 Hk2 Hk3 Hv1 Hv2 Hv3. unfold triple.
  repeat first [rewrite all_chars_app | progress cbn [all_chars]].
  by rewrite !numeral_no_paren.
Qed.

Lemma triple_not_empty (c : ascii) (k1 k2 k3 v1 v2 v3 : string) :
  triple (String c k1) v1 k2 v2 k3 v3 <> "".
Proof. unfold triple. by rewrite !append_cons. Qed.

Lemma triple_one_line (k1 k2 k3 v1 v2 v3 : string) :
  numeral k1 = true -> numeral k2 = true -> numeral k3 = true ->
  numeral v1 = true -> numeral v2 = true -> numeral v3 = true ->
  one_line (triple k1 v1 k2 v2 k3 v3) = true.
Proof.
  intros Hk1 Hk2 Hk3 Hv1 Hv2 Hv3. unfold triple, one_line.
  repeat first [rewrite all_chars_app | progress cbn [all_chars]].
  pose proof numeral_one_line as Hone. unfold one_line in Hone.
  by rewrite !Hone.
Qed.
End Parsed.

Section ParsedBlocks.
Context `{PyFloatText} `{Mathutils}.

Lemma closed_lines :
  PyStr.startswith (PyStr.strip "IsOnSkeleton=1") BEGIN_NAMED = false
  /\ PyStr.startswith (PyStr.strip "End Object") BEGIN_NAMED = false
  /\ PyStr.startswith (PyStr.strip "") BEGIN_NAMED = false
  /\ PyStr.startswith (PyStr.strip "SocketCopyPasteBuffer") BEGIN_NAMED = false
  /\ PyStr.startswith (PyStr.strip "End Object") END_OBJECT = true.
Proof. repeat split; vm_compute; reflexivity. Qed.

Lemma not_begin_first (c : ascii) (s : string) :
  PyStr.isspace c = false -> c <> "B"%char ->
  PyStr.startswith (PyStr.strip (String c s)) BEGIN_NAMED = false.
Proof.
  intros Hc Hne. unfold PyStr.strip, PyStr.startswith.
  cbn [PyStr.lstrip_with]. rewrite Hc, rstrip_cons, Hc.
  unfold BEGIN_NAMED, BEGIN_CLASS. rewrite (append_cons "B").
  destruct (PyStr.rstrip_with PyStr.isspace s);
    apply prefix_cons_ne; congruence.
Qed.

Lemma length_lines_of (p : printed_block) : length (lines_of p) = 9.
Proof. by destruct p as [[[index name] bone] [[loc rot] scl]]. Qed.

Lemma block_scan (p : printed_block) (rest : list string) :
  printable p ->
  scan_block (drop 2 (lines_of p) ++ rest) ∅ = Ok (dict_of p).
Proof.
  destruct p as [[[index name] bone] [[loc rot] scl]].
  intros (Hname & Hbone & (Hl1 & Hl2 & Hl3) & (Hr1 & Hr2 & Hr3)
          & (Hs1 & Hs2 & Hs3)).
  cbn [lines_of block_lines drop app].
  rewrite !scan_quoted by done.
  rewrite !scan_compound;
    try done; try apply triple_not_empty;
    try (apply triple_no_paren; try done;
         by (apply Hl1 || apply Hl2 || apply Hl3 || apply Hr1 || apply Hr2
             || apply Hr3 || apply Hs1 || apply Hs2 || apply Hs3)).
Qed.

Lemma block_begin_indices (p : printed_block) (n : nat) (rest : list string) :
  begin_indices n (lines_of p ++ rest)
  = S n :: begin_indices (9 + n) rest.
Proof.
  destruct p as [[[index name] bone] [[loc rot] scl]].
  destruct closed_lines as (Hc1 & Hc2 & Hc3 & _).
  cbn [lines_of block_lines app begin_indices].
  rewrite begin_begin_line, !not_begin_quoted, !not_begin_compound, Hc1, Hc2,
    Hc3; try done; by (left + right).
Qed.

Lemma header_begin_indices (n : nat) (rest : list string) :
  begin_indices 0 (header_lines n ++ rest) = begin_indices 4 rest.
Proof.
  destruct closed_lines as (_ & _ & Hc3 & Hc4 & _).
  cbn [header_lines app begin_indices].
  rewrite Hc3, Hc4. rewrite (append_cons "N").
  by rewrite not_begin_first.
Qed.

Lemma block_dict_lookup (name bone : string) (loc rot scl : Vector.t) :
  let d := block_dict name bone loc rot scl in
  d !! "self" = None
  /\ d !! "SocketName" = Some (unquoted name)
  /\ d !! "BoneName" = Some (unquoted bone)
  /\ d !! "RelativeLocation"
     = Some (triple "X" (py_repr (Vector.x loc)) "Y" (py_repr (Vector.y loc))
                    "Z" (py_repr (Vector.z loc)))
  /\ d !! "RelativeRotation"
     = Some (triple "Pitch" (py_repr (Vector.y rot))
                    "Yaw" (py_repr (Vector.z rot))
                    "Roll" (py_repr (Vector.x rot)))
  /\ d !! "RelativeScale"
     = Some (triple "X" (py_repr (Vector.x scl)) "Y" (py_repr (Vector.y scl))
                    "Z" (py_repr (Vector.z scl))).
Proof.
  unfold block_dict. cbv zeta.
  repeat split;
    repeat first [rewrite lookup_insert_eq | rewrite lookup_insert_ne by done];
    done.
Qed.

Lemma block_init (p : printed_block) (temp : gmap string string) :
  printable p ->
  SocketObject_init temp (dict_of p) = (dict_of p ∪ temp, Ok (record_of p)).
Proof.
  destruct p as [[[index name] bone] [[loc rot] scl]].
  intros (Hname & Hbone & (Hl1 & Hl2 & Hl3) & (Hr1 & Hr2 & Hr3)
          & (Hs1 & Hs2 & Hs3)).
  cbn [dict_of record_of].
  destruct (block_dict_lookup name bone loc rot scl)
    as (Hself & Hsn & Hbn & Hloc & Hrot & Hscl).
  unfold SocketObject_init. rewrite Hself. f_equal.
  unfold update_transform, serialize, getitem.
  rewrite (lookup_union_Some_l _ temp _ _ Hloc),
    (lookup_union_Some_l _ temp _ _ Hrot),
    (lookup_union_Some_l _ temp _ _ Hscl),
    (lookup_union_Some_l _ temp _ _ Hsn),
    (lookup_union_Some_l _ temp _ _ Hbn).
  cbn [mbind Result_bind]. rewrite !components_triple by done.
  cbn [mbind Result_bind]. unfold negate_item, getitem.
  rewrite (lookup_insert_ne _ "Z" "Y"), (lookup_insert_eq _ "Y") by done.
  cbn [mbind Result_bind].
  rewrite (lookup_insert_ne _ "Roll" "Pitch"),
    (lookup_insert_ne _ "Yaw" "Pitch"), (lookup_insert_eq _ "Pitch") by done.
  cbn [mbind Result_bind].
  rewrite (lookup_insert_ne _ "Pitch" "Yaw"),
    (lookup_insert_ne _ "Roll" "Yaw"), (lookup_insert_eq _ "Yaw") by done.
  reflexivity.
Qed.

Lemma parse_printed (ps : list printed_block) :
  Forall printable ps ->
  forall (pre : list string) (temp : gmap string string),
    exists temp',
      parse_blocks (pre ++ concat (lines_of <$> ps))
        (begin_indices (length pre) (concat (lines_of <$> ps))) temp
      = (temp', Ok (record_of <$> ps)).
Proof.
  induction 1 as [|p ps Hp _ IH]; intros pre temp; [by exists temp|].
  rewrite fmap_cons. cbn [concat]. rewrite block_begin_indices.
  cbn [parse_blocks].
  replace (drop (S (S (length pre)))
             (pre ++ lines_of p ++ concat (lines_of <$> ps)))
    with (drop 2 (lines_of p) ++ concat (lines_of <$> ps)).
  2:{ replace (S (S (length pre))) with (length pre + 2) by lia.
      rewrite drop_app_add. rewrite drop_app_le; [done|].
      rewrite length_lines_of. lia. }
  rewrite block_scan, block_init by done.
  destruct (IH (pre ++ lines_of p) (dict_of p ∪ temp)) as [temp' Hrest].
  rewrite length_app, length_lines_of, <- app_assoc in Hrest.
  replace (9 + length pre) with (length pre + 9) by lia.
  rewrite Hrest. by exists temp'.
Qed.
End ParsedBlocks.

(** *** The round trip *)

Section RoundTripped.
Context `{PyFloatText} `{Mathutils}.

Lemma exported_fields_Some (active : Object.t) (pb : PoseBone.t)
    (s : Object.t) (fields : Vector.t * Vector.t * Vector.t) :
  exported_fields active pb s = Some fields ->
  exists inverse loc q scl,
    inverted (Object.matrix_world active @ PoseBone.matrix pb) = Some inverse
    /\ decompose (inverse @ Object.matrix_world s) = (loc, q, scl)
    /\ fields = (export_location loc, export_rotation (to_euler_XYZ q),
                 export_scale scl).
Proof.
  unfold exported_fields.
  destruct (inverted _) as [inverse|]; [|done]. cbn.
  destruct (decompose _) as [[loc q] scl] eqn:Hdec. intros [= <-].
  by exists inverse, loc, q, scl.
Qed.

Lemma exported_cons_Some (active : Object.t) (bones : list PoseBone.t)
    (s : Object.t) (sockets : list Object.t) (pb : PoseBone.t)
    (fields : Vector.t * Vector.t * Vector.t) :
  bones_get bones (Object.parent_bone s) = Some pb ->
  exported_fields active pb s = Some fields ->
  exported active bones (s :: sockets)
  = (s, pb, fields) :: exported active bones sockets.
Proof.
  intros Hget Hfields. unfold exported. cbn [omap list_omap].
  rewrite Hget. cbn [mbind option_bind]. by rewrite Hfields.
Qed.

Lemma exported_cons_None (active : Object.t) (bones : list PoseBone.t)
    (s : Object.t) (sockets : list Object.t) :
  bones_get bones (Object.parent_bone s) = None ->
  exported active bones (s :: sockets) = exported active bones sockets.
Proof.
  intros Hget. unfold exported. cbn [omap list_omap]. by rewrite Hget.
Qed.

Lemma printed_cons_Some (active : Object.t) (bones : list PoseBone.t)
    (index : nat) (s : Object.t) (sockets : list Object.t) (pb : PoseBone.t)
    (fields : Vector.t * Vector.t * Vector.t) :
  bones_get bones (Object.parent_bone s) = Some pb ->
  exported_fields active pb s = Some fields ->
  printed active bones index (s :: sockets)
  = (index, Object.name s, Object.parent_bone s, fields)
    :: printed active bones (S index) sockets.
Proof.
  intros Hget Hfields. cbn [printed]. rewrite Hget. cbn [mbind option_bind].
  by rewrite Hfields.
Qed.

Lemma printed_cons_None (active : Object.t) (bones : list PoseBone.t)
    (index : nat) (s : Object.t) (sockets : list Object.t) :
  bones_get bones (Object.parent_bone s) = None ->
  printed active bones index (s :: sockets)
  = printed active bones (S index) sockets.
Proof. intros Hget. cbn [printed]. by rewrite Hget. Qed.

Lemma printed_printable (active : Object.t) (bones : list PoseBone.t)
    (sockets : list Object.t) :
  (forall s, s ∈ sockets -> round_trips active bones s) ->
  forall index, Forall printable (printed active bones index sockets).
Proof.
  induction sockets as [|s sockets IH]; intros Hall index; [constructor|].
  assert (Hrest : forall s', s' ∈ sockets -> round_trips active bones s')
    by (intros s' Hs'; apply Hall; by right).
  destruct (Hall s) as [Hname Hbone]; [by left|].
  destruct (bones_get bones (Object.parent_bone s)) as [pb|] eqn:Hget.
  - destruct (Hbone pb eq_refl)
      as (Hline & _ & _ & loc & rot & scl & Hfields & Hloc & Hrot & Hscl).
    rewrite (printed_cons_Some _ _ _ _ _ _ _ Hget Hfields).
    constructor; [|by apply IH]. by repeat (split; [done|]).
  - rewrite (printed_cons_None _ _ _ _ _ Hget). by apply IH.
Qed.

Lemma copy_loop_printed (active : Object.t) (bones : list PoseBone.t)
    (sockets : list Object.t) :
  Object.pose active = Some bones ->
  (forall s, s ∈ sockets -> round_trips active bones s) ->
  forall (index : nat) (acc : string),
    copy_loop active index sockets acc
    = Ok (acc +:+ unlines (concat (lines_of
                                     <$> printed active bones index sockets))).
Proof.
  intros Hpose. induction sockets as [|s sockets IH]; intros Hall index acc.
  - cbn. by rewrite append_nil_r.
  - cbn [copy_loop].
    assert (Hrest : forall s', s' ∈ sockets -> round_trips active bones s')
      by (intros s' Hs'; apply Hall; by right).
    destruct (Hall s) as [_ Hbone]; [by left|].
    destruct (bones_get bones (Object.parent_bone s)) as [pb|] eqn:Hget.
    + destruct (Hbone pb eq_refl)
        as (_ & _ & _ & loc & rot & scl & Hfields & _).
      rewrite (printed_cons_Some _ _ _ _ _ _ _ Hget Hfields).
      apply exported_fields_Some in Hfields
        as (inverse & loc' & q & scl' & Hinv & Hdec & [= -> -> ->]).
      rewrite (copy_one_resolved _ _ _ _ _ _ _ _ _ Hpose Hget Hinv Hdec).
      cbn [mbind Result_bind]. rewrite IH by done.
      rewrite block_unlines, fmap_cons. cbn [concat lines_of].
      by rewrite unlines_app, append_assoc.
    + rewrite (copy_one_unresolved _ _ _ _ Hpose Hget),
        (printed_cons_None _ _ _ _ _ Hget).
      cbn [mbind Result_bind]. rewrite append_nil_r. by apply IH.
Qed.

Lemma block_record_complete (name bone : string) (loc rot scl : Vector.t) :
  complete (block_record name bone loc rot scl) = true.
Proof. reflexivity. Qed.

Lemma create_printed (size : float) (context : Context) (i : nat)
    (active : Object.t) (bones : list PoseBone.t) (sockets : list Object.t) :
  active_object context = Some i ->
  Object.pose active = Some bones ->
  (forall s, s ∈ sockets -> round_trips active bones s) ->
  forall (index num : nat) (b : BlendData),
    objects b !! i = Some active ->
    exists b',
      create_sockets size context
        (record_of <$> printed active bones index sockets) num b
      = (b', Ok (num + length (exported active bones sockets)))
      /\ objects b'
         = objects b
           ++ (pasted_back size i active <$> exported active bones sockets).
Proof.
  intros Hi Hpose. induction sockets as [|s sockets IH];
    intros Hall index num b Hactive.
  - exists b. cbn. by rewrite Nat.add_0_r, app_nil_r.
  - destruct (Hall s) as [_ Hbone]; [by left|].
    assert (Hrest : forall s', s' ∈ sockets -> round_trips active bones s')
      by (intros s' Hs'; apply Hall; by right).
    destruct (bones_get bones (Object.parent_bone s)) as [pb|] eqn:Hget.
    + destruct (Hbone pb eq_refl)
        as (_ & Hunq & [inverse Hinverse] & loc & rot & scl & Hfields & _).
      rewrite (printed_cons_Some _ _ _ _ _ _ _ Hget Hfields),
        (exported_cons_Some _ _ _ _ _ _ Hget Hfields).
      rewrite !fmap_cons. cbn [record_of create_sockets].
      rewrite Hi. unfold deref. cbn [mbind option_bind].
      rewrite Hactive, Hpose. cbn [SocketObject.BoneName block_record].
      rewrite Hunq, Hget.
      destruct (proj2 (create_socket_ends size i active pb
                         (block_record (Object.name s) (Object.parent_bone s)
                            loc rot scl) b))
        as [b1 Hb1].
      { split; [apply block_record_complete | by exists inverse]. }
      rewrite Hb1. apply create_socket_Ok in Hb1
        as (x & y & z & roll & pitch & yaw & sx & sy & sz & inverse'
            & Hx & Hy & Hz & Hroll & Hpitch & Hyaw & Hsx & Hsy & Hsz
            & Hinv' & ->).
      cbn [SocketObject.RelativeLocation SocketObject.RelativeRotation
           SocketObject.RelativeScale SocketObject.SocketName block_record]
        in Hx, Hy, Hz, Hroll, Hpitch, Hyaw, Hsx, Hsy, Hsz |- *.
      repeat first [rewrite lookup_insert_eq in Hx
                   | rewrite lookup_insert_ne in Hx by done].
      repeat first [rewrite lookup_insert_eq in Hy
                   | rewrite lookup_insert_ne in Hy by done].
      repeat first [rewrite lookup_insert_eq in Hz
                   | rewrite lookup_insert_ne in Hz by done].
      repeat first [rewrite lookup_insert_eq in Hroll
                   | rewrite lookup_insert_ne in Hroll by done].
      repeat first [rewrite lookup_insert_eq in Hpitch
                   | rewrite lookup_insert_ne in Hpitch by done].
      repeat first [rewrite lookup_insert_eq in Hyaw
                   | rewrite lookup_insert_ne in Hyaw by done].
      repeat first [rewrite lookup_insert_eq in Hsx
                   | rewrite lookup_insert_ne in Hsx by done].
      repeat first [rewrite lookup_insert_eq in Hsy
                   | rewrite lookup_insert_ne in Hsy by done].
      repeat first [rewrite lookup_insert_eq in Hsz
                   | rewrite lookup_insert_ne in Hsz by done].
      injection Hx as <-. injection Hy as <-. injection Hz as <-.
      injection Hroll as <-. injection Hpitch as <-. injection Hyaw as <-.
      injection Hsx as <-. injection Hsy as <-. injection Hsz as <-.
      unfold bone_tail_matrix in Hinverse. rewrite Hinverse in Hinv'.
      injection Hinv' as <-.
      match goal with
      | |- context [create_sockets _ _ _ _ ?b1] =>
          destruct (IH Hrest (S index) (S num) b1) as (b' & Hrun & Hobjs)
      end.
      { cbn [objects]. by apply lookup_app_l_Some. }
      exists b'. rewrite Hrun. split.
      * f_equal. f_equal. cbn [length]. lia.
      * rewrite Hobjs. cbn [objects pasted_back].
        rewrite <- app_assoc. cbn [app]. unfold bone_tail_matrix.
        by rewrite Hinverse.
    + rewrite (printed_cons_None _ _ _ _ _ Hget),
        (exported_cons_None _ _ _ _ Hget).
      by apply IH.
Qed.

Lemma length_exported_printed (active : Object.t) (bones : list PoseBone.t)
    (sockets : list Object.t) :
  forall index,
    length (exported active bones sockets)
    = length (printed active bones index sockets).
Proof.
  induction sockets as [|s sockets IH]; intros index; [done|].
  destruct (bones_get bones (Object.parent_bone s)) as [pb|] eqn:Hget.
  - destruct (exported_fields active pb s) as [fields|] eqn:Hfields.
    + rewrite (printed_cons_Some _ _ _ _ _ _ _ Hget Hfields),
        (exported_cons_Some _ _ _ _ _ _ Hget Hfields).
      cbn [length]. by rewrite (IH (S index)).
    + unfold exported. cbn [printed omap list_omap]. rewrite Hget.
      cbn [mbind option_bind]. rewrite Hfields. apply IH.
  - rewrite (printed_cons_None _ _ _ _ _ Hget),
      (exported_cons_None _ _ _ _ Hget).
    apply IH.
Qed.

Lemma occurs_in_unlines (l : string) (ls : list string) :
  l ∈ ls -> occurs_in l (unlines ls).
Proof.
  intros Hl. apply list_elem_of_split in Hl as (ls1 & ls2 & ->).
  exists (unlines ls1), (nl +:+ unlines ls2).
  by rewrite unlines_app, unlines_cons.
Qed.

Lemma occurs_in_prefix (a b s : string) :
  occurs_in (a +:+ b) s -> occurs_in a s.
Proof.
  intros (pre & post & ->). exists pre, (b +:+ post). by rewrite append_assoc.
Qed.

Lemma precheck_printed (n : nat) (p : printed_block) (ls : list string) :
  precheck (unlines (header_lines n ++ lines_of p ++ ls)) = true.
Proof.
  destruct p as [[[index name] bone] [[loc rot] scl]].
  unfold precheck. rewrite !andb_true_iff, !contains_spec. split; [split|].
  - by rewrite unlines_app, <- header_unlines.
  - apply (occurs_in_prefix _
             (" Name=" +:+ dq +:+ "SkeletalMeshSocket_"
              +:+ (PyStr.of_nat index +:+ String "034" ""))).
    apply occurs_in_unlines. apply elem_of_app. right. apply elem_of_app. left.
    cbn [lines_of block_lines]. right. left.
  - apply occurs_in_unlines. apply elem_of_app. right. apply elem_of_app. left.
    cbn [lines_of block_lines]. by do 7 right; left.
Qed.

Lemma lines_one_line (n : nat) (ps : list printed_block) :
  Forall printable ps ->
  Forall (fun l => one_line l = true)
    (header_lines n ++ concat (lines_of <$> ps)).
Proof.
  intros Hps. apply Forall_app. split.
  - unfold header_lines. repeat constructor.
    unfold one_line. rewrite all_chars_app.
    pose proof (of_nat_one_line n) as Hn. unfold one_line in Hn.
    by rewrite Hn.
  - induction Hps as [|p ps Hp _ IH]; [constructor|].
    rewrite fmap_cons. cbn [concat]. apply Forall_app. split; [|exact IH].
    destruct p as [[[index name] bone] [[loc rot] scl]].
    destruct Hp as (Hname & Hbone & (Hl1 & Hl2 & Hl3) & (Hr1 & Hr2 & Hr3)
                    & (Hs1 & Hs2 & Hs3)).
    pose proof (of_nat_one_line index) as Hindex.
    assert (Hq : forall key v, one_line key = true -> one_line v = true ->
                               one_line (quoted_line key v) = true).
    { intros key v Hkey Hv. unfold one_line, quoted_line in *.
      repeat first [rewrite all_chars_app | progress cbn [all_chars]].
      by rewrite Hkey, Hv. }
    assert (Hc : forall key body, one_line key = true ->
                                  one_line body = true ->
                                  one_line (compound_line key body) = true).
    { intros key body Hkey Hbody. unfold one_line, compound_line in *.
      repeat first [rewrite all_chars_app | progress cbn [all_chars]].
      by rewrite Hkey, Hbody. }
    assert (Ht : forall k1 k2 k3 v,
              numeral k1 = true -> numeral k2 = true -> numeral k3 = true ->
              reads_back_all v ->
              one_line (triple k1 (py_repr (Vector.x v)) k2
                          (py_repr (Vector.y v)) k3 (py_repr (Vector.z v)))
              = true).
    { intros k1 k2 k3 v Hk1 Hk2 Hk3 (Hv1 & Hv2 & Hv3).
      apply triple_one_line; try done;
        by (apply Hv1 || apply Hv2 || apply Hv3). }
    assert (Ht' : forall k1 k2 k3 v,
              numeral k1 = true -> numeral k2 = true -> numeral k3 = true ->
              reads_back_all v ->
              one_line (triple k1 (py_repr (Vector.y v)) k2
                          (py_repr (Vector.z v)) k3 (py_repr (Vector.x v)))
              = true).
    { intros k1 k2 k3 v Hk1 Hk2 Hk3 (Hv1 & Hv2 & Hv3).
      apply triple_one_line; try done;
        by (apply Hv1 || apply Hv2 || apply Hv3). }
    cbn [lines_of block_lines].
    constructor; [by vm_compute|].
    constructor.
    { unfold one_line in *. rewrite !all_chars_app, Hindex. by vm_compute. }
    constructor; [by apply Hq|]. constructor; [by apply Hq|].
    constructor; [apply Hc; [done | by apply Ht]|].
    constructor; [apply Hc; [done | by apply Ht']|].
    constructor; [apply Hc; [done | by apply Ht]|].
    constructor; [by vm_compute|]. constructor; [by vm_compute|]. constructor.
Qed.

(** A copy followed by a paste, as the embedding runs them: the text, the
    records and the objects in the store. *)
Lemma copy_then_paste_run (size : float) (b : BlendData) (context : Context)
    (i : nat) (active : Object.t) (bones : list PoseBone.t) :
  active_object context = Some i ->
  objects b !! i = Some active ->
  Object.pose active = Some bones ->
  (forall s, s ∈ socket_bone_objects b i -> round_trips active bones s) ->
  let sockets := socket_bone_objects b i in
  let back := exported active bones sockets in
  exists b1 b2 temp',
    OP_CopySocket_execute b context = (b1, Ok "Copy socket success")
    /\ parse_blocks (PyStr.splitlines (clipboard b1))
         (begin_indices 0 (PyStr.splitlines (clipboard b1))) (_temp_dict b1)
       = (temp', Ok (record_of <$> printed active bones 0 sockets))
    /\ OP_PasteSocket_execute size b1 context
       = (b2, Ok (paste_message (length back)))
    /\ objects b2 = objects b ++ (pasted_back size i active <$> back).
Proof.
  intros Hi Hactive Hpose Hall sockets back.
  set (ps := printed active bones 0 sockets).
  set (text := unlines (header_lines (length sockets)
                        ++ concat (lines_of <$> ps))).
  assert (Hcopy : OP_CopySocket_execute b context
                  = (set_clipboard text b, Ok "Copy socket success")).
  { unfold OP_CopySocket_execute, deref. rewrite Hi. cbn [mbind option_bind].
    rewrite Hactive. fold sockets.
    rewrite (copy_loop_printed active bones sockets Hpose Hall).
    fold ps. unfold text. by rewrite unlines_app, <- header_unlines. }
  exists (set_clipboard text b). rewrite Hcopy.
  assert (Hps : Forall printable ps) by by apply printed_printable.
  assert (Hlen : length back = length ps) by apply length_exported_printed.
  assert (Hsplit : PyStr.splitlines text
                   = header_lines (length sockets)
                     ++ concat (lines_of <$> ps))
    by (by apply splitlines_unlines, lines_one_line).
  destruct (parse_printed ps Hps (header_lines (length sockets))
              (_temp_dict b)) as [temp' Hparse].
  cbn [length header_lines] in Hparse.
  unfold OP_PasteSocket_execute. cbn [clipboard set_clipboard _temp_dict].
  rewrite Hsplit, header_begin_indices, Hparse.
  destruct (precheck text) eqn:Hpre.
  - destruct (create_printed size context i active bones sockets Hi Hpose Hall
                0 0 (ensure_collection
                       (set_temp_dict temp' (set_clipboard text b))))
      as (b2 & Hrun & Hobjs).
    { by rewrite ensure_collection_objects. }
    fold ps in Hrun. rewrite Hrun. exists b2, temp'. split; [done|].
    split; [done|]. split; [done|].
    by rewrite Hobjs, ensure_collection_objects.
  - destruct ps as [|p ps'] eqn:Hps'.
    + destruct back; [|done]. eexists _, temp'. split; [done|].
      split; [done|]. split; [done|]. cbn. by rewrite app_nil_r.
    + unfold text in Hpre. rewrite fmap_cons in Hpre. cbn [concat] in Hpre.
      by rewrite precheck_printed in Hpre.
Qed.

Lemma exported_bone (active : Object.t) (bones : list PoseBone.t)
    (sockets : list Object.t) (s : Object.t) (pb : PoseBone.t)
    (fields : Vector.t * Vector.t * Vector.t) :
  (s, pb, fields) ∈ exported active bones sockets ->
  PoseBone.name pb = Object.parent_bone s.
Proof.
  unfold exported. rewrite list_elem_of_omap. intros (s' & _ & Hs').
  destruct (bones_get bones (Object.parent_bone s')) as [pb'|] eqn:Hget;
    [|done].
  cbn in Hs'. destruct (exported_fields active pb' s'); [|done].
  injection Hs' as <- <- _. by apply bones_get_Some in Hget as [_ ?].
Qed.

End RoundTripped.

(** ** How the record builder ends *)

Section BuilderOutcome.
Context `{PyFloatText}.

Lemma serialize_raises_which (temp : gmap string string) (key : string)
    (e : exn) :
  serialize temp key = Raise e -> e = KeyError \/ e = ValueError.
Proof.
  unfold serialize, getitem. destruct (temp !! key); cbn.
  - intros Hc. right. by apply components_raises in Hc.
  - intros [= <-]. by left.
Qed.

Lemma negate_item_raises_which (d : gmap string float) (key : string)
    (e : exn) :
  negate_item d key = Raise e -> e = KeyError.
Proof.
  unfold negate_item, getitem. destruct (d !! key); cbn; [done|].
  by intros [= <-].
Qed.

Lemma update_transform_raises_which (temp : gmap string string) (e : exn) :
  update_transform temp = Raise e -> e = KeyError \/ e = ValueError.
Proof.
  unfold update_transform.
  destruct (serialize temp "RelativeLocation") as [l|e1] eqn:Hl; cbn;
    [|intros [= <-]; by eapply serialize_raises_which].
  destruct (serialize temp "RelativeRotation") as [r|e2] eqn:Hr; cbn;
    [|intros [= <-]; by eapply serialize_raises_which].
  destruct (serialize temp "RelativeScale") as [s|e3] eqn:Hs; cbn;
    [|intros [= <-]; by eapply serialize_raises_which].
  destruct (negate_item l "Y") as [l'|e4] eqn:Hl'; cbn;
    [|intros [= <-]; left; by eapply negate_item_raises_which].
  destruct (negate_item r "Pitch") as [r'|e5] eqn:Hr'; cbn;
    [|intros [= <-]; left; by eapply negate_item_raises_which].
  destruct (negate_item r' "Yaw") as [r''|e6] eqn:Hr''; cbn;
    [done | intros [= <-]; left; by eapply negate_item_raises_which].
Qed.

(** X15.  The constructor of [SocketObject], called with the keywords of a
    block.  A keyword [self] ends it with [TypeError] before anything is
    touched.  Otherwise the keywords are merged into the class's
    [_temp_dict] first, and they stay there however the call ends: normally,
    or with [KeyError] (a compound field or one of the components Y, Pitch
    and Yaw is missing) or [ValueError] (a component has no [=] or no
    number).  It raises nothing else. *)
Theorem SocketObject_init_outcome (temp bone : gmap string string) :
  match SocketObject_init temp bone with
  | (temp', Ok _) => bone !! "self" = None /\ temp' = bone ∪ temp
  | (temp', Raise e) =>
      (e = TypeError /\ is_Some (bone !! "self") /\ temp' = temp)
      \/ ((e = KeyError \/ e = ValueError)
          /\ bone !! "self" = None /\ temp' = bone ∪ temp)
  end.
Proof.
  unfold SocketObject_init. destruct (bone !! "self") as [v|]; [left; eauto|].
  destruct (update_transform (bone ∪ temp)) as [[[l r] s]|e] eqn:Hupd; cbn.
  - unfold getitem.
    destruct ((bone ∪ temp) !! "SocketName"); cbn; [|right; auto].
    destruct ((bone ∪ temp) !! "BoneName"); cbn; [done | right; auto].
  - right. split; [|done]. by eapply update_transform_raises_which.
Qed.
End BuilderOutcome.

(** ** The further properties at work *)

Lemma armatures_posed_checked `{Mathutils} (b : BlendData) :
  forallb (fun o => negb (String.eqb (Object.type o) "ARMATURE")
                    || bool_decide (is_Some (Object.pose o)))
    (objects b) = true ->
  armatures_posed b.
Proof.
  intros Hall o Ho Htype. rewrite forallb_forall in Hall.
  specialize (Hall o (proj1 (list_elem_of_In _ _) Ho)).
  rewrite Htype in Hall. cbn in Hall. by apply bool_decide_eq_true in Hall.
Defined.

Lemma paste_ends_normally_three_blocks :
  (exists b' msg,
     Scenes.paste 0.5 Scenes.three_blocks Scenes.context = (b', Ok msg))
  <-> forall so pb,
      so ∈ Workshop.three_records ->
      bones_get [Scenes.bone "hand"; Scenes.bone "head"]
        (SocketObject.BoneName so) = Some pb ->
      complete so = true
      /\ is_Some (inverted (bone_tail_matrix Scenes.armature pb)).
Proof.
  refine (paste_ends_normally_iff (H := Plain.text) 0.5 Scenes.three_blocks
            Scenes.context 0 Scenes.armature
            [Scenes.bone "hand"; Scenes.bone "head"]
            (fst Workshop.three_parsed) Workshop.three_records
            _ _ eq_refl eq_refl eq_refl);
    vm_compute; reflexivity.
Defined.

Lemma copy_available_three_sockets :
  exists i active bones,
    active_object Scenes.context = Some i
    /\ objects Scenes.three_sockets !! i = Some active
    /\ Object.pose active = Some bones
    /\ ((exists b' msg, Scenes.copy Scenes.three_sockets Scenes.context
                        = (b', Ok msg))
        <-> forall s pb,
            s ∈ socket_bone_objects Scenes.three_sockets i ->
            bones_get bones (Object.parent_bone s) = Some pb ->
            is_Some (inverted (Object.matrix_world active
                               @ PoseBone.matrix pb)))
    /\ forall b' e,
        Scenes.copy Scenes.three_sockets Scenes.context = (b', Raise e) ->
        b' = Scenes.three_sockets /\ e = ValueError.
Proof.
  refine (copy_available_outcome (H := Plain.text) Scenes.three_sockets
            Scenes.context eq_refl _).
  apply armatures_posed_checked. vm_compute. reflexivity.
Defined.

Lemma attach_filter_grip :
  attach_to_poll Workshop.attach_context (Scenes.socket "Grip" "hand") = true
  /\ OP_AttachObject_poll Workshop.attach_scene Workshop.attach_context = true.
Proof.
  split; [reflexivity|].
  exact (attach_filter_enables_poll Workshop.attach_scene
           Workshop.attach_context 2 1 Workshop.cube
           (Scenes.socket "Grip" "hand") eq_refl eq_refl eq_refl eq_refl
           eq_refl).
Defined.

Lemma attach_targets_live :
  forall (o : Object.t) (target : nat),
    o ∈ objects Workshop.attach_scene -> Object.attach_to o = Some target ->
    is_Some (objects Workshop.attach_scene !! target).
Proof.
  intros o target Ho Htarget.
  change (o ∈ [Scenes.armature; Scenes.socket "Grip" "hand"; Workshop.cube])
    in Ho.
  apply elem_of_cons in Ho as [->|Ho]; [discriminate|].
  apply elem_of_cons in Ho as [->|Ho]; [discriminate|].
  apply list_elem_of_singleton in Ho as ->. injection Htarget as <-.
  by eexists.
Defined.

Lemma attach_available_cube :
  exists i active b' cs',
    active_object Workshop.attach_context = Some i
    /\ objects Workshop.attach_scene !! i = Some active
    /\ Workshop.attach true Workshop.attach_scene Workshop.stacks
         Workshop.attach_context
       = (b', cs',
          Ok (if Object.is_attach_to_object active
              then "Detach Object Success" else "Attach Object Success"))
    /\ fmap (M := option) Object.is_attach_to_object (objects b' !! i)
       = Some (negb (Object.is_attach_to_object active))
    /\ forall j, i <> j ->
         objects b' !! j = objects Workshop.attach_scene !! j
         /\ stack_of cs' j = stack_of Workshop.stacks j.
Proof.
  exact (attach_available_ends_normally true Workshop.attach_scene
           Workshop.stacks Workshop.attach_context eq_refl attach_targets_live).
Defined.

Lemma attach_then_detach_cube :
  exists b1 cs1 b2 cs2,
    Workshop.attach true Workshop.attach_scene Workshop.stacks
      Workshop.attach_context
    = (b1, cs1, Ok "Attach Object Success")
    /\ stack_of cs1 2
       = [Constraint.mk "Limit" "LIMIT_LOCATION" None;
          Constraint.mk "attach_to" "CHILD_OF" (Some 1)]
    /\ Workshop.attach true b1 cs1 Workshop.attach_context
       = (b2, cs2, Ok "Detach Object Success")
    /\ (forall j, stack_of cs2 j = stack_of Workshop.stacks j)
    /\ b2 = assign 2
              (Object.set_matrix_world
                 (snapped (H0 := Workshop.snap) Workshop.cube
                    (Scenes.socket "Grip" "hand")))
              Workshop.attach_scene.
Proof.
  refine (attach_then_detach true Workshop.attach_scene Workshop.stacks
            Workshop.attach_context 2 1 Workshop.cube
            (Scenes.socket "Grip" "hand") eq_refl eq_refl eq_refl eq_refl
            eq_refl _ _).
  - intros Hin. change ("attach_to" ∈ ["Limit"]) in Hin.
    apply list_elem_of_singleton in Hin. discriminate Hin.
  - vm_compute. reflexivity.
Defined.


Lemma created_in_object_mode :
  let socket :=
    created_socket (H := Plain.scaled_translations) "name_socket" 1 0
      "OBJECT" ""
      (Vector.mk (-10) (-20) (-30), 1%float) in
  exists b' locals',
    Workshop.create "name_socket" 1 (Vector.mk 0 0 0) Workshop.lone_armature ∅
      Workshop.object_context
    = (b', locals', Ok ())
    /\ objects b' = objects Workshop.lone_armature ++ [socket]
    /\ is_bone_socket socket = false
    /\ socket_bone_objects b' 0 = socket_bone_objects Workshop.lone_armature 0.
Proof.
  exact (created_on_object_is_not_copied "name_socket" 1 (Vector.mk 0 0 0)
           Workshop.lone_armature ∅ Workshop.object_context 0 Scenes.armature
           (Vector.mk (-10) (-20) (-30), 1%float)
           eq_refl eq_refl eq_refl eq_refl).
Defined.

Lemma paste_available_no_scale_x :
  OP_PasteSocket_poll Scenes.no_scale_x Scenes.context = true
  /\ snd (Scenes.paste 0.5 Scenes.no_scale_x Scenes.context) = Raise KeyError
  /\ KeyError <> AttributeError.
Proof.
  split; [reflexivity|]. split; [vm_compute; reflexivity|].
  refine (paste_available_outcome (H := Plain.text) 0.5 Scenes.no_scale_x
            (fst (Scenes.paste 0.5 Scenes.no_scale_x Scenes.context))
            Scenes.context KeyError eq_refl _ _).
  - apply armatures_posed_checked. vm_compute. reflexivity.
  - vm_compute. reflexivity.
Defined.

Lemma create_available_flat :
  let run := Workshop.create "name_socket" 1 (Vector.mk 0 0 0)
               Workshop.flat_scene ∅ Workshop.object_context in
  OP_CreateSocket_poll Workshop.flat_scene Scenes.context = true
  /\ snd run = Raise ValueError
  /\ exists socket,
      objects (fst (fst run)) = objects Workshop.flat_scene ++ [socket]
      /\ Object.is_socket socket = true
      /\ Object.parent socket = Some 0
      /\ Object.matrix_parent_inverse socket = Identity
      /\ exists linked,
          collections (fst (fst run)) !! "UE4Socket" = Some linked
          /\ 1 ∈ linked.
Proof.
  intros run. split; [reflexivity|]. split; [vm_compute; reflexivity|].
  refine (proj2 (create_available_outcome "name_socket" 1 (Vector.mk 0 0 0)
                   Workshop.flat_scene (fst (fst run)) ∅ (snd (fst run))
                   Workshop.object_context ValueError eq_refl _)).
  vm_compute. reflexivity.
Defined.

Lemma three_sockets_round_trip :
  forall s : Object.t,
    s ∈ socket_bone_objects Scenes.three_sockets 0 ->
    round_trips (H := Plain.text) Scenes.armature
      [Scenes.bone "hand"; Scenes.bone "head"] s.
Proof.
  assert (Hfields : forall n b,
            exported_fields Scenes.armature (Scenes.bone b) (Scenes.socket n b)
            = Some (Vector.mk 1 (-2) 3, Vector.mk 0 (-0) (-0), Vector.mk 1 1 1))
    by (intros n b; vm_compute; reflexivity).
  assert (Hback : forall v : Vector.t,
            v = Vector.mk 1 (-2) 3 \/ v = Vector.mk 0 (-0) (-0)
            \/ v = Vector.mk 1 1 1 ->
            reads_back_all (H := Plain.text) v).
  { intros v [-> | [-> | ->]]; repeat split; vm_compute; reflexivity. }
  assert (Hbone : forall n b,
            one_line n = true -> one_line b = true -> unquoted b = b ->
            forall pb, Some (Scenes.bone b) = Some pb ->
            one_line (Object.parent_bone (Scenes.socket n b)) = true
            /\ unquoted (Object.parent_bone (Scenes.socket n b))
               = Object.parent_bone (Scenes.socket n b)
            /\ is_Some (inverted (bone_tail_matrix Scenes.armature pb))
            /\ exists location rotation scale,
                exported_fields Scenes.armature pb (Scenes.socket n b)
                = Some (location, rotation, scale)
                /\ reads_back_all (H := Plain.text) location
                /\ reads_back_all (H := Plain.text) rotation
                /\ reads_back_all (H := Plain.text) scale).
  { intros n b Hn Hb Hunq pb [= <-]. split; [exact Hb|]. split; [exact Hunq|].
    split; [eexists; vm_compute; reflexivity|].
    exists (Vector.mk 1 (-2) 3), (Vector.mk 0 (-0) (-0)), (Vector.mk 1 1 1).
    split; [apply Hfields|]. repeat split; apply Hback; auto. }
  intros s Hs.
  change (s ∈ [Scenes.socket "S1" "hand"; Scenes.socket "S2" "gone";
               Scenes.socket "S3" "head"]) in Hs.
  apply elem_of_cons in Hs as [->|Hs]; [|apply elem_of_cons in Hs as [->|Hs]].
  - split; [reflexivity|]. by apply (Hbone "S1" "hand").
  - split; [reflexivity|]. intros pb Hpb. discriminate Hpb.
  - apply list_elem_of_singleton in Hs as ->.
    split; [reflexivity|]. by apply (Hbone "S3" "head").
Defined.


Lemma parse_blocks_merges_three_blocks :
  exists dicts,
    Forall2 (fun index d =>
               scan_block
                 (drop (S index)
                    (PyStr.splitlines (clipboard Scenes.three_blocks))) ∅
               = Ok d)
      (begin_indices 0 (PyStr.splitlines (clipboard Scenes.three_blocks)))
      dicts
    /\ fst Workshop.three_parsed = merged dicts temp_dict_initial
    /\ forall k d so,
        dicts !! k = Some d ->
        Workshop.three_records !! k = Some so ->
        let before := merged (take k dicts) temp_dict_initial in
        (forall key,
           (d ∪ before) !! key
           = match d !! key with Some v => Some v | None => before !! key end)
        /\ (d ∪ before) !! "SocketName" = Some (SocketObject.SocketName so)
        /\ (d ∪ before) !! "BoneName" = Some (SocketObject.BoneName so)
        /\ update_transform (H := Plain.text) (d ∪ before)
           = Ok (SocketObject.RelativeLocation so,
                 SocketObject.RelativeRotation so,
                 SocketObject.RelativeScale so).
Proof.
  refine (parse_blocks_merges (H := Plain.text)
            (PyStr.splitlines (clipboard Scenes.three_blocks))
            (begin_indices 0 (PyStr.splitlines (clipboard Scenes.three_blocks)))
            temp_dict_initial (fst Workshop.three_parsed) Workshop.three_records
            _).
  vm_compute. reflexivity.
Defined.

(** * The count of a paste, from the blocks of the text *)

Section TextLines.

Lemma splitlines_first (s l : string) (ls : list string) :
  PyStr.splitlines s = l :: ls -> exists post, s = l +:+ post.
Proof.
  revert l ls. induction s as [|c s IH]; intros l ls; [done|].
  cbn [PyStr.splitlines]. destruct (PyStr.is_linebreak c).
  - intros [= <- _]. by exists (String c s).
  - destruct (PyStr.splitlines s) as [|l0 ls0] eqn:Hs.
    + intros [= <- _]. by exists s.
    + intros [= <- _]. destruct (IH l0 ls0 eq_refl) as [post ->].
      by exists post.
Qed.

Lemma occurs_in_cons (c : ascii) (l s : string) :
  occurs_in l s -> occurs_in l (String c s).
Proof. intros (pre & post & ->). by exists (String c pre), post. Qed.

Lemma occurs_in_nil (s : string) : occurs_in "" s.
Proof. by exists "", s. Qed.

Lemma splitlines_occurs (s : string) :
  (forall l, l ∈ PyStr.splitlines s -> occurs_in l s)
  /\ forall c l, l ∈ PyStr.splitlines (String c s) -> occurs_in l (String c s).
Proof.
  assert (Hstep : forall c s,
    (forall l, l ∈ PyStr.splitlines s -> occurs_in l s) ->
    (forall c' s', s = String c' s' ->
       forall l, l ∈ PyStr.splitlines s' -> occurs_in l s') ->
    forall l, l ∈ PyStr.splitlines (String c s) -> occurs_in l (String c s)).
  { intros c s0 Hs Htail l. cbn [PyStr.splitlines].
    destruct (PyStr.is_linebreak c).
    - intros Hl. apply elem_of_cons in Hl as [->|Hl]; [apply occurs_in_nil|].
      apply occurs_in_cons. destruct s0 as [|c' s']; [by apply elem_of_nil in Hl|].
      destruct (Ascii.eqb c "013" && Ascii.eqb c' "010").
      + apply occurs_in_cons. by eapply Htail.
      + by apply Hs.
    - destruct (PyStr.splitlines s0) as [|l0 ls0] eqn:Hlines.
      + intros Hl. apply list_elem_of_singleton in Hl as ->. by exists "", s0.
      + intros Hl. apply elem_of_cons in Hl as [->|Hl].
        * destruct (splitlines_first _ _ _ Hlines) as [post ->].
          by exists "", post.
        * apply occurs_in_cons, Hs. by right. }
  induction s as [|c' s IH].
  - split; [by intros l Hl; apply elem_of_nil in Hl|].
    intros c. apply Hstep; [by intros l Hl; apply elem_of_nil in Hl | done].
  - destruct IH as [IH1 IH2]. split; [apply IH2|].
    intros c. apply Hstep; [apply IH2|]. intros c'' s' [= <- <-]. exact IH1.
Qed.

Lemma occurs_in_trans (a b c : string) :
  occurs_in a b -> occurs_in b c -> occurs_in a c.
Proof.
  intros (pre & post & ->) (pre' & post' & ->).
  exists (pre' +:+ pre), (post +:+ post'). by rewrite !append_assoc.
Qed.

Lemma lstrip_occurs (p : ascii -> bool) (s : string) :
  occurs_in (PyStr.lstrip_with p s) s.
Proof.
  induction s as [|c s IH]; [apply occurs_in_nil|]. cbn.
  destruct (p c); [by apply occurs_in_cons|].
  exists "", "". by rewrite append_nil_r.
Qed.

Lemma rstrip_occurs (p : ascii -> bool) (s : string) :
  exists post, s = PyStr.rstrip_with p s +:+ post.
Proof.
  induction s as [|c s [post IH]]; [by exists ""|]. rewrite rstrip_cons.
  destruct (PyStr.rstrip_with p s) as [|a r].
  - destruct (p c); [by exists (String c s) | by exists s].
  - exists post. rewrite (append_cons c). by f_equal.
Qed.

Lemma strip_occurs (s : string) : occurs_in (PyStr.strip s) s.
Proof.
  unfold PyStr.strip. eapply occurs_in_trans; [|apply lstrip_occurs].
  destruct (rstrip_occurs PyStr.isspace (PyStr.lstrip_with PyStr.isspace s))
    as [post Hpost].
  by exists "", post.
Qed.

Lemma startswith_occurs (p l s : string) :
  PyStr.startswith (PyStr.strip l) p = true ->
  l ∈ PyStr.splitlines s ->
  occurs_in p s.
Proof.
  intros Hp Hl. apply prefix_spec in Hp as [post Hpost].
  eapply occurs_in_trans; [|by apply splitlines_occurs].
  eapply occurs_in_trans; [|apply strip_occurs].
  exists "", post. by rewrite Hpost.
Qed.

Lemma is_end_not_begin (s : string) : is_end s = true -> is_begin s = false.
Proof.
  unfold is_end, is_begin, PyStr.startswith, END_OBJECT.
  destruct (PyStr.strip s) as [|c t]; [done|]. cbn [String.prefix].
  destruct (ascii_dec "E" c) as [<-|]; [|done]. intros _.
  unfold BEGIN_NAMED, BEGIN_CLASS. rewrite (append_cons "B").
  by apply prefix_cons_ne.
Qed.
End TextLines.

Section TextBlocks.
Context `{PyFloatText} `{Mathutils}.

Lemma begin_indices_opens_none (gap rest : list string) :
  opens_none gap = true ->
  forall n, begin_indices n (gap ++ rest) = begin_indices (n + length gap) rest.
Proof.
  unfold opens_none. induction gap as [|s gap IH]; intros Hgap n.
  - cbn. by rewrite Nat.add_0_r.
  - cbn [forallb] in Hgap. apply andb_true_iff in Hgap as [Hs Hgap].
    apply negb_true_iff in Hs. unfold is_begin in Hs.
    cbn [app begin_indices length]. rewrite Hs, IH by done. f_equal. lia.
Qed.

Lemma body_opens_none (body : list string) :
  forallb (fun s => body_line s && negb (is_begin s)) body = true ->
  opens_none body = true /\ forallb body_line body = true.
Proof.
  unfold opens_none. induction body as [|s body IH]; [done|]. cbn [forallb].
  rewrite !andb_true_iff. intros [[Hb Hs] Hbody].
  destruct (IH Hbody) as [-> ->]. by rewrite Hb, Hs.
Qed.

Lemma begin_indices_block (B : TextBlock.t) (rest : list string) (n : nat) :
  TextBlock.valid B = true ->
  begin_indices n (TextBlock.lines B ++ rest)
  = n :: begin_indices (n + length (TextBlock.lines B)) rest.
Proof.
  unfold TextBlock.valid, TextBlock.lines. rewrite !andb_true_iff.
  intros [[Hopen Hbody] Hclose]. apply body_opens_none in Hbody as [Hbody _].
  apply is_end_not_begin in Hclose. unfold is_begin in Hopen, Hclose.
  cbn [app begin_indices]. rewrite Hopen, <- app_assoc.
  rewrite begin_indices_opens_none by done.
  cbn [app begin_indices length]. rewrite Hclose, length_app. cbn [length].
  do 2 f_equal. lia.
Qed.

Lemma scan_block_body (body : list string) (closing : string)
    (rest : list string) :
  forallb body_line body = true ->
  is_end closing = true ->
  forall d, scan_block (body ++ closing :: rest) d
            = Ok (foldl add_keyword d body).
Proof.
  intros Hbody Hclose. induction body as [|s body IH]; intros d.
  - cbn [app foldl scan_block]. unfold is_end in Hclose. by rewrite Hclose.
  - cbn [forallb] in Hbody. apply andb_true_iff in Hbody as [Hs Hbody].
    unfold body_line, is_end, has_equals in Hs.
    apply andb_true_iff in Hs as [Hend Heq]. apply negb_true_iff in Hend.
    cbn [app foldl scan_block]. rewrite Hend. unfold add_keyword.
    pose proof (split1_shape (PyStr.strip s)) as Hshape. rewrite Heq in Hshape.
    destruct Hshape as (key & value & ->). by apply IH.
Qed.

Lemma scan_block_text (B : TextBlock.t) (pre rest : list string) :
  TextBlock.valid B = true ->
  scan_block (drop (S (length pre)) (pre ++ TextBlock.lines B ++ rest)) ∅
  = Ok (block_keywords B).
Proof.
  unfold TextBlock.valid. rewrite !andb_true_iff.
  intros [[_ Hbody] Hclose]. apply body_opens_none in Hbody as [_ Hbody].
  replace (S (length pre)) with (length pre + 1) by lia.
  rewrite drop_app_add. unfold TextBlock.lines. cbn [app drop].
  rewrite <- app_assoc. cbn [app]. by apply scan_block_body.
Qed.

(** The lines that open a block in a clipboard made of well-formed blocks
    are the first lines of the blocks, and the loop over the block that
    starts at such a line reads the keywords of that block. *)
Lemma scan_laid_out (blocks : list (TextBlock.t * list string)) :
  forallb (fun Bg => TextBlock.valid (fst Bg) && opens_none (snd Bg)) blocks
  = true ->
  forall pre : list string,
    Forall2 (fun index B =>
               scan_block (drop (S index) (pre ++ laid_out blocks)) ∅
               = Ok (block_keywords B))
      (begin_indices (length pre) (laid_out blocks)) (fst <$> blocks).
Proof.
  induction blocks as [|[B gap] blocks IH]; intros Hwf pre; [constructor|].
  cbn [forallb fst snd] in Hwf. rewrite !andb_true_iff in Hwf.
  destruct Hwf as [[HB Hgap] Hwf]. cbn [laid_out].
  rewrite begin_indices_block, begin_indices_opens_none by done.
  rewrite fmap_cons. constructor; [by apply scan_block_text|].
  specialize (IH Hwf (pre ++ TextBlock.lines B ++ gap)).
  rewrite !length_app, <- !app_assoc in IH.
  by rewrite <- Nat.add_assoc.
Qed.

Lemma scans_unique (clipboard_list : list string) (indices : list nat)
    (dicts dicts' : list (gmap string string)) :
  Forall2 (fun index d =>
             scan_block (drop (S index) clipboard_list) ∅ = Ok d)
    indices dicts ->
  Forall2 (fun index d =>
             scan_block (drop (S index) clipboard_list) ∅ = Ok d)
    indices dicts' ->
  dicts = dicts'.
Proof.
  intros Hd. revert dicts'. induction Hd as [|index d indices dicts Hs _ IH];
    intros dicts' Hd'; inversion Hd' as [|? d' ? dicts'' Hs' Hrest]; subst;
    [done|].
  f_equal; [congruence | by apply IH].
Qed.

(** The records of the blocks of a well-formed clipboard, when each block
    carries a bone name: the record of a block has the bone name of that
    block. *)
Lemma parse_laid_out (gap : list string)
    (blocks : list (TextBlock.t * list string))
    (temp temp' : gmap string string) (sos : list SocketObject.t) :
  well_formed gap blocks = true ->
  Forall (fun Bg => is_Some (bone_name (fst Bg))) blocks ->
  parse_blocks (gap ++ laid_out blocks)
    (begin_indices 0 (gap ++ laid_out blocks)) temp
  = (temp', Ok sos) ->
  Forall2 (fun Bg so => bone_name (fst Bg) = Some (SocketObject.BoneName so))
    blocks sos.
Proof.
  unfold well_formed. rewrite andb_true_iff. intros [Hgap Hwf] Hnames Hparse.
  pose proof (parse_blocks_length _ _ _ _ _ Hparse) as Hlen.
  destruct (parse_blocks_merged _ _ _ _ _ Hparse) as (dicts & Hscans & _ & Hk).
  rewrite begin_indices_opens_none in Hscans, Hlen by done.
  pose proof (scan_laid_out blocks Hwf gap) as Hblocks. cbn [Nat.add] in *.
  assert (Hdicts : Forall2
            (fun index d =>
               scan_block (drop (S index) (gap ++ laid_out blocks)) ∅ = Ok d)
            (begin_indices (length gap) (laid_out blocks))
            (block_keywords <$> (fst <$> blocks)))
    by (by apply Forall2_fmap_r).
  clear Hblocks. rename Hdicts into Hblocks.
  rewrite (scans_unique _ _ _ _ Hscans Hblocks) in Hk.
  apply Forall2_length in Hblocks. rewrite !length_fmap in Hblocks.
  apply Forall2_same_length_lookup_2; [congruence|].
  intros k [B g] so HB Hso. cbn [fst].
  rewrite Forall_lookup in Hnames. destruct (Hnames k _ HB) as [n Hn].
  specialize (Hk k so Hso). rewrite !list_lookup_fmap, HB in Hk.
  cbn [fmap option_fmap option_map default fst] in Hk.
  apply SocketObject_init_Ok in Hk as (-> & _ & _ & Hbone).
  cbn [fst] in Hn. unfold bone_name in Hn |- *.
  rewrite (lookup_union_Some_l _ _ _ _ Hn) in Hbone. congruence.
Qed.

Lemma unresolved_names_no_bone (bones : list PoseBone.t)
    (blocks : list (TextBlock.t * list string)) (sos : list SocketObject.t) :
  Forall2 (fun Bg so => bone_name (fst Bg) = Some (SocketObject.BoneName so))
    blocks sos ->
  length (unresolved bones sos)
  = length (List.filter (names_no_bone bones) (fst <$> blocks)).
Proof.
  unfold unresolved.
  induction 1 as [|[B g] so blocks sos Hname _ IH]; [done|].
  rewrite fmap_cons. cbn [List.filter fst]. unfold names_no_bone at 1.
  cbn [fst] in Hname. rewrite Hname.
  destruct (negb _); cbn [length]; by rewrite IH.
Qed.

Lemma precheck_laid_out (clip : string) (gap : list string)
    (blocks : list (TextBlock.t * list string)) :
  PyStr.splitlines clip = gap ++ laid_out blocks ->
  well_formed gap blocks = true ->
  blocks <> [] ->
  precheck clip = true.
Proof.
  intros Hlines Hwf Hne. destruct blocks as [|[B g] blocks]; [done|].
  unfold well_formed in Hwf. cbn [forallb fst] in Hwf.
  rewrite !andb_true_iff in Hwf. destruct Hwf as [_ [[HB _] _]].
  unfold TextBlock.valid in HB. rewrite !andb_true_iff in HB.
  destruct HB as [[Hopen _] Hclose].
  assert (Hin : forall l, l ∈ TextBlock.lines B -> l ∈ PyStr.splitlines clip).
  { intros l Hl. rewrite Hlines. cbn [laid_out].
    apply elem_of_app. right. apply elem_of_app. by left. }
  unfold precheck. rewrite !andb_true_iff, !contains_spec, negb_true_iff.
  split; [split|].
  - apply String.eqb_neq. intros ->. specialize (Hin (TextBlock.opening B)).
    cbn in Hin. eapply elem_of_nil, Hin. by left.
  - apply (occurs_in_trans _ BEGIN_NAMED);
      [by exists "", (" Name=" +:+ dq +:+ "SkeletalMeshSocket_")|].
    apply (startswith_occurs _ (TextBlock.opening B)); [done|].
    apply Hin. by left.
  - apply (startswith_occurs _ (TextBlock.closing B)); [done|].
    apply Hin. unfold TextBlock.lines. right. apply elem_of_app. right.
    by left.
Qed.
End TextBlocks.

Section PasteCount.
Context `{PyFloatText} `{Mathutils}.

End PasteCount.


